(** * Rflink component: event routing and command dispatch

    A shallow embedding of [homeassistant/components/rflink.py].

    The Python module keeps its state in a handful of mutable places: the
    two registries in [hass.data], the entity objects, the class attributes
    [RflinkCommand._protocol] and [RflinkCommand._wait_ack], and the asyncio
    tasks created for signal repetitions.  They are gathered in one record,
    [World], and every method becomes a computation in a state-and-exception
    monad over it.  Calls that leave the module (the protocol's send
    primitives, [hass.async_add_job], [hass.bus.fire], ...) are recorded in
    a trace, oldest first.  The calls of [_LOGGER] are left out: they
    change nothing the module reads. *)

From Stdlib Require Import ZArith String List Lia DecimalString.
From Stdlib Require Import Floats.SpecFloat.
From stdpp Require Import gmap strings list fin_maps.

Open Scope string_scope.
Open Scope list_scope.

(** ** Constants of the module *)

Definition DEFAULT_SIGNAL_REPETITIONS : Z := 1.
Definition DEFAULT_RECONNECT_INTERVAL : Z := 10.

Definition EVENT_KEY_COMMAND : string := "command".
Definition EVENT_KEY_ID : string := "id".
Definition EVENT_KEY_SENSOR : string := "sensor".
Definition EVENT_KEY_UNIT : string := "unit".

(** ** Python values used by the module *)

(** An rflink event is a dictionary with string keys. *)
Abbreviation Event := (gmap string string).

(** The exceptions the modelled code can raise.  [ReferenceError] stands for
    a dangling entity or task reference, which Python objects cannot have;
    [PlatformError] is whatever a platform's own [_handle_event] raises.
    The last four are what opening the connection can raise: the three
    errors [connect] catches, and [OSError] for the ones it does not. *)
Inductive exn :=
| AttributeError
| KeyError
| IndexError
| UnboundLocalError
| NotImplementedError
| ReferenceError
| OverflowError
| PlatformError (msg : string)
| SerialException
| ConnectionRefusedError
| TimeoutError
| OSError.

Inductive Res (A : Type) :=
| Ok (a : A)
| Raise (e : exn).
Arguments Ok {A} a.
Arguments Raise {A} e.

Definition is_raise {A} (r : Res A) : bool :=
  match r with Raise _ => true | Ok _ => false end.

(** [RflinkDevice._state]: the [STATE_UNKNOWN] default, or a boolean. *)
Inductive pystate :=
| STATE_UNKNOWN
| PyBool (b : bool).

(** ** Event classification *)

Definition identify_event_type (event : Event) : string :=
  match event !! EVENT_KEY_COMMAND with
  | Some _ => EVENT_KEY_COMMAND
  | None =>
      match event !! EVENT_KEY_SENSOR with
      | Some _ => EVENT_KEY_SENSOR
      | None => "unknown"
      end
  end.

(** ** Entities *)

(** The classes of the module.  [RflinkDevice] and [RflinkCommand] leave
    [_handle_event] abstract; [SwitchableRflinkDevice] implements it; a
    platform subclass overrides it with a handler of its own, which reads
    the event and the current [_state] and returns the new [_state] or
    raises. *)
Inductive DeviceClass :=
| RflinkDevice
| RflinkCommand
| SwitchableRflinkDevice
| PlatformDevice (h : Event -> pystate -> Res pystate).

Record Entity := {
  cls : DeviceClass;
  entity_id : string;
  _device_id : string;
  _name : string;
  _aliasses : list string;
  _should_fire_event : bool;
  _signal_repetitions : Z;
  _state : pystate;
  _repetition_task : option nat
}.

(** [RflinkDevice.__init__]: an empty name falls back to the device id. *)
Definition RflinkDevice_init (c : DeviceClass) (eid device_id name : string)
    (aliasses : list string) (fire_event : bool) (signal_repetitions : Z) : Entity :=
  {| cls := c;
     entity_id := eid;
     _device_id := device_id;
     _name := if String.eqb name "" then device_id else name;
     _aliasses := aliasses;
     _should_fire_event := fire_event;
     _signal_repetitions := signal_repetitions;
     _state := STATE_UNKNOWN;
     _repetition_task := None |}.

Definition assumed_state (d : Entity) : bool :=
  match _state d with STATE_UNKNOWN => true | PyBool _ => false end.

Definition is_on (d : Entity) : bool :=
  match _state d with STATE_UNKNOWN => false | PyBool b => b end.

Definition with_state (s : pystate) (d : Entity) : Entity :=
  {| cls := cls d; entity_id := entity_id d; _device_id := _device_id d;
     _name := _name d; _aliasses := _aliasses d;
     _should_fire_event := _should_fire_event d;
     _signal_repetitions := _signal_repetitions d;
     _state := s;
     _repetition_task := _repetition_task d |}.

Definition with_repetition_task (t : option nat) (d : Entity) : Entity :=
  {| cls := cls d; entity_id := entity_id d; _device_id := _device_id d;
     _name := _name d; _aliasses := _aliasses d;
     _should_fire_event := _should_fire_event d;
     _signal_repetitions := _signal_repetitions d;
     _state := _state d;
     _repetition_task := t |}.

(** ** Coroutines and tasks *)

(** One record per running instance of [_async_send_command].  The
    coroutine has a single suspension point, the [yield from] on
    [send_command_ack].  [co_top] tells the instance awaited directly by
    [_async_handle_command] from the ones wrapped in a task by
    [create_task]. *)
Inductive TaskState :=
| Scheduled
| AwaitingAck
| Finished
| Cancelled
| Failed (e : exn).

Record Coro := {
  co_self : nat;
  co_cmd : string;
  co_repetitions : Z;
  co_top : bool;
  co_state : TaskState
}.

Definition is_live (co : Coro) : bool :=
  match co_state co with
  | Scheduled | AwaitingAck => true
  | _ => false
  end.

Definition with_co_state (s : TaskState) (co : Coro) : Coro :=
  {| co_self := co_self co; co_cmd := co_cmd co;
     co_repetitions := co_repetitions co; co_top := co_top co;
     co_state := s |}.

(** ** Calls that leave the module *)

(** [Transmit] is the hand-over of a command to the protocol
    ([send_command_ack] or [send_command], by [ack]); its first two fields
    say which entity and which coroutine made the call.  [HandleEvent] and
    [SetState] mark the entry into [handle_event] and an assignment to
    [_state]. *)
Inductive Effect :=
| Transmit (entity co : nat) (protocol : nat) (ack : bool) (device_id cmd : string)
| TaskCancel (t : nat)
| HandleEvent (entity : nat) (event : Event)
| SetState (entity : nat) (s : pystate)
| UpdateHaState (entity : nat)
| BusFire (eid state : string)
| RunJob (hook : nat) (event : Event)
| AddJobConnect
| CallLaterReconnect (delay : Z)
| ListenStop (protocol : nat).

(** ** The state of the component *)

Record World := {
  entity_lookup : gmap string (gmap (option string) (list nat));
  device_register : gmap string nat;
  entities : list Entity;
  _protocol : option (option nat);
  _wait_ack : option bool;
  tasks : list Coro;
  stopping : bool;
  trace : list Effect
}.

Definition with_entity_lookup (x : gmap string (gmap (option string) (list nat))) (w : World) : World :=
  {| entity_lookup := x; device_register := device_register w;
     entities := entities w; _protocol := _protocol w; _wait_ack := _wait_ack w;
     tasks := tasks w; stopping := stopping w; trace := trace w |}.

Definition with_entities (x : list Entity) (w : World) : World :=
  {| entity_lookup := entity_lookup w; device_register := device_register w;
     entities := x; _protocol := _protocol w; _wait_ack := _wait_ack w;
     tasks := tasks w; stopping := stopping w; trace := trace w |}.

Definition with_protocol (x : option (option nat)) (w : World) : World :=
  {| entity_lookup := entity_lookup w; device_register := device_register w;
     entities := entities w; _protocol := x; _wait_ack := _wait_ack w;
     tasks := tasks w; stopping := stopping w; trace := trace w |}.

Definition with_wait_ack (x : option bool) (w : World) : World :=
  {| entity_lookup := entity_lookup w; device_register := device_register w;
     entities := entities w; _protocol := _protocol w; _wait_ack := x;
     tasks := tasks w; stopping := stopping w; trace := trace w |}.

Definition with_tasks (x : list Coro) (w : World) : World :=
  {| entity_lookup := entity_lookup w; device_register := device_register w;
     entities := entities w; _protocol := _protocol w; _wait_ack := _wait_ack w;
     tasks := x; stopping := stopping w; trace := trace w |}.

Definition with_stopping (x : bool) (w : World) : World :=
  {| entity_lookup := entity_lookup w; device_register := device_register w;
     entities := entities w; _protocol := _protocol w; _wait_ack := _wait_ack w;
     tasks := tasks w; stopping := x; trace := trace w |}.

Definition with_trace (x : list Effect) (w : World) : World :=
  {| entity_lookup := entity_lookup w; device_register := device_register w;
     entities := entities w; _protocol := _protocol w; _wait_ack := _wait_ack w;
     tasks := tasks w; stopping := stopping w; trace := x |}.

(** ** The monad *)

(** A raised exception keeps the state reached so far: Python does not undo
    assignments made before the [raise]. *)
Definition M (A : Type) : Type := World -> Res A * World.

Definition ret {A} (a : A) : M A := fun w => (Ok a, w).

Definition raise {A} (e : exn) : M A := fun w => (Raise e, w).

Definition bind {A B} (m : M A) (k : A -> M B) : M B :=
  fun w =>
    match m w with
    | (Ok a, w') => k a w'
    | (Raise e, w') => (Raise e, w')
    end.

Notation "x <- m ;; k" := (bind m (fun x => k))
  (at level 100, m at next level, right associativity).
Notation "m ;; k" := (bind m (fun _ => k))
  (at level 100, right associativity).

Definition emit (eff : Effect) : M unit :=
  fun w => (Ok tt, with_trace (trace w ++ [eff]) w).

Fixpoint for_each {A} (l : list A) (body : A -> M unit) : M unit :=
  match l with
  | [] => ret tt
  | x :: l' => body x ;; for_each l' body
  end.

Definition self_get (e : nat) : M Entity :=
  fun w =>
    match entities w !! e with
    | Some d => (Ok d, w)
    | None => (Raise ReferenceError, w)
    end.

Definition self_update (e : nat) (f : Entity -> Entity) : M unit :=
  fun w => (Ok tt, with_entities (alter f e (entities w)) w).

(** [self._state = s] *)
Definition set_state (e : nat) (s : pystate) : M unit :=
  self_update e (with_state s) ;; emit (SetState e s).

(** ** The class-level protocol binding *)

(** [RflinkCommand] declares neither [_protocol] nor [_wait_ack] in its
    body: until [set_rflink_protocol] runs, reading them raises
    [AttributeError].  [_protocol w = Some None] is the binding reset to
    [None]; calling a method on it raises [AttributeError] too. *)
Definition set_rflink_protocol (protocol : option nat) (wait_ack : option bool) : M unit :=
  fun w =>
    let w1 := with_protocol (Some protocol) w in
    (Ok tt, match wait_ack with
            | Some b => with_wait_ack (Some b) w1
            | None => w1
            end).

Definition getattr_wait_ack : M bool :=
  fun w =>
    match _wait_ack w with
    | Some b => (Ok b, w)
    | None => (Raise AttributeError, w)
    end.

(** [self._protocol.send_command] / [self._protocol.send_command_ack] *)
Definition getattr_protocol_send : M nat :=
  fun w =>
    match _protocol w with
    | Some (Some p) => (Ok p, w)
    | _ => (Raise AttributeError, w)
    end.

(** ** asyncio tasks *)

Definition create_coro (co : Coro) : M nat :=
  fun w => (Ok (length (tasks w)), with_tasks (tasks w ++ [co]) w).

Definition get_coro (c : nat) : M Coro :=
  fun w =>
    match tasks w !! c with
    | Some co => (Ok co, w)
    | None => (Raise ReferenceError, w)
    end.

Definition set_co_state (c : nat) (s : TaskState) : M unit :=
  fun w => (Ok tt, with_tasks (alter (with_co_state s) c (tasks w)) w).

(** [Task.cancel()]: a task that is still pending never runs another line of
    its coroutine; on a task that is done the call has no effect. *)
Definition cancel_coro (co : Coro) : Coro :=
  if is_live co then with_co_state Cancelled co else co.

Definition task_cancel (t : nat) : M unit :=
  emit (TaskCancel t) ;;
  fun w => (Ok tt, with_tasks (alter cancel_coro t (tasks w)) w).

(** ** RflinkCommand *)

Definition cancel_queued_send_commands (e : nat) : M unit :=
  d <- self_get e ;;
  match _repetition_task d with
  | Some t => task_cancel t
  | None => ret tt
  end.

(** [_async_send_command], up to and including the hand-over of the command
    to the protocol.  Returns [true] when the coroutine is left suspended on
    [send_command_ack]. *)
Definition _async_send_command_send (c : nat) (co : Coro) : M bool :=
  d <- self_get (co_self co) ;;
  wait_ack <- getattr_wait_ack ;;
  protocol <- getattr_protocol_send ;;
  emit (Transmit (co_self co) c protocol wait_ack (_device_id d) (co_cmd co)) ;;
  if wait_ack then set_co_state c AwaitingAck ;; ret true else ret false.

(** [_async_send_command] after the send: queue the next repetition.  For
    the instance awaited by [_async_handle_command] the caller's last line,
    [async_update_ha_state], follows. *)
Definition _async_send_command_rest (c : nat) (co : Coro) : M unit :=
  (if (1 <? co_repetitions co)%Z then
     t <- create_coro {| co_self := co_self co; co_cmd := co_cmd co;
                         co_repetitions := co_repetitions co - 1;
                         co_top := false; co_state := Scheduled |} ;;
     self_update (co_self co) (with_repetition_task (Some t))
   else ret tt) ;;
  (if co_top co then emit (UpdateHaState (co_self co)) else ret tt) ;;
  set_co_state c Finished.

Inductive Progress :=
| Returned
| Suspended (c : nat).

Definition resume_body (c : nat) : M Progress :=
  co <- get_coro c ;;
  match co_state co with
  | Scheduled =>
      suspended <- _async_send_command_send c co ;;
      if suspended : bool then ret (Suspended c)
      else _async_send_command_rest c co ;; ret Returned
  | AwaitingAck => _async_send_command_rest c co ;; ret Returned
  | _ => ret Returned
  end.

(** Run coroutine [c] up to its next suspension point or its end.  An
    exception ends the coroutine and is passed on to whoever awaits it. *)
Definition resume (c : nat) : M Progress :=
  fun w =>
    match resume_body c w with
    | (Raise ex, w') => (Raise ex, with_tasks (alter (with_co_state (Failed ex)) c (tasks w')) w')
    | r => r
    end.

(** *** [str(int(args[0] / 17))] *)

(** [/] between two Python integers is true division: the quotient rounded
    to the nearest binary64 value.  [int] truncates toward zero. *)
Definition float_of_int (z : Z) : spec_float :=
  match z with
  | Z0 => S754_zero false
  | Zpos m => S754_finite false m 0
  | Zneg m => S754_finite true m 0
  end.

Definition int_truediv (a b : Z) : spec_float :=
  SFdiv 53 1024 (float_of_int a) (float_of_int b).

Definition int_of_float (x : spec_float) : option Z :=
  match x with
  | S754_zero _ => Some 0%Z
  | S754_finite s m e => Some (cond_Zopp s (Z.shiftl (Zpos m) e))
  | S754_infinity _ | S754_nan => None
  end.

Definition str (z : Z) : string := NilZero.string_of_int (Z.to_int z).

Definition dim_level (brightness : Z) : option Z :=
  int_of_float (int_truediv brightness 17).

Definition _async_handle_command (e : nat) (command : string) (args : list Z) : M Progress :=
  cancel_queued_send_commands e ;;
  cmd <- (if String.eqb command "turn_on" then
            set_state e (PyBool true) ;; ret (Some "on")
          else if String.eqb command "turn_off" then
            set_state e (PyBool false) ;; ret (Some "off")
          else if String.eqb command "dim" then
            match args with
            | [] => raise IndexError
            | brightness :: _ =>
                match dim_level brightness with
                | None => raise OverflowError
                | Some level => set_state e (PyBool true) ;; ret (Some (str level))
                end
            end
          else ret None) ;;
  match cmd with
  | None => raise UnboundLocalError
  | Some cmd =>
      d <- self_get e ;;
      c <- create_coro {| co_self := e; co_cmd := cmd;
                          co_repetitions := _signal_repetitions d;
                          co_top := true; co_state := Scheduled |} ;;
      resume c
  end.

(** ** SwitchableRflinkDevice and event handling *)

Definition _handle_event (e : nat) (event : Event) : M unit :=
  d <- self_get e ;;
  match cls d with
  | RflinkDevice | RflinkCommand => raise NotImplementedError
  | SwitchableRflinkDevice =>
      cancel_queued_send_commands e ;;
      match event !! "command" with
      | None => raise KeyError
      | Some command =>
          if String.eqb command "on" then set_state e (PyBool true)
          else if String.eqb command "off" then set_state e (PyBool false)
          else ret tt
      end
  | PlatformDevice h =>
      match h event (_state d) with
      | Ok s => set_state e s
      | Raise ex => raise ex
      end
  end.

Definition async_turn_on (e : nat) : M Progress := _async_handle_command e "turn_on" [].

Definition async_turn_off (e : nat) : M Progress := _async_handle_command e "turn_off" [].

Definition handle_event (e : nat) (event : Event) : M unit :=
  emit (HandleEvent e event) ;;
  _handle_event e event ;;
  emit (UpdateHaState e) ;;
  d <- self_get e ;;
  if _should_fire_event d && String.eqb (identify_event_type event) EVENT_KEY_COMMAND then
    match event !! EVENT_KEY_COMMAND with
    | Some command => emit (BusFire (entity_id d) command)
    | None => raise KeyError
    end
  else ret tt.

(** ** async_setup: routing and connection management *)

(** [hass.data[DATA_ENTITY_LOOKUP][event_type][event_id]] on a
    [defaultdict(list)]: a missing key is inserted with an empty list. *)
Definition defaultdict_getitem (event_type : string)
    (by_id : gmap (option string) (list nat)) (event_id : option string) : M (list nat) :=
  match by_id !! event_id with
  | Some l => ret l
  | None =>
      fun w => (Ok [], with_entity_lookup
                         (<[event_type := <[event_id := []]> by_id]> (entity_lookup w)) w)
  end.

Definition event_callback (event : Event) : M unit :=
  fun w =>
    let event_type := identify_event_type event in
    match entity_lookup w !! event_type with
    | None => (Ok tt, w)
    | Some by_id =>
        (entities <- defaultdict_getitem event_type by_id (event !! EVENT_KEY_ID) ;;
         match entities with
         | _ :: _ => for_each entities (fun entity => handle_event entity event)
         | [] =>
             fun w' =>
               match device_register w' !! event_type with
               | Some hook => emit (RunJob hook event) w'
               | None => (Ok tt, w')
               end
         end) w
    end.

Record Config := {
  CONF_WAIT_FOR_ACK : bool;
  CONF_RECONNECT_INTERVAL : Z
}.

Definition reconnect : M unit :=
  set_rflink_protocol None None ;;
  fun w => if stopping w then (Ok tt, w) else emit AddJobConnect w.

(** The [except] clause of [connect]: the errors after which it schedules
    a reconnect.  Any other exception leaves [connect] uncaught. *)
Definition caught (ex : exn) : bool :=
  match ex with
  | SerialException | ConnectionRefusedError | TimeoutError => true
  | _ => false
  end.

(** [connect]: [connection] is what awaiting [create_rflink_connection]
    comes to, the protocol object or the exception raised. *)
Definition connect (config : Config) (connection : Res nat) : M unit :=
  match connection with
  | Raise ex =>
      if caught ex then emit (CallLaterReconnect (CONF_RECONNECT_INTERVAL config))
      else raise ex
  | Ok protocol =>
      set_rflink_protocol (Some protocol) (Some (CONF_WAIT_FOR_ACK config)) ;;
      emit (ListenStop protocol)
  end.

Definition hass_start : World :=
  {| entity_lookup := ∅; device_register := ∅; entities := [];
     _protocol := None; _wait_ack := None; tasks := [];
     stopping := false; trace := [] |}.

Definition with_device_register (x : gmap string nat) (w : World) : World :=
  {| entity_lookup := entity_lookup w; device_register := x;
     entities := entities w; _protocol := _protocol w; _wait_ack := _wait_ack w;
     tasks := tasks w; stopping := stopping w; trace := trace w |}.

Definition async_setup (config : Config) (connection : Res nat) : M bool :=
  (fun w => (Ok tt, with_device_register ∅
                      (with_entity_lookup
                         {[ EVENT_KEY_COMMAND := ∅; EVENT_KEY_SENSOR := ∅ ]} w))) ;;
  connect config connection ;;
  ret true.

(** ** The event loop *)

(** What can happen to the component between two of its own steps. *)
Inductive Op :=
| OpCommand (e : nat) (command : string) (args : list Z)
| OpRunTask (t : nat)
| OpAck (c : nat)
| OpEvent (event : Event)
| OpDisconnect
| OpConnect (connection : Res nat)
| OpStop.

Definition run_task (t : nat) (w : World) : World :=
  match tasks w !! t with
  | Some co =>
      match co_state co with
      | Scheduled => snd (resume t w)
      | _ => w
      end
  | None => w
  end.

Definition deliver_ack (c : nat) (w : World) : World :=
  match tasks w !! c with
  | Some co =>
      match co_state co with
      | AwaitingAck => snd (resume c w)
      | _ => w
      end
  | None => w
  end.

Definition exec_op (config : Config) (op : Op) (w : World) : World :=
  match op with
  | OpCommand e command args => snd (_async_handle_command e command args w)
  | OpRunTask t => run_task t w
  | OpAck c => deliver_ack c w
  | OpEvent event => snd (event_callback event w)
  | OpDisconnect => snd (reconnect w)
  | OpConnect connection => snd (connect config connection w)
  | OpStop => with_stopping true w
  end.

Definition exec_ops (config : Config) (ops : list Op) (w : World) : World :=
  foldl (fun w op => exec_op config op w) w ops.

(** The loop on its own: run whatever is runnable, acknowledge whatever is
    waiting, oldest coroutine first, until nothing is left. *)
Definition next_ready (w : World) : option Op :=
  match list_find (fun co => is_live co = true) (tasks w) with
  | Some (i, co) =>
      Some (match co_state co with AwaitingAck => OpAck i | _ => OpRunTask i end)
  | None => None
  end.

Fixpoint run_until_idle (config : Config) (fuel : nat) (w : World) : World :=
  match fuel with
  | O => w
  | S n =>
      match next_ready w with
      | Some op => run_until_idle config n (exec_op config op w)
      | None => w
      end
  end.

(** Projections of the trace. *)
Definition transmissions (tr : list Effect) : list (string * string) :=
  omap (fun eff => match eff with
                   | Transmit _ _ _ _ device_id cmd => Some (device_id, cmd)
                   | _ => None
                   end) tr.

Definition deliveries (tr : list Effect) : list nat :=
  omap (fun eff => match eff with
                   | HandleEvent e _ => Some e
                   | _ => None
                   end) tr.

Definition hook_calls (tr : list Effect) : list (nat * Event) :=
  omap (fun eff => match eff with
                   | RunJob hook event => Some (hook, event)
                   | _ => None
                   end) tr.

(** ** Vocabulary of the statements *)

(** The payload each accepted logical command is sent as, and the state it
    sets. *)
Inductive command_payload : string -> list Z -> string -> bool -> Prop :=
| payload_turn_on args : command_payload "turn_on" args "on" true
| payload_turn_off args : command_payload "turn_off" args "off" false
| payload_dim brightness rest level :
    dim_level brightness = Some level ->
    command_payload "dim" (brightness :: rest) (str level) true.

(** Whether a class's [_handle_event] returns or raises on an event. *)
Definition accepts (c : DeviceClass) (event : Event) : Prop :=
  match c with
  | RflinkDevice | RflinkCommand => False
  | SwitchableRflinkDevice => is_Some (event !! "command")
  | PlatformDevice h => forall s, is_raise (h event s) = false
  end.

Definition rejects (c : DeviceClass) (event : Event) : Prop :=
  match c with
  | RflinkDevice | RflinkCommand => True
  | SwitchableRflinkDevice => event !! "command" = None
  | PlatformDevice h => forall s, is_raise (h event s) = true
  end.

(** No coroutine is pending. *)
Definition idle (w : World) : Prop :=
  forall i co, tasks w !! i = Some co -> is_live co = false.

(** Steps of the loop itself, as opposed to calls from outside. *)
Definition is_loop_op (op : Op) : Prop :=
  match op with
  | OpRunTask _ | OpAck _ => True
  | _ => False
  end.

(** The worlds reached by the elementary assignments. *)
Definition cancel_world (d : Entity) (w : World) : World :=
  match _repetition_task d with
  | Some t => with_tasks (alter cancel_coro t (tasks w)) (with_trace (trace w ++ [TaskCancel t]) w)
  | None => w
  end.

Definition state_world (e : nat) (s : pystate) (w : World) : World :=
  with_trace (trace w ++ [SetState e s]) (with_entities (alter (with_state s) e (entities w)) w).

Definition spawn_world (co : Coro) (w : World) : World :=
  with_tasks (tasks w ++ [co]) w.

Definition fail_world (c : nat) (ex : exn) (w : World) : World :=
  with_tasks (alter (with_co_state (Failed ex)) c (tasks w)) w.

Definition child_of (co : Coro) : Coro :=
  {| co_self := co_self co; co_cmd := co_cmd co;
     co_repetitions := co_repetitions co - 1;
     co_top := false; co_state := Scheduled |}.

Definition rest_world (c : nat) (co : Coro) (w : World) : World :=
  let w1 := if (1 <? co_repetitions co)%Z then
              with_entities
                (alter (with_repetition_task (Some (length (tasks w)))) (co_self co) (entities w))
                (spawn_world (child_of co) w)
            else w in
  let w2 := if co_top co then with_trace (trace w1 ++ [UpdateHaState (co_self co)]) w1 else w1 in
  with_tasks (alter (with_co_state Finished) c (tasks w2)) w2.

Definition transmit_world (c : nat) (co : Coro) (p : nat) (ack : bool) (dev : string) (w : World) : World :=
  with_trace (trace w ++ [Transmit (co_self co) c p ack dev (co_cmd co)]) w.

Definition top_coro (e : nat) (cmd : string) (d : Entity) : Coro :=
  {| co_self := e; co_cmd := cmd; co_repetitions := _signal_repetitions d;
     co_top := true; co_state := Scheduled |}.

(** The world in which [_async_handle_command] starts its send. *)
Definition launch_world (e : nat) (d : Entity) (cmd : string) (s : bool) (w : World) : World :=
  spawn_world (top_coro e cmd d) (state_world e (PyBool s) (cancel_world d w)).


(** No protocol is bound: the attribute was never set, or was reset to
    [None]. *)
Definition unbound (w : World) : Prop := _protocol w = None \/ _protocol w = Some None.

(** [w'] has the binding of [w], and nothing was transmitted on the way if
    [w] had no protocol bound. *)
Definition binding_frame (w w' : World) : Prop :=
  _protocol w' = _protocol w /\ _wait_ack w' = _wait_ack w /\
  (unbound w -> transmissions (trace w') = transmissions (trace w)).

Definition frames {A} (m : M A) : Prop := forall w, binding_frame w (snd (m w)).

(** Anything but a successful [connect]. *)
Definition not_connected (op : Op) : Prop :=
  match op with OpConnect (Ok _) => False | _ => True end.

(** [w'] was reached from [w] without entering [handle_event], without
    calling a hook, and without changing the class of any entity. *)
Definition quiet_frame (w w' : World) : Prop :=
  (exists mid, trace w' = trace w ++ mid /\ deliveries mid = [] /\ hook_calls mid = []) /\
  (forall h, cls <$> entities w' !! h = cls <$> entities w !! h).

Definition quiet {A} (m : M A) : Prop := forall w, quiet_frame w (snd (m w)).

Definition is_quiet_effect (eff : Effect) : Prop :=
  match eff with HandleEvent _ _ | RunJob _ _ => False | _ => True end.

(** What [handle_event] does after the entry mark. *)
Definition handle_event_body (e : nat) (event : Event) : M unit :=
  _handle_event e event ;;
  emit (UpdateHaState e) ;;
  d <- self_get e ;;
  if _should_fire_event d && String.eqb (identify_event_type event) EVENT_KEY_COMMAND then
    match event !! EVENT_KEY_COMMAND with
    | Some command => emit (BusFire (entity_id d) command)
    | None => raise KeyError
    end
  else ret tt.


(** The world a coroutine leaves behind when it runs from its start to the
    suspension on the acknowledgment, to its end, or to an exception. *)
Definition send_outcome (c : nat) (co : Coro) (w : World) : World :=
  match entities w !! co_self co with
  | None => fail_world c ReferenceError w
  | Some d =>
      match _wait_ack w, _protocol w with
      | Some true, Some (Some p) =>
          with_tasks (alter (with_co_state AwaitingAck) c (tasks w))
            (transmit_world c co p true (_device_id d) w)
      | Some false, Some (Some p) =>
          rest_world c co (transmit_world c co p false (_device_id d) w)
      | _, _ => fail_world c AttributeError w
      end
  end.

(** A computation all of whose runs are related by [P]. *)
Definition framed (P : World -> World -> Prop) {A} (m : M A) : Prop :=
  forall w, P w (snd (m w)).

(** Coroutine [t] is done, and stays as it is; nothing was transmitted in
    its name. *)
Definition silent_frame (t : nat) (co : Coro) (w w' : World) : Prop :=
  tasks w !! t = Some co ->
  tasks w' !! t = Some co /\
  exists added, trace w' = trace w ++ added /\
    forall e p a dev x, ~ In (Transmit e t p a dev x) added.

(** The world [SwitchableRflinkDevice._handle_event] leaves after the
    cancellation, and the one [handle_event] ends in. *)
Definition remote_world (command : string) (e : nat) (w : World) : World :=
  if String.eqb command "on" then state_world e (PyBool true) w
  else if String.eqb command "off" then state_world e (PyBool false) w
  else w.

Definition handled_world (command : string) (e : nat) (d : Entity) (event : Event) (w : World) : World :=
  let w1 := remote_world command e
              (cancel_world d (with_trace (trace w ++ [HandleEvent e event]) w)) in
  let w2 := with_trace (trace w1 ++ [UpdateHaState e]) w1 in
  if _should_fire_event d then with_trace (trace w2 ++ [BusFire (entity_id d) command]) w2
  else w2.


(** Every pending coroutine of entity [e] carries the payload [x]. *)
Definition carries (e : nat) (x : string) (w : World) : Prop :=
  forall i co, tasks w !! i = Some co -> is_live co = true -> co_self co = e -> co_cmd co = x.

(** Whatever entity [e] transmitted in [added] was the payload [x]. *)
Definition only_payload (e : nat) (x : string) (added : list Effect) : Prop :=
  forall c p a dev y, In (Transmit e c p a dev y) added -> y = x.

(** Coroutine [c] is the only pending one. *)
Definition sole_live (c : nat) (w : World) : Prop :=
  forall i co, tasks w !! i = Some co -> is_live co = true -> i = c.

(** Transmissions a pending coroutine still has to make, itself and the
    repetitions after it, and the loop steps they take at most. *)
Definition remaining (co : Coro) : nat :=
  match co_state co with
  | Scheduled => Z.to_nat (co_repetitions co)
  | AwaitingAck => Z.to_nat (co_repetitions co - 1)
  | _ => 0
  end.

Definition steps_left (co : Coro) : nat :=
  match co_state co with
  | Scheduled => 2 * Z.to_nat (co_repetitions co)
  | AwaitingAck => 2 * Z.to_nat (co_repetitions co) - 1
  | _ => 0
  end.

(** ** Example worlds *)

(** A switch "D1" registered for command events, a hook installed for
    command events, protocol 0 bound. *)
Definition demo_switch (R : Z) : Entity :=
  RflinkDevice_init SwitchableRflinkDevice "switch.d1" "D1" "" [] false R.

Definition demo_world (ack : bool) (R : Z) : World :=
  {| entity_lookup := {[ EVENT_KEY_COMMAND := {[ Some "D1" := [0] ]}; EVENT_KEY_SENSOR := ∅ ]};
     device_register := {[ EVENT_KEY_COMMAND := 0 ]};
     entities := [demo_switch R];
     _protocol := Some (Some 0); _wait_ack := Some ack;
     tasks := []; stopping := false; trace := [] |}.

Definition demo_config (ack : bool) : Config :=
  {| CONF_WAIT_FOR_ACK := ack; CONF_RECONNECT_INTERVAL := DEFAULT_RECONNECT_INTERVAL |}.

(** The same world once "turn_on" has been sent without waiting for the
    acknowledgment: the repetition task 1 is pending. *)
Definition demo_pending (R : Z) : World :=
  snd (_async_handle_command 0 "turn_on" [] (demo_world false R)).

(** Two handlers under "D1": an entity of the base class, which leaves
    [_handle_event] abstract, registered before the switch. *)
Definition demo_shared : World :=
  {| entity_lookup := {[ EVENT_KEY_COMMAND := {[ Some "D1" := [0; 1] ]}; EVENT_KEY_SENSOR := ∅ ]};
     device_register := ∅;
     entities := [RflinkDevice_init RflinkDevice "sensor.d1" "D1" "" [] false 1;
                  RflinkDevice_init SwitchableRflinkDevice "switch.d1" "D1" "" [] false 1];
     _protocol := Some (Some 0); _wait_ack := Some true;
     tasks := []; stopping := false; trace := [] |}.

(** Three handlers under "D1": a switch, an entity of [RflinkCommand]
    itself, which leaves [_handle_event] abstract, and a second switch that
    lists "D1" among its aliases. *)
Definition demo_aliases : World :=
  {| entity_lookup :=
       {[ EVENT_KEY_COMMAND := {[ Some "D1" := [0; 1; 2] ]}; EVENT_KEY_SENSOR := ∅ ]};
     device_register := ∅;
     entities := [RflinkDevice_init SwitchableRflinkDevice "switch.a" "D1" "" [] false 1;
                  RflinkDevice_init RflinkCommand "light.b" "B1" "" ["D1"] false 1;
                  RflinkDevice_init SwitchableRflinkDevice "switch.c" "C1" "" ["D1"] false 1];
     _protocol := Some (Some 0); _wait_ack := Some true;
     tasks := []; stopping := false; trace := [] |}.

Definition demo_on : Event := {[ EVENT_KEY_ID := "D1"; EVENT_KEY_COMMAND := "on" ]}.
Definition demo_off : Event := {[ EVENT_KEY_ID := "D1"; EVENT_KEY_COMMAND := "off" ]}.

(** ** Further vocabulary *)

(** [w'] was reached from [w] without a transmission, without a new
    coroutine and without a change of the protocol binding; a coroutine of
    [w] is as it was, or cancelled. *)
Definition routing_frame (w w' : World) : Prop :=
  transmissions (trace w') = transmissions (trace w) /\
  length (tasks w') = length (tasks w) /\
  _protocol w' = _protocol w /\ _wait_ack w' = _wait_ack w /\ stopping w' = stopping w /\
  forall c co, tasks w !! c = Some co ->
    tasks w' !! c = Some co \/ tasks w' !! c = Some (cancel_coro co).

(** [w'] was reached from [w] by logging effects that all satisfy [Q],
    without touching the stopping flag. *)
Definition effects_frame (Q : Effect -> Prop) (w w' : World) : Prop :=
  stopping w' = stopping w /\
  exists added, trace w' = trace w ++ added /\ Forall Q added.

(** What sending a command may call, and what routing an event may call. *)
Definition is_command_effect (eff : Effect) : Prop :=
  match eff with
  | TaskCancel _ | SetState _ _ | Transmit _ _ _ _ _ _ | UpdateHaState _ => True
  | _ => False
  end.

Definition is_routing_effect (eff : Effect) : Prop :=
  match eff with
  | HandleEvent _ _ | TaskCancel _ | SetState _ _ | UpdateHaState _
  | BusFire _ _ | RunJob _ _ => True
  | _ => False
  end.

(** Entity [e] has no pending coroutine. *)
Definition no_pending (e : nat) (w : World) : Prop :=
  forall i co, tasks w !! i = Some co -> is_live co = true -> co_self co <> e.

(** Entity [e] transmitted nothing in [added]. *)
Definition no_transmission_of (e : nat) (added : list Effect) : Prop :=
  forall c p a dev x, ~ In (Transmit e c p a dev x) added.

(** Anything but a command. *)
Definition is_background_op (op : Op) : Prop :=
  match op with OpCommand _ _ _ => False | _ => True end.

(** What [__init__] fixes about an entity. *)
Definition configuration (d : Entity) : DeviceClass * string * string * string * list string * bool * Z :=
  (cls d, entity_id d, _device_id d, _name d, _aliasses d, _should_fire_event d,
   _signal_repetitions d).

(** [w'] has the entities of [w], each with the configuration it had. *)
Definition configuration_frame (w w' : World) : Prop :=
  forall h, configuration <$> entities w' !! h = configuration <$> entities w !! h.

Definition is_state_effect (eff : Effect) : Prop :=
  match eff with TaskCancel _ | SetState _ _ => True | _ => False end.

(** Steps of the loop and of the connection manager: neither a command nor
    an event. *)
Definition is_system_op (op : Op) : Prop :=
  match op with OpCommand _ _ _ | OpEvent _ => False | _ => True end.

(** [w'] reports the state of every entity as [w] does. *)
Definition state_frame (w w' : World) : Prop :=
  forall h, _state <$> entities w' !! h = _state <$> entities w !! h.

(** [w'] has no event type in its lookup table that [w] had not. *)
Definition lookup_keys_frame (w w' : World) : Prop :=
  forall k, entity_lookup w !! k = None -> entity_lookup w' !! k = None.
(** * Event classification *)

(** C4. An event with a command field is classified "command"; one with a
    sensor field and no command field is classified "sensor"; any other is
    "unknown".  The result is always one of the three, and the command field
    wins when both are present. *)
Theorem identify_event_type_priority (event : Event) :
  (is_Some (event !! EVENT_KEY_COMMAND) -> identify_event_type event = "command") /\
  (event !! EVENT_KEY_COMMAND = None -> is_Some (event !! EVENT_KEY_SENSOR) ->
     identify_event_type event = "sensor") /\
  (event !! EVENT_KEY_COMMAND = None -> event !! EVENT_KEY_SENSOR = None ->
     identify_event_type event = "unknown") /\
  (identify_event_type event = "command" \/ identify_event_type event = "sensor" \/
     identify_event_type event = "unknown").
Proof.
  unfold identify_event_type.
  destruct (event !! EVENT_KEY_COMMAND) as [c|] eqn:Hc;
    destruct (event !! EVENT_KEY_SENSOR) as [s|] eqn:Hs;
    repeat split; intros; auto;
    try match goal with H : is_Some None |- _ => destruct H; discriminate end;
    try discriminate.
Qed.

Lemma identify_event_type_priority_witness :
  identify_event_type {[ "id" := "D1"; "command" := "on"; "sensor" := "temp" ]} = "command" /\
  identify_event_type {[ "id" := "D1"; "sensor" := "temp" ]} = "sensor" /\
  identify_event_type {[ "id" := "D1" ]} = "unknown".
Proof.
  split; [|split].
  - apply (identify_event_type_priority _). vm_compute. eauto.
  - apply (identify_event_type_priority _); vm_compute; eauto.
  - apply (identify_event_type_priority _); vm_compute; eauto.
Defined.

(** * Run equations *)

Lemma cancel_queued_send_commands_run e d w :
  entities w !! e = Some d ->
  cancel_queued_send_commands e w = (Ok tt, cancel_world d w).
Proof.
  intros He. unfold cancel_queued_send_commands, bind, self_get, cancel_world. rewrite He.
  destruct (_repetition_task d); reflexivity.
Qed.

Lemma set_state_run e s w : set_state e s w = (Ok tt, state_world e s w).
Proof. reflexivity. Qed.

Lemma rest_run c co w : _async_send_command_rest c co w = (Ok tt, rest_world c co w).
Proof.
  unfold _async_send_command_rest, rest_world, bind.
  destruct (1 <? co_repetitions co)%Z; destruct (co_top co); reflexivity.
Qed.

Lemma connect_raise_run config ex w :
  connect config (Raise ex) w =
  if caught ex
  then (Ok tt, with_trace (trace w ++ [CallLaterReconnect (CONF_RECONNECT_INTERVAL config)]) w)
  else (Raise ex, w).
Proof. unfold connect. destruct (caught ex); reflexivity. Qed.

Lemma resume_scheduled_ack c co d p w :
  tasks w !! c = Some co -> co_state co = Scheduled ->
  entities w !! co_self co = Some d ->
  _wait_ack w = Some true -> _protocol w = Some (Some p) ->
  resume c w =
    (Ok (Suspended c),
     with_tasks (alter (with_co_state AwaitingAck) c (tasks w))
       (transmit_world c co p true (_device_id d) w)).
Proof.
  intros Hc Hs Hd Ha Hp.
  unfold resume, resume_body, bind, get_coro. rewrite Hc, Hs.
  unfold _async_send_command_send, bind, self_get, getattr_wait_ack, getattr_protocol_send.
  rewrite Hd, Ha, Hp. reflexivity.
Qed.

Lemma resume_scheduled_noack c co d p w :
  tasks w !! c = Some co -> co_state co = Scheduled ->
  entities w !! co_self co = Some d ->
  _wait_ack w = Some false -> _protocol w = Some (Some p) ->
  resume c w =
    (Ok Returned, rest_world c co (transmit_world c co p false (_device_id d) w)).
Proof.
  intros Hc Hs Hd Ha Hp.
  unfold resume, resume_body, bind, get_coro. rewrite Hc, Hs.
  unfold _async_send_command_send, bind, self_get, getattr_wait_ack, getattr_protocol_send.
  rewrite Hd, Ha, Hp. simpl. rewrite rest_run. reflexivity.
Qed.

Lemma resume_scheduled_unbound c co d w :
  tasks w !! c = Some co -> co_state co = Scheduled ->
  entities w !! co_self co = Some d ->
  _protocol w = None \/ _protocol w = Some None ->
  resume c w = (Raise AttributeError, fail_world c AttributeError w).
Proof.
  intros Hc Hs Hd Hp.
  unfold resume, resume_body, bind, get_coro. rewrite Hc, Hs.
  unfold _async_send_command_send, bind, self_get, getattr_wait_ack, getattr_protocol_send.
  rewrite Hd. destruct (_wait_ack w); [|reflexivity].
  destruct Hp as [-> | ->]; reflexivity.
Qed.

Lemma resume_awaiting c co w :
  tasks w !! c = Some co -> co_state co = AwaitingAck ->
  resume c w = (Ok Returned, rest_world c co w).
Proof.
  intros Hc Hs. unfold resume, resume_body, bind, get_coro. rewrite Hc, Hs.
  rewrite rest_run. reflexivity.
Qed.

Lemma resume_done c co w :
  tasks w !! c = Some co -> is_live co = false ->
  resume c w = (Ok Returned, w).
Proof.
  intros Hc Hs. unfold resume, resume_body, bind, get_coro. rewrite Hc.
  unfold is_live in Hs. destruct (co_state co); try discriminate; reflexivity.
Qed.

Lemma cancel_world_entities d w : entities (cancel_world d w) = entities w.
Proof. unfold cancel_world. destruct (_repetition_task d); reflexivity. Qed.

Lemma cancel_world_tasks_length d w : length (tasks (cancel_world d w)) = length (tasks w).
Proof. unfold cancel_world. destruct (_repetition_task d); simpl; [apply length_alter | reflexivity]. Qed.

Lemma handle_command_run e d w command args cmd s :
  entities w !! e = Some d ->
  command_payload command args cmd s ->
  _async_handle_command e command args w =
    resume (length (tasks w))
      (spawn_world (top_coro e cmd d) (state_world e (PyBool s) (cancel_world d w))).
Proof.
  intros He Hpay. unfold _async_handle_command. unfold bind at 1.
  rewrite (cancel_queued_send_commands_run e d w He).
  destruct Hpay as [args|args|b rest level Hlevel]; simpl; try rewrite Hlevel;
    unfold bind, set_state, self_update, emit, ret, self_get, create_coro; simpl;
    rewrite list_lookup_alter_eq, cancel_world_entities, He; simpl;
    rewrite cancel_world_tasks_length;
    unfold spawn_world, state_world, top_coro; simpl;
    rewrite ?cancel_world_entities; reflexivity.
Qed.

Lemma cancel_world_protocol d w : _protocol (cancel_world d w) = _protocol w.
Proof. unfold cancel_world. destruct (_repetition_task d); reflexivity. Qed.

Lemma cancel_world_wait_ack d w : _wait_ack (cancel_world d w) = _wait_ack w.
Proof. unfold cancel_world. destruct (_repetition_task d); reflexivity. Qed.

Lemma cancel_world_trace d w :
  trace (cancel_world d w) =
  trace w ++ match _repetition_task d with Some t => [TaskCancel t] | None => [] end.
Proof. unfold cancel_world. destruct (_repetition_task d); simpl; [reflexivity | symmetry; apply app_nil_r]. Qed.

Lemma transmissions_app a b : transmissions (a ++ b) = transmissions a ++ transmissions b.
Proof. apply omap_app. Qed.

Lemma cancel_world_transmissions d w :
  transmissions (trace (cancel_world d w)) = transmissions (trace w).
Proof.
  rewrite cancel_world_trace, transmissions_app.
  destruct (_repetition_task d); simpl; apply app_nil_r.
Qed.

Lemma launch_world_lookup e d cmd s w :
  tasks (launch_world e d cmd s w) !! length (tasks w) = Some (top_coro e cmd d).
Proof.
  unfold launch_world, spawn_world, state_world. simpl.
  rewrite lookup_app_r; rewrite cancel_world_tasks_length; [|lia].
  rewrite Nat.sub_diag. reflexivity.
Qed.

Lemma launch_world_entity e d cmd s w :
  entities w !! e = Some d ->
  entities (launch_world e d cmd s w) !! e = Some (with_state (PyBool s) d).
Proof.
  intros He. unfold launch_world, spawn_world, state_world. simpl.
  rewrite list_lookup_alter_eq, cancel_world_entities, He. reflexivity.
Qed.

(** * Failed sends *)

(** C9. When no connection is bound, a send raises to its caller and the
    state the command set before the send stays: the assignment to [_state]
    is the last thing that happened, and nothing was transmitted. *)
Theorem send_failure_keeps_optimistic_state
    (w : World) (e : nat) (d : Entity) (command : string) (args : list Z) (cmd : string) (s : bool) :
  entities w !! e = Some d ->
  command_payload command args cmd s ->
  _protocol w = None \/ _protocol w = Some None ->
  let r := _async_handle_command e command args w in
  fst r = Raise AttributeError /\
  _state <$> entities (snd r) !! e = Some (PyBool s) /\
  transmissions (trace (snd r)) = transmissions (trace w) /\
  exists before, trace (snd r) = trace w ++ before ++ [SetState e (PyBool s)].
Proof.
  intros He Hpay Hp. cbv zeta.
  rewrite (handle_command_run e d w command args cmd s He Hpay).
  fold (launch_world e d cmd s w).
  rewrite (resume_scheduled_unbound _ (top_coro e cmd d) (with_state (PyBool s) d)).
  - simpl. split; [reflexivity|]. split; [|split].
    + rewrite list_lookup_alter_eq, cancel_world_entities, He. reflexivity.
    + rewrite transmissions_app, cancel_world_transmissions. simpl. apply app_nil_r.
    + rewrite cancel_world_trace, <- app_assoc. eauto.
  - apply launch_world_lookup.
  - reflexivity.
  - simpl. apply (launch_world_entity e d cmd s w He).
  - unfold launch_world. simpl. rewrite cancel_world_protocol. exact Hp.
Qed.

(** C10. A logical command other than "turn_on", "turn_off" and "dim"
    leaves [cmd] unassigned: [_async_handle_command] raises before anything
    is transmitted and before any coroutine is created. *)
Theorem unknown_command_raises_before_transmission
    (w : World) (e : nat) (d : Entity) (command : string) (args : list Z) :
  entities w !! e = Some d ->
  command <> "turn_on" -> command <> "turn_off" -> command <> "dim" ->
  let r := _async_handle_command e command args w in
  fst r = Raise UnboundLocalError /\
  transmissions (trace (snd r)) = transmissions (trace w) /\
  length (tasks (snd r)) = length (tasks w) /\
  entities (snd r) = entities w.
Proof.
  intros He H1 H2 H3.
  assert (Hrun : _async_handle_command e command args w
                 = (Raise UnboundLocalError, cancel_world d w)).
  { unfold _async_handle_command. unfold bind at 1.
    rewrite (cancel_queued_send_commands_run e d w He).
    apply String.eqb_neq in H1, H2, H3.
    unfold bind. rewrite H1, H2, H3. reflexivity. }
  cbv zeta. rewrite Hrun. simpl.
  auto using cancel_world_transmissions, cancel_world_entities, cancel_world_tasks_length.
Qed.

(** * The protocol binding is only changed by the connection manager *)

Lemma binding_frame_refl w : binding_frame w w.
Proof. repeat split. Qed.

Lemma binding_frame_trans a b c : binding_frame a b -> binding_frame b c -> binding_frame a c.
Proof.
  intros (Hp1 & Ha1 & Ht1) (Hp2 & Ha2 & Ht2). repeat split; try congruence.
  intros Hu. rewrite Ht2, Ht1; auto. unfold unbound in *. rewrite Hp1. exact Hu.
Qed.

Lemma frames_ret {A} (a : A) : frames (ret a).
Proof. intros w. apply binding_frame_refl. Qed.

Lemma frames_raise {A} ex : frames (@raise A ex).
Proof. intros w. apply binding_frame_refl. Qed.

Lemma frames_bind {A B} (m : M A) (k : A -> M B) :
  frames m -> (forall a, frames (k a)) -> frames (bind m k).
Proof.
  intros Hm Hk w. unfold bind. specialize (Hm w).
  destruct (m w) as [[a|ex] w1]; simpl in *; [|exact Hm].
  eapply binding_frame_trans; [exact Hm | apply Hk].
Qed.

Lemma frames_for_each {A} (l : list A) (body : A -> M unit) :
  (forall x, frames (body x)) -> frames (for_each l body).
Proof.
  intros Hb. induction l as [|x l IH]; simpl.
  - apply frames_ret.
  - apply frames_bind; auto.
Qed.

Lemma transmissions_snoc_other tr eff :
  match eff with Transmit _ _ _ _ _ _ => False | _ => True end ->
  transmissions (tr ++ [eff]) = transmissions tr.
Proof.
  intros H. rewrite transmissions_app. destruct eff; try contradiction; simpl; apply app_nil_r.
Qed.

Lemma frames_emit eff :
  match eff with Transmit _ _ _ _ _ _ => False | _ => True end -> frames (emit eff).
Proof.
  intros H w. unfold emit; simpl. repeat split. intros _. simpl.
  apply transmissions_snoc_other, H.
Qed.

Ltac frame_prim := intros w; unfold binding_frame; simpl; repeat case_match; simpl; auto.

Lemma frames_self_get e : frames (self_get e).
Proof. unfold self_get. frame_prim. Qed.

Lemma frames_self_update e f : frames (self_update e f).
Proof. unfold self_update. frame_prim. Qed.

Lemma frames_set_state e s : frames (set_state e s).
Proof. apply frames_bind; [apply frames_self_update | intros; apply frames_emit; exact I]. Qed.

Lemma frames_create_coro co : frames (create_coro co).
Proof. unfold create_coro. frame_prim. Qed.

Lemma frames_get_coro c : frames (get_coro c).
Proof. unfold get_coro. frame_prim. Qed.

Lemma frames_set_co_state c s : frames (set_co_state c s).
Proof. unfold set_co_state. frame_prim. Qed.

Lemma frames_task_cancel t : frames (task_cancel t).
Proof.
  apply frames_bind; [apply frames_emit; exact I|]. intros _. frame_prim.
Qed.

Lemma frames_cancel_queued e : frames (cancel_queued_send_commands e).
Proof.
  apply frames_bind; [apply frames_self_get|]. intros d.
  destruct (_repetition_task d); [apply frames_task_cancel | apply frames_ret].
Qed.

Lemma frames_send c co : frames (_async_send_command_send c co).
Proof.
  intros w. unfold _async_send_command_send, bind, self_get, getattr_wait_ack,
    getattr_protocol_send, emit, set_co_state, ret.
  destruct (entities w !! co_self co); simpl; [|apply binding_frame_refl].
  destruct (_wait_ack w) as [a|] eqn:Ha; simpl; [|apply binding_frame_refl].
  destruct (_protocol w) as [[p|]|] eqn:Hp; simpl; try apply binding_frame_refl.
  destruct a; simpl; (repeat split; simpl; auto;
    intros [Hu|Hu]; rewrite Hu in Hp; discriminate).
Qed.

Lemma frames_rest c co : frames (_async_send_command_rest c co).
Proof.
  unfold _async_send_command_rest.
  apply frames_bind.
  - destruct (1 <? co_repetitions co)%Z; [|apply frames_ret].
    apply frames_bind; [apply frames_create_coro | intros; apply frames_self_update].
  - intros _. apply frames_bind.
    + destruct (co_top co); [apply frames_emit; exact I | apply frames_ret].
    + intros _. apply frames_set_co_state.
Qed.

Lemma frames_resume c : frames (resume c).
Proof.
  assert (Hb : frames (resume_body c)).
  { unfold resume_body. apply frames_bind; [apply frames_get_coro|]. intros co.
    destruct (co_state co); try apply frames_ret.
    - apply frames_bind; [apply frames_send|]. intros [|]; [apply frames_ret|].
      apply frames_bind; [apply frames_rest | intros; apply frames_ret].
    - apply frames_bind; [apply frames_rest | intros; apply frames_ret]. }
  intros w. unfold resume. specialize (Hb w).
  destruct (resume_body c w) as [[a|ex] w1]; simpl in *; [exact Hb|].
  destruct Hb as (H1 & H2 & H3). repeat split; simpl; auto.
Qed.

Lemma frames_handle_command e command args : frames (_async_handle_command e command args).
Proof.
  unfold _async_handle_command.
  apply frames_bind; [apply frames_cancel_queued|]. intros _.
  apply frames_bind.
  - repeat case_match; try apply frames_ret; try apply frames_raise;
      (apply frames_bind; [apply frames_set_state | intros; apply frames_ret]).
  - intros [cmd|]; [|apply frames_raise].
    apply frames_bind; [apply frames_self_get|]. intros d.
    apply frames_bind; [apply frames_create_coro|]. intros c. apply frames_resume.
Qed.

Lemma frames__handle_event e event : frames (_handle_event e event).
Proof.
  unfold _handle_event. apply frames_bind; [apply frames_self_get|]. intros d.
  destruct (cls d); try apply frames_raise.
  - apply frames_bind; [apply frames_cancel_queued|]. intros _.
    repeat case_match; try apply frames_ret; try apply frames_raise; apply frames_set_state.
  - case_match; [apply frames_set_state | apply frames_raise].
Qed.

Lemma frames_handle_event e event : frames (handle_event e event).
Proof.
  unfold handle_event.
  apply frames_bind; [apply frames_emit; exact I|]. intros _.
  apply frames_bind; [apply frames__handle_event|]. intros _.
  apply frames_bind; [apply frames_emit; exact I|]. intros _.
  apply frames_bind; [apply frames_self_get|]. intros d.
  repeat case_match; try apply frames_ret; try apply frames_raise; apply frames_emit; exact I.
Qed.

Lemma frames_event_callback event : frames (event_callback event).
Proof.
  intros w. unfold event_callback.
  destruct (entity_lookup w !! identify_event_type event); [|apply binding_frame_refl].
  revert w. apply frames_bind.
  - unfold defaultdict_getitem. case_match; [apply frames_ret|]. frame_prim.
  - intros [|h hs].
    + intros w. case_match; [apply frames_emit; exact I | apply binding_frame_refl].
    + apply frames_for_each. intros; apply frames_handle_event.
Qed.

Lemma reconnect_unbinds w : _protocol (snd (reconnect w)) = Some None.
Proof. unfold reconnect, bind, set_rflink_protocol, emit. simpl. destruct (stopping w); reflexivity. Qed.

Lemma exec_op_stays_unbound config op w :
  not_connected op -> _protocol w = Some None ->
  _protocol (exec_op config op w) = Some None /\
  transmissions (trace (exec_op config op w)) = transmissions (trace w).
Proof.
  intros Hop Hp.
  assert (Hu : unbound w) by (right; exact Hp).
  assert (Hf : forall w', binding_frame w w' ->
     _protocol w' = Some None /\ transmissions (trace w') = transmissions (trace w)).
  { intros w' (H1 & _ & H3). split; [congruence | auto]. }
  destruct op as [e command args|t|c|event| |[p|ex]|]; simpl in *; try contradiction.
  - apply Hf, frames_handle_command.
  - unfold run_task. repeat case_match; auto; apply Hf, frames_resume.
  - unfold deliver_ack. repeat case_match; auto; apply Hf, frames_resume.
  - apply Hf, frames_event_callback.
  - split; [apply reconnect_unbinds|].
    unfold reconnect, bind, set_rflink_protocol, emit. simpl.
    destruct (stopping w); simpl; [reflexivity|]. apply transmissions_snoc_other. exact I.
  - destruct (caught ex); simpl; [|auto].
    split; [exact Hp|]. apply transmissions_snoc_other. exact I.
  - auto.
Qed.

Lemma exec_ops_stay_unbound config ops w :
  Forall not_connected ops -> _protocol w = Some None ->
  _protocol (exec_ops config ops w) = Some None.
Proof.
  intros Hops. revert w. induction Hops as [|op ops Hop _ IH]; intros w Hp; simpl; [exact Hp|].
  apply IH. apply exec_op_stays_unbound; assumption.
Qed.

Lemma handle_command_unbound_raises e command args w :
  unbound w -> is_raise (fst (_async_handle_command e command args w)) = true.
Proof.
  intros Hu.
  destruct (entities w !! e) as [d|] eqn:He.
  2:{ assert (Hc : cancel_queued_send_commands e w = (Raise ReferenceError, w)).
      { unfold cancel_queued_send_commands, bind, self_get. rewrite He. reflexivity. }
      unfold _async_handle_command. unfold bind at 1. rewrite Hc. reflexivity. }
  assert (Hvalid : forall cmd s, command_payload command args cmd s ->
            is_raise (fst (_async_handle_command e command args w)) = true).
  { intros cmd s Hpay. rewrite (handle_command_run e d w command args cmd s He Hpay).
    fold (launch_world e d cmd s w).
    rewrite (resume_scheduled_unbound _ (top_coro e cmd d) (with_state (PyBool s) d)); auto.
    - apply launch_world_lookup.
    - apply (launch_world_entity e d cmd s w He).
    - unfold unbound, launch_world. simpl. rewrite cancel_world_protocol. exact Hu. }
  destruct (String.eqb command "turn_on") eqn:E1.
  { apply String.eqb_eq in E1; subst. eapply Hvalid; constructor. }
  destruct (String.eqb command "turn_off") eqn:E2.
  { apply String.eqb_eq in E2; subst. eapply Hvalid; constructor. }
  destruct (String.eqb command "dim") eqn:E3.
  { apply String.eqb_eq in E3; subst. destruct args as [|b rest].
    - unfold _async_handle_command. unfold bind at 1.
      rewrite (cancel_queued_send_commands_run e d w He). reflexivity.
    - destruct (dim_level b) as [level|] eqn:Hl.
      + eapply Hvalid. constructor. exact Hl.
      + unfold _async_handle_command. unfold bind at 1.
        rewrite (cancel_queued_send_commands_run e d w He). simpl. rewrite Hl. reflexivity. }
  unfold _async_handle_command. unfold bind at 1.
  rewrite (cancel_queued_send_commands_run e d w He).
  unfold bind. rewrite E1, E2, E3. reflexivity.
Qed.

(** C6. After the disconnect callback the binding is [None]; whatever
    happens next, short of a successful [connect], every send raises to its
    caller and transmits nothing.  Once [connect] has succeeded, the same
    entity, found in the same registry, sends through the new protocol. *)
Theorem sends_fail_until_reconnected
    (config : Config) (w : World) (ops : list Op) (e : nat) (command : string) (args : list Z) :
  Forall not_connected ops ->
  let w1 := exec_ops config ops (snd (reconnect w)) in
  let r := _async_handle_command e command args w1 in
  (is_raise (fst r) = true /\ transmissions (trace (snd r)) = transmissions (trace w1)) /\
  forall (p : nat) (d : Entity) (cmd : string) (s : bool),
    entities w1 !! e = Some d ->
    command_payload command args cmd s ->
    let w2 := snd (connect config (Ok p) w1) in
    let r2 := _async_handle_command e command args w2 in
    entity_lookup w2 = entity_lookup w1 /\ entities w2 = entities w1 /\
    is_raise (fst r2) = false /\
    transmissions (trace (snd r2)) = transmissions (trace w2) ++ [(_device_id d, cmd)] /\
    In (Transmit e (length (tasks w2)) p (CONF_WAIT_FOR_ACK config) (_device_id d) cmd)
       (trace (snd r2)).
Proof.
  intros Hops. cbv zeta.
  pose proof (exec_ops_stay_unbound config ops _ Hops (reconnect_unbinds w)) as Hp.
  set (w1 := exec_ops config ops (snd (reconnect w))) in *.
  split.
  - split; [apply handle_command_unbound_raises; right; exact Hp|].
    apply frames_handle_command. right; exact Hp.
  - intros p d cmd s He Hpay.
    set (w2 := snd (connect config (Ok p) w1)).
    assert (He2 : entities w2 !! e = Some d) by exact He.
    split; [reflexivity|]. split; [reflexivity|].
    rewrite (handle_command_run e d w2 command args cmd s He2 Hpay).
    fold (launch_world e d cmd s w2).
    pose proof (launch_world_lookup e d cmd s w2) as Hl.
    pose proof (launch_world_entity e d cmd s w2 He2) as Hent.
    destruct (CONF_WAIT_FOR_ACK config) eqn:Hack.
    + rewrite (resume_scheduled_ack _ (top_coro e cmd d) (with_state (PyBool s) d) p); auto.
      * simpl. split; [reflexivity|]. rewrite ?Hack. split.
        -- rewrite !transmissions_app, cancel_world_transmissions. simpl.
           rewrite transmissions_app. simpl. rewrite !app_nil_r. reflexivity.
        -- apply in_or_app. right. left. reflexivity.
      * unfold launch_world. simpl. rewrite cancel_world_wait_ack. simpl. rewrite ?Hack. reflexivity.
      * unfold launch_world. simpl. rewrite cancel_world_protocol. reflexivity.
    + rewrite (resume_scheduled_noack _ (top_coro e cmd d) (with_state (PyBool s) d) p); auto.
      * simpl. split; [reflexivity|]. rewrite ?Hack. unfold rest_world. simpl.
        destruct (1 <? _signal_repetitions d)%Z; simpl.
        -- split.
           ++ rewrite !transmissions_app, cancel_world_transmissions. simpl.
              rewrite transmissions_app. simpl. rewrite !app_nil_r. reflexivity.
           ++ apply in_or_app. left. apply in_or_app. right. left. reflexivity.
        -- split.
           ++ rewrite !transmissions_app, cancel_world_transmissions. simpl.
              rewrite transmissions_app. simpl. rewrite !app_nil_r. reflexivity.
           ++ apply in_or_app. left. apply in_or_app. right. left. reflexivity.
      * unfold launch_world. simpl. rewrite cancel_world_wait_ack. simpl. rewrite ?Hack. reflexivity.
      * unfold launch_world. simpl. rewrite cancel_world_protocol. reflexivity.
Qed.

(** * Routing *)

Lemma deliveries_app a b : deliveries (a ++ b) = deliveries a ++ deliveries b.
Proof. apply omap_app. Qed.

Lemma hook_calls_app a b : hook_calls (a ++ b) = hook_calls a ++ hook_calls b.
Proof. apply omap_app. Qed.

Lemma quiet_frame_refl w : quiet_frame w w.
Proof. split; [exists []; rewrite app_nil_r; auto | auto]. Qed.

Lemma quiet_frame_trans a b c : quiet_frame a b -> quiet_frame b c -> quiet_frame a c.
Proof.
  intros [(m1 & Ht1 & Hd1 & Hh1) Hc1] [(m2 & Ht2 & Hd2 & Hh2) Hc2]. split.
  - exists (m1 ++ m2). rewrite Ht2, Ht1, app_assoc, deliveries_app, hook_calls_app, Hd1, Hd2, Hh1, Hh2. auto.
  - intros h. rewrite Hc2. apply Hc1.
Qed.

Lemma quiet_ret {A} (a : A) : quiet (ret a).
Proof. intros w. apply quiet_frame_refl. Qed.

Lemma quiet_raise {A} ex : quiet (@raise A ex).
Proof. intros w. apply quiet_frame_refl. Qed.

Lemma quiet_bind {A B} (m : M A) (k : A -> M B) :
  quiet m -> (forall a, quiet (k a)) -> quiet (bind m k).
Proof.
  intros Hm Hk w. unfold bind. specialize (Hm w).
  destruct (m w) as [[a|ex] w1]; simpl in *; [|exact Hm].
  eapply quiet_frame_trans; [exact Hm | apply Hk].
Qed.

Lemma quiet_emit eff : is_quiet_effect eff -> quiet (emit eff).
Proof.
  intros H w. split; [|auto]. exists [eff]. simpl. destruct eff; try contradiction; auto.
Qed.

Lemma quiet_tasks_only {A} (m : M A) :
  (forall w, exists ts, snd (m w) = with_tasks ts w) -> quiet m.
Proof.
  intros H w. destruct (H w) as [ts ->].
  split; [exists []; simpl; rewrite app_nil_r; auto | auto].
Qed.

Lemma quiet_self_get e : quiet (self_get e).
Proof. intros w. unfold self_get. case_match; apply quiet_frame_refl. Qed.

Lemma quiet_self_update e f : (forall d, cls (f d) = cls d) -> quiet (self_update e f).
Proof.
  intros Hf w. split; [exists []; simpl; rewrite app_nil_r; auto|].
  intros h. simpl. destruct (decide (h = e)) as [->|Hne].
  - rewrite list_lookup_alter_eq. destruct (entities w !! e); simpl; [rewrite Hf|]; reflexivity.
  - rewrite list_lookup_alter_ne; auto.
Qed.

Lemma quiet_set_state e s : quiet (set_state e s).
Proof.
  apply quiet_bind; [apply quiet_self_update; reflexivity | intros; apply quiet_emit; exact I].
Qed.

Lemma quiet_cancel_queued e : quiet (cancel_queued_send_commands e).
Proof.
  apply quiet_bind; [apply quiet_self_get|]. intros d.
  destruct (_repetition_task d); [|apply quiet_ret].
  apply quiet_bind; [apply quiet_emit; exact I|]. intros _.
  apply quiet_tasks_only. intros w; eexists; reflexivity.
Qed.

Lemma quiet__handle_event e event : quiet (_handle_event e event).
Proof.
  unfold _handle_event. apply quiet_bind; [apply quiet_self_get|]. intros d.
  destruct (cls d); try apply quiet_raise.
  - apply quiet_bind; [apply quiet_cancel_queued|]. intros _.
    repeat case_match; try apply quiet_ret; try apply quiet_raise; apply quiet_set_state.
  - case_match; [apply quiet_set_state | apply quiet_raise].
Qed.

Lemma quiet_handle_event_body e event : quiet (handle_event_body e event).
Proof.
  unfold handle_event_body.
  apply quiet_bind; [apply quiet__handle_event|]. intros _.
  apply quiet_bind; [apply quiet_emit; exact I|]. intros _.
  apply quiet_bind; [apply quiet_self_get|]. intros d.
  repeat case_match; try apply quiet_ret; try apply quiet_raise; apply quiet_emit; exact I.
Qed.

Lemma identify_command event :
  String.eqb (identify_event_type event) EVENT_KEY_COMMAND = true ->
  is_Some (event !! EVENT_KEY_COMMAND).
Proof.
  unfold identify_event_type. destruct (event !! EVENT_KEY_COMMAND); [eauto|].
  destruct (event !! EVENT_KEY_SENSOR); discriminate.
Qed.

Lemma _handle_event_accepts e d event w :
  entities w !! e = Some d -> accepts (cls d) event ->
  fst (_handle_event e event w) = Ok tt.
Proof.
  intros He Hacc. unfold _handle_event. unfold bind at 1. unfold self_get at 1. rewrite He.
  destruct (cls d) as [| | |h]; simpl in Hacc; try contradiction.
  - unfold bind at 1. rewrite (cancel_queued_send_commands_run e d w He).
    destruct Hacc as [c Hc]. rewrite Hc. repeat case_match; reflexivity.
  - specialize (Hacc (_state d)). destruct (h event (_state d)); [reflexivity | discriminate].
Qed.

Lemma _handle_event_rejects e d event w :
  entities w !! e = Some d -> rejects (cls d) event ->
  is_raise (fst (_handle_event e event w)) = true.
Proof.
  intros He Hrej. unfold _handle_event. unfold bind at 1. unfold self_get at 1. rewrite He.
  destruct (cls d) as [| | |h]; simpl in Hrej; try reflexivity.
  - unfold bind at 1. rewrite (cancel_queued_send_commands_run e d w He).
    rewrite Hrej. reflexivity.
  - specialize (Hrej (_state d)). destruct (h event (_state d)); [discriminate | reflexivity].
Qed.

Lemma handle_event_body_accepts e d event w :
  entities w !! e = Some d -> accepts (cls d) event ->
  fst (handle_event_body e event w) = Ok tt.
Proof.
  intros He Hacc. unfold handle_event_body. unfold bind at 1.
  pose proof (_handle_event_accepts e d event w He Hacc) as Hok.
  pose proof (quiet__handle_event e event w) as [_ Hcls].
  destruct (_handle_event e event w) as [r w1]. simpl in *. subst r.
  unfold bind at 1. unfold emit at 1. unfold bind, self_get. simpl.
  specialize (Hcls e). rewrite He in Hcls. destruct (entities w1 !! e) as [d1|]; [|discriminate].
  destruct (_should_fire_event d1 && (identify_event_type event =? EVENT_KEY_COMMAND)) eqn:Hf;
    [|reflexivity].
  apply andb_prop in Hf as [_ Hf]. apply identify_command in Hf as [c Hc]. rewrite Hc. reflexivity.
Qed.

Lemma handle_event_body_rejects e d event w :
  entities w !! e = Some d -> rejects (cls d) event ->
  is_raise (fst (handle_event_body e event w)) = true.
Proof.
  intros He Hrej. unfold handle_event_body. unfold bind at 1.
  pose proof (_handle_event_rejects e d event w He Hrej) as Hr.
  destruct (_handle_event e event w) as [[|ex] w1]; simpl in *; [discriminate | reflexivity].
Qed.

Lemma handle_event_unfold e event w :
  handle_event e event w =
  handle_event_body e event (with_trace (trace w ++ [HandleEvent e event]) w).
Proof. reflexivity. Qed.

(** One call of [handle_event]: the entry mark, then nothing the router
    counts. *)
Lemma handle_event_frame e event w :
  exists mid,
    trace (snd (handle_event e event w)) = trace w ++ HandleEvent e event :: mid /\
    deliveries mid = [] /\ hook_calls mid = [] /\
    forall h, cls <$> entities (snd (handle_event e event w)) !! h = cls <$> entities w !! h.
Proof.
  rewrite handle_event_unfold.
  destruct (quiet_handle_event_body e event (with_trace (trace w ++ [HandleEvent e event]) w))
    as [(mid & Ht & Hd & Hh) Hc].
  exists mid. simpl in *. rewrite Ht, <- app_assoc. auto.
Qed.

Lemma for_each_accepts hs event w :
  (forall h, In h hs -> exists d, entities w !! h = Some d /\ accepts (cls d) event) ->
  let r := for_each hs (fun entity => handle_event entity event) w in
  fst r = Ok tt /\
  exists added, trace (snd r) = trace w ++ added /\
    deliveries added = hs /\ hook_calls added = [].
Proof.
  revert w. induction hs as [|h hs IH]; intros w Hall; cbv zeta; simpl.
  - split; [reflexivity|]. exists []. rewrite app_nil_r. auto.
  - destruct (Hall h (or_introl eq_refl)) as (d & He & Hacc).
    unfold bind.
    destruct (handle_event_frame h event w) as (mid & Ht & Hd & Hh & Hc).
    pose proof (handle_event_body_accepts h d event
                  (with_trace (trace w ++ [HandleEvent h event]) w) He Hacc) as Hok.
    rewrite <- handle_event_unfold in Hok.
    destruct (handle_event h event w) as [r w1]. simpl in *. subst r.
    destruct (IH w1) as (Hr & added & Ht2 & Hd2 & Hh2).
    { intros h' Hin. destruct (Hall h' (or_intror Hin)) as (d' & He' & Hacc').
      specialize (Hc h'). rewrite He' in Hc. destruct (entities w1 !! h') as [d1|]; [|discriminate].
      exists d1. split; [reflexivity|]. simpl in Hc. injection Hc as Hc. rewrite Hc. exact Hacc'. }
    split; [exact Hr|].
    exists (HandleEvent h event :: mid ++ added).
    rewrite Ht2, Ht, <- app_assoc. simpl. split; [reflexivity|].
    rewrite deliveries_app, hook_calls_app, Hd, Hh, Hd2, Hh2. auto.
Qed.

Lemma for_each_rejects before h after d event w :
  (forall h', In h' before -> exists d', entities w !! h' = Some d' /\ accepts (cls d') event) ->
  entities w !! h = Some d -> rejects (cls d) event ->
  let r := for_each (before ++ h :: after) (fun entity => handle_event entity event) w in
  is_raise (fst r) = true /\
  exists added, trace (snd r) = trace w ++ added /\
    deliveries added = before ++ [h] /\ hook_calls added = [].
Proof.
  revert w d. induction before as [|b before IH]; intros w d Hall He Hrej; cbv zeta; simpl.
  - unfold bind.
    destruct (handle_event_frame h event w) as (mid & Ht & Hd & Hh & Hc).
    pose proof (handle_event_body_rejects h d event
                  (with_trace (trace w ++ [HandleEvent h event]) w) He Hrej) as Hr.
    rewrite <- handle_event_unfold in Hr.
    destruct (handle_event h event w) as [[|ex] w1]; simpl in *; [discriminate|].
    split; [reflexivity|]. exists (HandleEvent h event :: mid). rewrite Ht. simpl.
    rewrite Hd, Hh. auto.
  - destruct (Hall b (or_introl eq_refl)) as (db & Heb & Hacc).
    unfold bind.
    destruct (handle_event_frame b event w) as (mid & Ht & Hd & Hh & Hc).
    pose proof (handle_event_body_accepts b db event
                  (with_trace (trace w ++ [HandleEvent b event]) w) Heb Hacc) as Hok.
    rewrite <- handle_event_unfold in Hok.
    destruct (handle_event b event w) as [r w1]. simpl in *. subst r.
    assert (Hd1 : exists d1, entities w1 !! h = Some d1 /\ cls d1 = cls d).
    { specialize (Hc h). rewrite He in Hc. destruct (entities w1 !! h) as [d1|]; [|discriminate].
      exists d1. split; [reflexivity|]. simpl in Hc. congruence. }
    destruct Hd1 as (d1 & He1 & Hcls1).
    destruct (IH w1 d1) as (Hr & added & Ht2 & Hd2 & Hh2).
    { intros h' Hin. destruct (Hall h' (or_intror Hin)) as (d' & He' & Hacc').
      specialize (Hc h'). rewrite He' in Hc. destruct (entities w1 !! h') as [d2|]; [|discriminate].
      exists d2. split; [reflexivity|]. simpl in Hc. injection Hc as Hc. rewrite Hc. exact Hacc'. }
    { exact He1. }
    { rewrite Hcls1. exact Hrej. }
    split; [exact Hr|].
    exists (HandleEvent b event :: mid ++ added).
    rewrite Ht2, Ht, <- app_assoc. simpl. split; [reflexivity|].
    rewrite deliveries_app, hook_calls_app, Hd, Hh, Hd2, Hh2. auto.
Qed.

(** C1, as the code has it.  Routing an event whose type has a registry.
    When every handler registered under the event's id handles the event
    without raising,
    [handle_event] is entered once for each registered handler, in
    registration order, and no hook is called; when no handler is
    registered, no handler is entered and the hook installed for the event
    type is called once, with the event. *)
Theorem event_callback_routes
    (w : World) (event : Event) (by_id : gmap (option string) (list nat)) (hs : list nat) :
  entity_lookup w !! identify_event_type event = Some by_id ->
  hs = default [] (by_id !! (event !! EVENT_KEY_ID)) ->
  (forall h, In h hs -> exists d, entities w !! h = Some d /\ accepts (cls d) event) ->
  let r := event_callback event w in
  fst r = Ok tt /\
  exists added, trace (snd r) = trace w ++ added /\
    (hs <> [] -> deliveries added = hs /\ hook_calls added = []) /\
    (hs = [] -> deliveries added = [] /\
       (forall hook, device_register w !! identify_event_type event = Some hook ->
          added = [RunJob hook event]) /\
       (device_register w !! identify_event_type event = None -> added = [])).
Proof.
  intros Hlk Hhs Hall. cbv zeta. unfold event_callback. rewrite Hlk.
  unfold bind, defaultdict_getitem.
  destruct (by_id !! (event !! EVENT_KEY_ID)) as [l|] eqn:Hl; simpl in Hhs; subst hs.
  - unfold ret. destruct l as [|h hs].
    + split; [destruct (device_register w !! _); reflexivity|].
      destruct (device_register w !! identify_event_type event) as [hook|] eqn:Hk; simpl.
      * exists [RunJob hook event]. split; [reflexivity|]. split; [congruence|].
        intros _. split; [reflexivity|]. split; [congruence | discriminate].
      * exists []. rewrite app_nil_r. split; [reflexivity|]. split; [congruence|].
        intros _. split; [reflexivity|]. split; [discriminate | reflexivity].
    + destruct (for_each_accepts (h :: hs) event w Hall) as (Hr & added & Ht & Hd & Hh).
      split; [exact Hr|]. exists added. split; [exact Ht|]. split; [auto | discriminate].
  - simpl. split; [destruct (device_register w !! _); reflexivity|].
    destruct (device_register w !! identify_event_type event) as [hook|] eqn:Hk; simpl.
    * exists [RunJob hook event]. split; [reflexivity|]. split; [congruence|].
      intros _. split; [reflexivity|]. split; [congruence | discriminate].
    * exists []. rewrite app_nil_r. split; [reflexivity|]. split; [congruence|].
      intros _. split; [reflexivity|]. split; [discriminate | reflexivity].
Qed.

(** C5, as the code has it.  The dispatch loop has no exception handler:
    when a handler raises, the exception leaves [event_callback]; the
    handlers registered before it and the failing one have been entered,
    the ones registered after it have not. *)
Theorem handler_failure_stops_dispatch
    (w : World) (event : Event) (by_id : gmap (option string) (list nat))
    (before : list nat) (h : nat) (after : list nat) (d : Entity) :
  entity_lookup w !! identify_event_type event = Some by_id ->
  by_id !! (event !! EVENT_KEY_ID) = Some (before ++ h :: after) ->
  (forall h', In h' before -> exists d', entities w !! h' = Some d' /\ accepts (cls d') event) ->
  entities w !! h = Some d -> rejects (cls d) event ->
  let r := event_callback event w in
  is_raise (fst r) = true /\
  exists added, trace (snd r) = trace w ++ added /\
    deliveries added = before ++ [h] /\ hook_calls added = [].
Proof.
  intros Hlk Hl Hall He Hrej. cbv zeta. unfold event_callback. rewrite Hlk.
  unfold bind, defaultdict_getitem. rewrite Hl. unfold ret.
  destruct (before ++ h :: after) as [|x l] eqn:Hx; [destruct before; discriminate|].
  rewrite <- Hx. apply (for_each_rejects before h after d event w Hall He Hrej).
Qed.

(** * The event loop *)

Lemma resume_cases c w :
  snd (resume c w) =
  match tasks w !! c with
  | None => fail_world c ReferenceError w
  | Some co =>
      match co_state co with
      | Scheduled => send_outcome c co w
      | AwaitingAck => rest_world c co w
      | _ => w
      end
  end.
Proof.
  unfold resume, resume_body, bind, get_coro.
  destruct (tasks w !! c) as [co|]; [|reflexivity].
  destruct (co_state co); try reflexivity.
  - unfold send_outcome, _async_send_command_send, bind, self_get, getattr_wait_ack,
      getattr_protocol_send.
    destruct (entities w !! co_self co) as [d|]; [|reflexivity].
    destruct (_wait_ack w) as [[|]|]; try reflexivity;
      destruct (_protocol w) as [[p|]|]; try reflexivity.
    simpl. rewrite rest_run. reflexivity.
  - rewrite rest_run. reflexivity.
Qed.

Section Framed.
Variable P : World -> World -> Prop.
Hypothesis P_refl : forall w, P w w.
Hypothesis P_trans : forall a b c, P a b -> P b c -> P a c.

Lemma framed_ret {A} (a : A) : framed P (ret a).
Proof. intros w. apply P_refl. Qed.

Lemma framed_raise {A} ex : framed P (@raise A ex).
Proof. intros w. apply P_refl. Qed.

Lemma framed_bind {A B} (m : M A) (k : A -> M B) :
  framed P m -> (forall a, framed P (k a)) -> framed P (bind m k).
Proof.
  intros Hm Hk w. unfold bind. specialize (Hm w).
  destruct (m w) as [[a|ex] w1]; simpl in *; [|exact Hm].
  eapply P_trans; [exact Hm | apply Hk].
Qed.

Lemma framed_for_each {A} (l : list A) (body : A -> M unit) :
  (forall x, framed P (body x)) -> framed P (for_each l body).
Proof.
  intros Hb. induction l as [|x l IH]; simpl.
  - apply framed_ret.
  - apply framed_bind; auto.
Qed.

Lemma framed_self_get e : framed P (self_get e).
Proof. intros w. unfold self_get. case_match; apply P_refl. Qed.

Lemma framed_get_coro c : framed P (get_coro c).
Proof. intros w. unfold get_coro. case_match; apply P_refl. Qed.

(** The methods are framed as soon as their assignments and calls are. *)
Hypothesis P_emit : forall eff, match eff with Transmit _ _ _ _ _ _ => False | _ => True end -> framed P (emit eff).
Hypothesis P_self_update : forall e s, framed P (self_update e (with_state s)).
Hypothesis P_task_cancel_alter : forall t w, P w (with_tasks (alter cancel_coro t (tasks w)) w).
Hypothesis P_create_coro : forall co, framed P (create_coro co).
Hypothesis P_resume : forall c, framed P (resume c).
Hypothesis P_lookup : forall x w, P w (with_entity_lookup x w).
Hypothesis P_binding : forall p a, framed P (set_rflink_protocol p a).
Hypothesis P_stopping : forall b w, P w (with_stopping b w).

Lemma framed_set_state e s : framed P (set_state e s).
Proof. apply framed_bind; [apply P_self_update | intros; apply P_emit; exact I]. Qed.

Lemma framed_cancel_queued e : framed P (cancel_queued_send_commands e).
Proof.
  apply framed_bind; [apply framed_self_get|]. intros d.
  destruct (_repetition_task d); [|apply framed_ret].
  apply framed_bind; [apply P_emit; exact I|]. intros _ w. apply P_task_cancel_alter.
Qed.

Lemma framed_handle_command e command args : framed P (_async_handle_command e command args).
Proof.
  unfold _async_handle_command.
  apply framed_bind; [apply framed_cancel_queued|]. intros _.
  apply framed_bind.
  - repeat case_match; try apply framed_ret; try apply framed_raise;
      (apply framed_bind; [apply framed_set_state | intros; apply framed_ret]).
  - intros [cmd|]; [|apply framed_raise].
    apply framed_bind; [apply framed_self_get|]. intros d.
    apply framed_bind; [apply P_create_coro|]. intros c. apply P_resume.
Qed.

Lemma framed__handle_event e event : framed P (_handle_event e event).
Proof.
  unfold _handle_event. apply framed_bind; [apply framed_self_get|]. intros d.
  destruct (cls d); try apply framed_raise.
  - apply framed_bind; [apply framed_cancel_queued|]. intros _.
    repeat case_match; try apply framed_ret; try apply framed_raise; apply framed_set_state.
  - case_match; [apply framed_set_state | apply framed_raise].
Qed.

Lemma framed_handle_event_body e event : framed P (handle_event_body e event).
Proof.
  unfold handle_event_body.
  apply framed_bind; [apply framed__handle_event|]. intros _.
  apply framed_bind; [apply P_emit; exact I|]. intros _.
  apply framed_bind; [apply framed_self_get|]. intros d.
  repeat case_match; try apply framed_ret; try apply framed_raise; apply P_emit; exact I.
Qed.

Lemma framed_handle_event e event : framed P (handle_event e event).
Proof.
  unfold handle_event.
  apply framed_bind; [apply P_emit; exact I|]. intros _. apply framed_handle_event_body.
Qed.

Lemma framed_event_callback event : framed P (event_callback event).
Proof.
  intros w. unfold event_callback.
  destruct (entity_lookup w !! identify_event_type event); [|apply P_refl].
  revert w. apply framed_bind.
  - unfold defaultdict_getitem. case_match; [apply framed_ret|]. intros w. apply P_lookup.
  - intros [|h hs].
    + intros w. case_match; [apply P_emit; exact I | apply P_refl].
    + apply framed_for_each. intros; apply framed_handle_event.
Qed.

Lemma framed_reconnect : framed P reconnect.
Proof.
  unfold reconnect. apply framed_bind; [apply P_binding|]. intros _ w'.
  case_match; [apply P_refl | apply P_emit; exact I].
Qed.

Lemma framed_connect config connection : framed P (connect config connection).
Proof.
  destruct connection as [p|ex]; simpl.
  - apply framed_bind; [apply P_binding|]. intros _. apply P_emit; exact I.
  - destruct (caught ex); [apply P_emit; exact I | apply framed_raise].
Qed.

Lemma framed_exec_op config op w : P w (exec_op config op w).
Proof.
  destruct op as [e command args|t|c|event| |connection|]; unfold exec_op.
  - apply framed_handle_command.
  - unfold run_task. repeat case_match; try apply P_refl; apply P_resume.
  - unfold deliver_ack. repeat case_match; try apply P_refl; apply P_resume.
  - apply framed_event_callback.
  - apply framed_reconnect.
  - apply framed_connect.
  - apply P_stopping.
Qed.

Lemma framed_exec_ops config ops w : P w (exec_ops config ops w).
Proof.
  revert w. induction ops as [|op ops IH]; intros w; simpl; [apply P_refl|].
  eapply P_trans; [apply framed_exec_op | apply IH].
Qed.
End Framed.

Lemma rest_world_tasks c co w :
  tasks (rest_world c co w) =
  alter (with_co_state Finished) c
    (if (1 <? co_repetitions co)%Z then tasks w ++ [child_of co] else tasks w).
Proof. unfold rest_world. destruct (1 <? co_repetitions co)%Z, (co_top co); reflexivity. Qed.

Lemma rest_world_trace c co w :
  trace (rest_world c co w) =
  trace w ++ (if co_top co then [UpdateHaState (co_self co)] else []).
Proof.
  unfold rest_world. destruct (1 <? co_repetitions co)%Z, (co_top co); simpl;
    rewrite ?app_nil_r; reflexivity.
Qed.

Lemma rest_world_entities c co w :
  entities (rest_world c co w) =
  if (1 <? co_repetitions co)%Z
  then alter (with_repetition_task (Some (length (tasks w)))) (co_self co) (entities w)
  else entities w.
Proof. unfold rest_world. destruct (1 <? co_repetitions co)%Z, (co_top co); reflexivity. Qed.

Lemma rest_world_binding c co w :
  _protocol (rest_world c co w) = _protocol w /\ _wait_ack (rest_world c co w) = _wait_ack w.
Proof. unfold rest_world. destruct (1 <? co_repetitions co)%Z, (co_top co); split; reflexivity. Qed.

Lemma rest_world_lookup_other c co w t cot :
  tasks w !! t = Some cot -> t <> c ->
  tasks (rest_world c co w) !! t = Some cot.
Proof.
  intros Ht Hne. rewrite rest_world_tasks, list_lookup_alter_ne by auto.
  destruct (1 <? co_repetitions co)%Z; [|exact Ht].
  rewrite lookup_app_l; [exact Ht | eapply lookup_lt_Some, Ht].
Qed.

Section Silent.
Variable t : nat.
Variable co : Coro.
Hypothesis co_done : is_live co = false.

Local Abbreviation P := (silent_frame t co).

Lemma silent_refl w : P w w.
Proof. intros Ht. split; [exact Ht|]. exists []. rewrite app_nil_r. split; [reflexivity | intros; intros []]. Qed.

Lemma silent_trans a b c : P a b -> P b c -> P a c.
Proof.
  intros Hab Hbc Ht. destruct (Hab Ht) as (Hb & m1 & Ht1 & Hn1).
  destruct (Hbc Hb) as (Hc & m2 & Ht2 & Hn2). split; [exact Hc|].
  exists (m1 ++ m2). rewrite Ht2, Ht1, app_assoc. split; [reflexivity|].
  intros e p a0 dev x Hin. apply in_app_or in Hin as [Hin|Hin]; [eapply Hn1 | eapply Hn2]; eauto.
Qed.

(** A step that leaves [t]'s record alone and logs [added]. *)
Lemma silent_step w w' added :
  (tasks w !! t = Some co -> tasks w' !! t = Some co) ->
  trace w' = trace w ++ added ->
  (forall e p a dev x, ~ In (Transmit e t p a dev x) added) ->
  P w w'.
Proof. intros H1 H2 H3 Ht. split; [auto|]. exists added. auto. Qed.

Lemma silent_emit eff :
  match eff with Transmit _ _ _ _ _ _ => False | _ => True end -> framed P (emit eff).
Proof.
  intros H w. apply (silent_step _ _ [eff]); [auto | reflexivity|].
  intros e p a dev x [Heq|[]]. subst eff. exact H.
Qed.

Lemma silent_same_tasks_trace w w' :
  tasks w' = tasks w -> trace w' = trace w -> P w w'.
Proof.
  intros H1 H2. apply (silent_step _ _ []); [rewrite H1; auto | rewrite H2, app_nil_r; reflexivity|].
  intros; intros [].
Qed.

Lemma silent_alter_other f c w :
  (c = t -> f co = co) -> P w (with_tasks (alter f c (tasks w)) w).
Proof.
  intros Hf. apply (silent_step _ _ []); [|simpl; rewrite app_nil_r; reflexivity | intros; intros []].
  intros Ht. simpl. destruct (decide (c = t)) as [->|Hne].
  - rewrite list_lookup_alter_eq, Ht. simpl. rewrite Hf; reflexivity.
  - rewrite list_lookup_alter_ne; auto.
Qed.

Lemma silent_create_coro co' : framed P (create_coro co').
Proof.
  intros w. apply (silent_step _ _ []); [|simpl; rewrite app_nil_r; reflexivity | intros; intros []].
  intros Ht. simpl. rewrite lookup_app_l; [exact Ht | eapply lookup_lt_Some, Ht].
Qed.

Lemma silent_fail c ex w : (tasks w !! c = Some co -> False) -> P w (fail_world c ex w).
Proof.
  intros Hc. unfold fail_world. intros Ht. apply silent_alter_other; [|exact Ht].
  intros ->. contradiction.
Qed.

Lemma silent_rest c co' w : c <> t -> P w (rest_world c co' w).
Proof.
  intros Hne.
  apply (silent_step _ _ (if co_top co' then [UpdateHaState (co_self co')] else [])).
  - intros Ht. apply rest_world_lookup_other; auto.
  - apply rest_world_trace.
  - intros e p a dev x Hin. destruct (co_top co'); [destruct Hin as [Heq|[]]; discriminate | destruct Hin].
Qed.

Lemma silent_transmit c co' p a dev w :
  c <> t -> P w (transmit_world c co' p a dev w).
Proof.
  intros Hne.
  apply (silent_step _ _ [Transmit (co_self co') c p a dev (co_cmd co')]);
    [auto | reflexivity|].
  intros e p' a' dev' x [Heq|[]]. injection Heq as _ Heq _. congruence.
Qed.

Lemma silent_resume c : framed P (resume c).
Proof.
  intros w Ht. revert Ht. rewrite resume_cases. intros Ht.
  destruct (tasks w !! c) as [co'|] eqn:Hc.
  2:{ revert Ht. apply silent_fail. congruence. }
  assert (Hlive : is_live co' = true -> c <> t).
  { intros Hl ->. rewrite Ht in Hc. injection Hc as <-. congruence. }
  destruct (co_state co') eqn:Hs; try (revert Ht; apply silent_refl).
  - assert (Hne : c <> t) by (apply Hlive; unfold is_live; rewrite Hs; reflexivity).
    assert (Hnot : tasks w !! c = Some co -> False).
    { intros Hc'. rewrite Hc in Hc'. injection Hc' as ->.
      unfold is_live in co_done. rewrite Hs in co_done. discriminate. }
    revert Ht. unfold send_outcome.
    destruct (entities w !! co_self co') as [d|]; [|apply silent_fail; exact Hnot].
    destruct (_wait_ack w) as [[|]|]; destruct (_protocol w) as [[p|]|];
      try (apply silent_fail; exact Hnot).
    + apply (silent_trans w (transmit_world c co' p true (_device_id d) w)).
      * apply silent_transmit, Hne.
      * apply (silent_alter_other _ c (transmit_world c co' p true (_device_id d) w)).
        intros Heq. destruct (Hne Heq).
    + apply (silent_trans w (transmit_world c co' p false (_device_id d) w)).
      * apply silent_transmit, Hne.
      * apply silent_rest, Hne.
  - assert (Hne : c <> t) by (apply Hlive; unfold is_live; rewrite Hs; reflexivity).
    revert Ht. apply silent_rest; assumption.
Qed.

Lemma silent_exec_ops config ops w : P w (exec_ops config ops w).
Proof.
  apply framed_exec_ops.
  - apply silent_refl.
  - apply silent_trans.
  - apply silent_emit.
  - intros e s w'. apply silent_same_tasks_trace; reflexivity.
  - intros t' w'. apply silent_alter_other. intros _.
    unfold cancel_coro. rewrite co_done. reflexivity.
  - apply silent_create_coro.
  - apply silent_resume.
  - intros x w'. apply silent_same_tasks_trace; reflexivity.
  - intros p a w'. apply silent_same_tasks_trace; unfold set_rflink_protocol; simpl;
      destruct a; reflexivity.
  - intros b w'. apply silent_same_tasks_trace; reflexivity.
Qed.
End Silent.

(** * Remote events preempt queued repetitions *)

Lemma cancel_coro_done co : is_live (cancel_coro co) = false.
Proof.
  unfold cancel_coro. destruct (is_live co) eqn:Hl; [reflexivity | exact Hl].
Qed.

Lemma cancel_world_task d w t co :
  _repetition_task d = Some t -> tasks w !! t = Some co ->
  tasks (cancel_world d w) !! t = Some (cancel_coro co).
Proof.
  intros Hd Ht. unfold cancel_world. rewrite Hd. simpl.
  rewrite list_lookup_alter_eq, Ht. reflexivity.
Qed.

Lemma remote_world_entity command e d w :
  entities w !! e = Some d ->
  exists d', entities (remote_world command e w) !! e = Some d' /\
    _should_fire_event d' = _should_fire_event d /\ entity_id d' = entity_id d /\
    _state d' = (if String.eqb command "on" then PyBool true
                 else if String.eqb command "off" then PyBool false
                 else _state d).
Proof.
  intros He. unfold remote_world.
  destruct (String.eqb command "on"); [|destruct (String.eqb command "off")];
    unfold state_world; simpl; rewrite ?list_lookup_alter_eq, He; simpl; eauto.
Qed.

Lemma remote_world_tasks command e w : tasks (remote_world command e w) = tasks w.
Proof.
  unfold remote_world.
  destruct (String.eqb command "on"); [|destruct (String.eqb command "off")]; reflexivity.
Qed.

Lemma remote_world_trace command e w :
  exists sets, trace (remote_world command e w) = trace w ++ sets /\
    forall eff, In eff sets ->
      eff = SetState e (PyBool true) /\ command = "on" \/
      eff = SetState e (PyBool false) /\ command = "off".
Proof.
  unfold remote_world.
  destruct (String.eqb command "on") eqn:E1; [|destruct (String.eqb command "off") eqn:E2].
  - apply String.eqb_eq in E1. exists [SetState e (PyBool true)]. split; [reflexivity|].
    intros eff [<-|[]]. auto.
  - apply String.eqb_eq in E2. exists [SetState e (PyBool false)]. split; [reflexivity|].
    intros eff [<-|[]]. auto.
  - exists []. rewrite app_nil_r. split; [reflexivity | intros eff []].
Qed.

Lemma handle_event_switchable_run e d event command w :
  entities w !! e = Some d ->
  cls d = SwitchableRflinkDevice ->
  event !! EVENT_KEY_COMMAND = Some command ->
  handle_event e event w = (Ok tt, handled_world command e d event w).
Proof.
  intros He Hcls Hcmd. rewrite handle_event_unfold. unfold handled_world.
  set (w0 := with_trace (trace w ++ [HandleEvent e event]) w).
  assert (He0 : entities w0 !! e = Some d) by exact He.
  assert (Hh : _handle_event e event w0 = (Ok tt, remote_world command e (cancel_world d w0))).
  { unfold _handle_event. unfold bind at 1. unfold self_get at 1. rewrite He0, Hcls.
    unfold bind at 1. rewrite (cancel_queued_send_commands_run e d w0 He0).
    change (event !! "command") with (event !! EVENT_KEY_COMMAND). rewrite Hcmd.
    unfold remote_world.
    destruct (String.eqb command "on"); [|destruct (String.eqb command "off")]; reflexivity. }
  assert (Hid : String.eqb (identify_event_type event) EVENT_KEY_COMMAND = true).
  { unfold identify_event_type. rewrite Hcmd. reflexivity. }
  destruct (remote_world_entity command e d (cancel_world d w0)) as (d' & He' & Hf & Hid' & _).
  { rewrite cancel_world_entities. exact He0. }
  unfold handle_event_body. unfold bind at 1. rewrite Hh.
  unfold bind at 1. unfold emit at 1. unfold bind at 1. unfold self_get at 1. simpl.
  rewrite He', Hf, Hid, Hcmd, Hid'. destruct (_should_fire_event d); reflexivity.
Qed.

(** X19.  A switchable entity handling a remote command first cancels the
    repetition task it has on record and only then assigns the new state:
    the cancellation precedes every [SetState] in the trace, the task is no
    longer pending afterwards, the state is the one the event carries, and
    whatever happens later the task transmits nothing more. *)
Theorem remote_event_cancels_pending_repeats
    (config : Config) (w : World) (e : nat) (d : Entity) (t : nat) (co : Coro)
    (event : Event) (command : string) :
  entities w !! e = Some d ->
  cls d = SwitchableRflinkDevice ->
  _repetition_task d = Some t ->
  tasks w !! t = Some co ->
  event !! "command" = Some command ->
  let r := handle_event e event w in
  let w1 := snd r in
  fst r = Ok tt /\
  (exists rest, trace w1 = trace w ++ HandleEvent e event :: TaskCancel t :: rest /\
     (forall s, In (SetState e s) rest ->
        s = PyBool true /\ command = "on" \/ s = PyBool false /\ command = "off")) /\
  (exists co', tasks w1 !! t = Some co' /\ is_live co' = false) /\
  _state <$> entities w1 !! e =
    Some (if String.eqb command "on" then PyBool true
          else if String.eqb command "off" then PyBool false
          else _state d) /\
  forall ops,
    exists added, trace (exec_ops config ops w1) = trace w1 ++ added /\
      forall e' p a dev x, ~ In (Transmit e' t p a dev x) added.
Proof.
  intros He Hcls Hrep Ht Hcmd. cbv zeta.
  rewrite (handle_event_switchable_run e d event command w He Hcls Hcmd). simpl.
  set (w0 := with_trace (trace w ++ [HandleEvent e event]) w).
  assert (He0 : entities (cancel_world d w0) !! e = Some d)
    by (rewrite cancel_world_entities; exact He).
  destruct (remote_world_entity command e d _ He0) as (d' & He' & _ & _ & Hst).
  destruct (remote_world_trace command e (cancel_world d w0)) as (sets & Htr & Hsets).
  assert (Htasks : tasks (handled_world command e d event w) = tasks (cancel_world d w0)).
  { unfold handled_world. fold w0. destruct (_should_fire_event d); simpl;
      apply remote_world_tasks. }
  assert (Ht1 : tasks (handled_world command e d event w) !! t = Some (cancel_coro co)).
  { rewrite Htasks. apply cancel_world_task; assumption. }
  split; [reflexivity|]. split; [|split; [|split]].
  - exists (sets ++ UpdateHaState e ::
            (if _should_fire_event d then [BusFire (entity_id d) command] else [])).
    split.
    + unfold handled_world. fold w0.
      destruct (_should_fire_event d); simpl; rewrite Htr, cancel_world_trace, Hrep;
        unfold w0; simpl; rewrite <- !app_assoc; reflexivity.
    + intros s Hin. apply in_app_or in Hin as [Hin|Hin].
      * destruct (Hsets _ Hin) as [[Heq Hc]|[Heq Hc]]; injection Heq as ->; auto.
      * destruct Hin as [Hin|Hin]; [discriminate|].
        destruct (_should_fire_event d); [destruct Hin as [Hin|[]]; discriminate | destruct Hin].
  - eauto using cancel_coro_done.
  - unfold handled_world. fold w0. destruct (_should_fire_event d); simpl;
      rewrite He'; simpl; rewrite Hst; reflexivity.
  - intros ops.
    destruct (silent_exec_ops t (cancel_coro co) (cancel_coro_done co) config ops _ Ht1)
      as (_ & added & Ha & Hn).
    eauto.
Qed.

(** * A new command supersedes the pending repetitions *)

Lemma only_payload_nil e x : only_payload e x [].
Proof. intros c p a dev y []. Qed.

Lemma only_payload_app e x a b :
  only_payload e x a -> only_payload e x b -> only_payload e x (a ++ b).
Proof. intros Ha Hb c p a0 dev y Hin. apply in_app_or in Hin as [H|H]; eauto. Qed.

Lemma carries_alter e x f c w :
  (forall co, tasks w !! c = Some co -> is_live (f co) = true ->
     is_live co = true /\ co_self (f co) = co_self co /\ co_cmd (f co) = co_cmd co) ->
  carries e x w -> carries e x (with_tasks (alter f c (tasks w)) w).
Proof.
  intros Hf Hc i co Hi Hl He. simpl in Hi.
  destruct (decide (i = c)) as [->|Hne].
  - rewrite list_lookup_alter_eq in Hi. destruct (tasks w !! c) as [co0|] eqn:Hc0; [|discriminate].
    simpl in Hi. injection Hi as <-. destruct (Hf co0 eq_refl Hl) as (Hl0 & Hs & Hcmd).
    rewrite Hcmd. apply (Hc c co0 Hc0 Hl0). congruence.
  - rewrite list_lookup_alter_ne in Hi by auto. eauto.
Qed.

Lemma carries_with_co_state_dead e x c s w :
  match s with Scheduled | AwaitingAck => False | _ => True end ->
  carries e x w -> carries e x (with_tasks (alter (with_co_state s) c (tasks w)) w).
Proof.
  intros Hs. apply carries_alter. intros co _ Hl. unfold is_live in Hl. simpl in Hl.
  destruct s; try discriminate; contradiction.
Qed.

Lemma carries_spawn e x co w :
  (co_self co = e -> co_cmd co = x) ->
  carries e x w -> carries e x (spawn_world co w).
Proof.
  intros Hco Hc i co' Hi Hl He. simpl in Hi.
  apply lookup_app_Some in Hi as [Hi|[_ Hi]]; [eauto|].
  apply list_lookup_singleton_Some in Hi as [_ <-]. auto.
Qed.

Lemma carries_same_tasks e x w w' : tasks w' = tasks w -> carries e x w -> carries e x w'.
Proof. intros Ht Hc i co Hi. rewrite Ht in Hi. eauto. Qed.

Lemma carries_rest e x c co w :
  tasks w !! c = Some co -> is_live co = true ->
  carries e x w -> carries e x (rest_world c co w).
Proof.
  intros Hc Hl Hcar.
  assert (Hchild : co_self (child_of co) = e -> co_cmd (child_of co) = x).
  { simpl. intros He. eauto. }
  intros i co' Hi Hl' He. rewrite rest_world_tasks in Hi.
  destruct (decide (i = c)) as [->|Hne].
  - rewrite list_lookup_alter_eq in Hi.
    destruct ((if (1 <? co_repetitions co)%Z then tasks w ++ [child_of co] else tasks w) !! c);
      [|discriminate].
    simpl in Hi. injection Hi as <-. discriminate.
  - rewrite list_lookup_alter_ne in Hi by auto.
    destruct (1 <? co_repetitions co)%Z; [|eauto].
    apply lookup_app_Some in Hi as [Hi|[_ Hi]]; [eauto|].
    apply list_lookup_singleton_Some in Hi as [_ <-]. auto.
Qed.

Lemma resume_carries e x c w :
  carries e x w ->
  carries e x (snd (resume c w)) /\
  exists added, trace (snd (resume c w)) = trace w ++ added /\ only_payload e x added.
Proof.
  intros Hcar. rewrite resume_cases.
  assert (Hfail : forall ex, carries e x (fail_world c ex w) /\
            exists added, trace (fail_world c ex w) = trace w ++ added /\ only_payload e x added).
  { intros ex. split; [apply carries_with_co_state_dead; [exact I | exact Hcar]|].
    exists []. simpl. rewrite app_nil_r. split; [reflexivity | apply only_payload_nil]. }
  assert (Hsame : carries e x w /\
            exists added, trace w = trace w ++ added /\ only_payload e x added).
  { split; [exact Hcar|]. exists []. rewrite app_nil_r. split; [reflexivity | apply only_payload_nil]. }
  destruct (tasks w !! c) as [co|] eqn:Hc; [|apply Hfail].
  destruct (co_state co) eqn:Hs; try exact Hsame.
  - assert (Hl : is_live co = true) by (unfold is_live; rewrite Hs; reflexivity).
    assert (Htx : forall p a dev,
              only_payload e x [Transmit (co_self co) c p a dev (co_cmd co)]).
    { intros p a dev c' p' a' dev' y [Heq|[]]. injection Heq as He _ _ _ _ Hy.
      rewrite <- Hy. eauto. }
    unfold send_outcome.
    destruct (entities w !! co_self co) as [d|]; [|apply Hfail].
    destruct (_wait_ack w) as [[|]|]; destruct (_protocol w) as [[p|]|]; try apply Hfail.
    + split.
      * apply (carries_alter e x _ c (transmit_world c co p true (_device_id d) w)).
        -- intros co0 Hc0 _. simpl in Hc0. rewrite Hc in Hc0. injection Hc0 as <-. auto.
        -- exact Hcar.
      * eexists. split; [reflexivity | apply Htx].
    + split.
      * apply carries_rest; auto.
      * rewrite rest_world_trace. simpl. rewrite <- app_assoc. eexists. split; [reflexivity|].
        apply only_payload_app; [apply Htx|].
        intros c' p' a' dev' y Hin. destruct (co_top co); [destruct Hin as [H|[]]; discriminate | destruct Hin].
  - assert (Hl : is_live co = true) by (unfold is_live; rewrite Hs; reflexivity).
    split; [apply carries_rest; auto|].
    rewrite rest_world_trace. eexists. split; [reflexivity|].
    intros c' p' a' dev' y Hin. destruct (co_top co); [destruct Hin as [H|[]]; discriminate | destruct Hin].
Qed.

Lemma loop_carries config e x ops w :
  Forall is_loop_op ops -> carries e x w ->
  carries e x (exec_ops config ops w) /\
  exists added, trace (exec_ops config ops w) = trace w ++ added /\ only_payload e x added.
Proof.
  intros Hops. revert w. induction Hops as [|op ops Hop _ IH]; intros w Hcar; simpl.
  - split; [exact Hcar|]. exists []. rewrite app_nil_r. split; [reflexivity | apply only_payload_nil].
  - assert (Hstep : carries e x (exec_op config op w) /\
              exists added, trace (exec_op config op w) = trace w ++ added /\ only_payload e x added).
    { assert (Hsame : carries e x w /\
                exists added, trace w = trace w ++ added /\ only_payload e x added).
      { split; [exact Hcar|]. exists []. rewrite app_nil_r. split; [reflexivity | apply only_payload_nil]. }
      destruct op; simpl in Hop; try contradiction; simpl.
      - unfold run_task. repeat case_match; try exact Hsame; apply resume_carries, Hcar.
      - unfold deliver_ack. repeat case_match; try exact Hsame; apply resume_carries, Hcar. }
    destruct Hstep as (Hcar1 & a1 & Ht1 & Hp1).
    destruct (IH _ Hcar1) as (Hcar2 & a2 & Ht2 & Hp2).
    split; [exact Hcar2|]. exists (a1 ++ a2). rewrite Ht2, Ht1, app_assoc.
    split; [reflexivity | apply only_payload_app; assumption].
Qed.

Lemma launch_world_trace e d cmd s w :
  trace (launch_world e d cmd s w) =
  trace w ++ match _repetition_task d with Some t => [TaskCancel t] | None => [] end
          ++ [SetState e (PyBool s)].
Proof.
  unfold launch_world, spawn_world, state_world. simpl.
  rewrite cancel_world_trace, <- app_assoc. reflexivity.
Qed.

Lemma launch_world_task e d cmd s w t co :
  _repetition_task d = Some t -> tasks w !! t = Some co ->
  tasks (launch_world e d cmd s w) !! t = Some (cancel_coro co).
Proof.
  intros Hrep Ht. unfold launch_world, spawn_world, state_world. simpl.
  rewrite lookup_app_l.
  - apply cancel_world_task; assumption.
  - rewrite cancel_world_tasks_length. eapply lookup_lt_Some, Ht.
Qed.

Lemma launch_world_carries e d cmd s w t :
  _repetition_task d = Some t ->
  (forall i co, tasks w !! i = Some co -> is_live co = true -> co_self co = e -> i = t) ->
  carries e cmd (launch_world e d cmd s w).
Proof.
  intros Hrep Hsole. unfold launch_world.
  apply carries_spawn; [reflexivity|].
  apply (carries_same_tasks e cmd (cancel_world d w)); [reflexivity|].
  intros i co Hi Hl He. exfalso.
  unfold cancel_world in Hi. rewrite Hrep in Hi. simpl in Hi.
  destruct (decide (i = t)) as [->|Hne].
  - rewrite list_lookup_alter_eq in Hi. destruct (tasks w !! t) as [co0|]; [|discriminate].
    simpl in Hi. injection Hi as <-. rewrite cancel_coro_done in Hl. discriminate.
  - rewrite list_lookup_alter_ne in Hi by auto. apply Hne. eauto.
Qed.

(** X18.  Command B is issued while the repetition task [t] of command A
    is pending and on record for the handler.  The call cancels [t] before
    anything else, so before B's first transmission; [t] is cancelled when
    the call returns and, whatever happens later, transmits nothing more.
    If [t] was the handler's only pending coroutine, everything the handler
    transmits from then on, while the loop runs, is B's payload. *)
Theorem new_command_cancels_pending_repeats
    (config : Config) (w : World) (e : nat) (d : Entity) (t : nat) (coA : Coro)
    (command : string) (args : list Z) (cmdB : string) (s : bool) :
  entities w !! e = Some d ->
  _repetition_task d = Some t ->
  tasks w !! t = Some coA ->
  is_live coA = true ->
  command_payload command args cmdB s ->
  let w1 := snd (_async_handle_command e command args w) in
  (exists rest, trace w1 = trace w ++ TaskCancel t :: rest) /\
  co_state <$> tasks w1 !! t = Some Cancelled /\
  (forall ops,
     exists added, trace (exec_ops config ops w1) = trace w ++ TaskCancel t :: added /\
       forall e' p a dev x, ~ In (Transmit e' t p a dev x) added) /\
  ((forall i co, tasks w !! i = Some co -> is_live co = true -> co_self co = e -> i = t) ->
   forall ops, Forall is_loop_op ops ->
     exists added, trace (exec_ops config ops w1) = trace w ++ TaskCancel t :: added /\
       only_payload e cmdB added).
Proof.
  intros He Hrep Ht Hlive Hpay. cbv zeta.
  rewrite (handle_command_run e d w command args cmdB s He Hpay).
  fold (launch_world e d cmdB s w).
  set (wl := launch_world e d cmdB s w).
  set (n := length (tasks w)).
  assert (Hdone := cancel_coro_done coA).
  assert (Htl : tasks wl !! t = Some (cancel_coro coA)) by (apply launch_world_task; assumption).
  assert (Htrl : trace wl = trace w ++ [TaskCancel t; SetState e (PyBool s)]).
  { unfold wl. rewrite launch_world_trace, Hrep. reflexivity. }
  destruct (silent_resume t (cancel_coro coA) Hdone n wl Htl) as (Ht1 & added1 & Ha1 & Hn1).
  set (w1 := snd (resume n wl)) in *.
  split; [|split; [|split]].
  - exists (SetState e (PyBool s) :: added1). rewrite Ha1, Htrl, <- app_assoc. reflexivity.
  - rewrite Ht1. simpl. unfold cancel_coro. rewrite Hlive. reflexivity.
  - intros ops.
    destruct (silent_exec_ops t (cancel_coro coA) Hdone config ops w1 Ht1) as (_ & added2 & Ha2 & Hn2).
    exists (SetState e (PyBool s) :: added1 ++ added2).
    split; [rewrite Ha2, Ha1, Htrl, <- !app_assoc; reflexivity|].
    intros e' p a dev x [Hin|Hin]; [discriminate|].
    apply in_app_or in Hin as [Hin|Hin]; [eapply Hn1 | eapply Hn2]; eauto.
  - intros Hsole ops Hops.
    pose proof (launch_world_carries e d cmdB s w t Hrep Hsole) as Hcar.
    destruct (resume_carries e cmdB n wl Hcar) as (Hcar1 & added1' & Ha1' & Hp1).
    fold w1 in Hcar1, Ha1'.
    destruct (loop_carries config e cmdB ops w1 Hops Hcar1) as (_ & added2 & Ha2 & Hp2).
    exists (SetState e (PyBool s) :: added1' ++ added2).
    split; [rewrite Ha2, Ha1', Htrl, <- !app_assoc; reflexivity|].
    intros c p a dev y [Hin|Hin]; [discriminate|].
    apply in_app_or in Hin as [Hin|Hin]; eauto.
Qed.

(** * Signal repetitions *)

Lemma idle_next_ready w : idle w -> next_ready w = None.
Proof.
  intros Hidle. unfold next_ready.
  destruct (list_find _ (tasks w)) as [[i co]|] eqn:Hf; [|reflexivity].
  apply list_find_Some in Hf as (Hi & Hl & _). rewrite (Hidle i co Hi) in Hl. discriminate.
Qed.

Lemma idle_run_until_idle config fuel w : idle w -> run_until_idle config fuel w = w.
Proof. intros Hidle. destruct fuel; simpl; [|rewrite idle_next_ready by assumption]; reflexivity. Qed.

Lemma sole_live_next_ready c co w :
  tasks w !! c = Some co -> is_live co = true -> sole_live c w ->
  next_ready w = Some (match co_state co with AwaitingAck => OpAck c | _ => OpRunTask c end).
Proof.
  intros Hc Hl Hsole. unfold next_ready.
  destruct (list_find _ (tasks w)) as [[i co']|] eqn:Hf.
  - apply list_find_Some in Hf as (Hi & Hl' & _).
    assert (i = c) by eauto. subst i. rewrite Hi in Hc. injection Hc as ->. reflexivity.
  - apply list_find_None in Hf. rewrite Forall_forall in Hf.
    exfalso. apply (Hf co); [|exact Hl]. apply list_elem_of_lookup. eauto.
Qed.

Lemma sole_live_alter c f w w' :
  tasks w' = alter f c (tasks w) -> sole_live c w -> sole_live c w'.
Proof.
  intros Ht Hsole i co Hi Hl. rewrite Ht in Hi.
  destruct (decide (i = c)) as [|Hne]; [assumption|].
  rewrite list_lookup_alter_ne in Hi by auto. eauto.
Qed.

Lemma rest_world_child c co w :
  tasks w !! c = Some co -> sole_live c w -> (1 < co_repetitions co)%Z ->
  tasks (rest_world c co w) !! length (tasks w) = Some (child_of co) /\
  sole_live (length (tasks w)) (rest_world c co w).
Proof.
  intros Hc Hsole Hr. apply Z.ltb_lt in Hr.
  pose proof (lookup_lt_Some _ _ _ Hc) as Hlt.
  rewrite rest_world_tasks, Hr. split.
  - rewrite list_lookup_alter_ne by lia.
    rewrite lookup_app_r by lia. rewrite Nat.sub_diag. reflexivity.
  - intros i co' Hi Hl. rewrite rest_world_tasks, Hr in Hi.
    destruct (decide (i = c)) as [->|Hne].
    + rewrite list_lookup_alter_eq, lookup_app_l, Hc in Hi by lia.
      simpl in Hi. injection Hi as <-. discriminate.
    + rewrite list_lookup_alter_ne in Hi by auto.
      apply lookup_app_Some in Hi as [Hi|[Hge Hi]]; [exfalso; apply Hne; eauto|].
      apply list_lookup_singleton_Some in Hi as [Hi _]. lia.
Qed.

Lemma rest_world_idle c co w :
  tasks w !! c = Some co -> sole_live c w -> ~ (1 < co_repetitions co)%Z ->
  idle (rest_world c co w).
Proof.
  intros Hc Hsole Hr. apply Z.ltb_nlt in Hr.
  intros i co' Hi. rewrite rest_world_tasks, Hr in Hi.
  destruct (decide (i = c)) as [->|Hne].
  - rewrite list_lookup_alter_eq, Hc in Hi. simpl in Hi. injection Hi as <-. reflexivity.
  - rewrite list_lookup_alter_ne in Hi by auto.
    destruct (is_live co') eqn:Hl; [|reflexivity]. exfalso. apply Hne. eauto.
Qed.

Lemma rest_world_device_id c co w e dev :
  _device_id <$> entities w !! e = Some dev ->
  _device_id <$> entities (rest_world c co w) !! e = Some dev.
Proof.
  intros He. rewrite rest_world_entities. destruct (1 <? co_repetitions co)%Z; [|exact He].
  destruct (decide (e = co_self co)) as [->|Hne].
  - rewrite list_lookup_alter_eq. destruct (entities w !! co_self co); [exact He | discriminate].
  - rewrite list_lookup_alter_ne by auto. exact He.
Qed.

Lemma rest_world_transmissions c co w :
  transmissions (trace (rest_world c co w)) = transmissions (trace w).
Proof.
  rewrite rest_world_trace, transmissions_app.
  destruct (co_top co); simpl; apply app_nil_r.
Qed.

Lemma chain config e dev cmd p ack m :
  forall w c co fuel,
    tasks w !! c = Some co -> is_live co = true -> sole_live c w ->
    co_self co = e -> co_cmd co = cmd -> (1 <= co_repetitions co)%Z ->
    _device_id <$> entities w !! e = Some dev ->
    _protocol w = Some (Some p) -> _wait_ack w = Some ack ->
    steps_left co <= m -> m <= fuel ->
    idle (run_until_idle config fuel w) /\
    transmissions (trace (run_until_idle config fuel w)) =
      transmissions (trace w) ++ replicate (remaining co) (dev, cmd).
Proof.
  induction m as [|m IH]; intros w c co fuel Hc Hl Hsole Hself Hcmd Hr He Hp Ha Hsteps Hfuel.
  { exfalso. unfold steps_left, is_live in *. destruct (co_state co); try discriminate; lia. }
  destruct fuel as [|fuel]; [lia|]. simpl.
  rewrite (sole_live_next_ready c co w Hc Hl Hsole).
  destruct (entities w !! e) as [d|] eqn:Hd; [|discriminate]. simpl in He. injection He as Hdev.
  assert (Hchild : forall w1,
            tasks w1 !! c = Some co -> sole_live c w1 ->
            _device_id <$> entities w1 !! e = Some dev ->
            _protocol w1 = Some (Some p) -> _wait_ack w1 = Some ack ->
            2 * Z.to_nat (co_repetitions co - 1) <= m ->
            idle (run_until_idle config fuel (rest_world c co w1)) /\
            transmissions (trace (run_until_idle config fuel (rest_world c co w1))) =
              transmissions (trace w1) ++ replicate (Z.to_nat (co_repetitions co - 1)) (dev, cmd)).
  { intros w1 Hc1 Hsole1 He1 Hp1 Ha1 Hm.
    destruct (Z.lt_ge_cases 1 (co_repetitions co)) as [Hgt|Hle].
    - destruct (rest_world_child c co w1 Hc1 Hsole1 Hgt) as (Hch & Hsole').
      destruct (rest_world_binding c co w1) as (Hp' & Ha').
      destruct (IH (rest_world c co w1) (length (tasks w1)) (child_of co) fuel) as (Hi & Ht);
        auto; try (simpl; lia); try congruence.
      + apply rest_world_device_id. exact He1.
      + split; [exact Hi|]. rewrite Ht, rest_world_transmissions. reflexivity.
    - assert (Hidle : idle (rest_world c co w1)) by (apply rest_world_idle; auto; lia).
      rewrite idle_run_until_idle by exact Hidle. split; [exact Hidle|].
      rewrite rest_world_transmissions.
      replace (Z.to_nat (co_repetitions co - 1)) with 0 by lia. simpl. rewrite app_nil_r. reflexivity. }
  unfold steps_left, remaining in *. unfold is_live in Hl.
  destruct (co_state co) eqn:Hs; try discriminate; unfold exec_op.
  - unfold run_task. rewrite Hc, Hs, resume_cases, Hc, Hs.
    unfold send_outcome. rewrite Hself, Hd, Ha, Hp.
    assert (Hrep : replicate (Z.to_nat (co_repetitions co)) (dev, cmd)
                   = (dev, cmd) :: replicate (Z.to_nat (co_repetitions co - 1)) (dev, cmd)).
    { replace (Z.to_nat (co_repetitions co)) with (S (Z.to_nat (co_repetitions co - 1))) by lia.
      reflexivity. }
    destruct ack.
    + set (w1 := with_tasks _ _).
      destruct (IH w1 c (with_co_state AwaitingAck co) fuel) as (Hi & Ht); auto.
      * unfold w1. simpl. rewrite list_lookup_alter_eq, Hc. reflexivity.
      * apply (sole_live_alter c (with_co_state AwaitingAck) w); [reflexivity | exact Hsole].
      * unfold w1. simpl. rewrite Hd. simpl. congruence.
      * unfold steps_left. simpl. lia.
      * lia.
      * split; [exact Hi|]. rewrite Ht. unfold w1, remaining. simpl.
        rewrite transmissions_app, Hrep, Hdev, Hcmd, <- app_assoc. reflexivity.
    + set (w1 := transmit_world c co p false (_device_id d) w).
      destruct (Hchild w1) as (Hi & Ht); auto.
      * unfold w1. simpl. rewrite Hd. simpl. congruence.
      * lia.
      * split; [exact Hi|]. rewrite Ht. unfold w1. simpl.
        rewrite transmissions_app, Hrep, Hdev, Hcmd, <- app_assoc. reflexivity.
  - unfold deliver_ack. rewrite Hc, Hs, resume_cases, Hc, Hs.
    apply Hchild; auto.
    + rewrite Hd. simpl. congruence.
    + lia.
Qed.

Lemma cancel_world_idle d w : idle w -> idle (cancel_world d w).
Proof.
  intros Hidle i co Hi. unfold cancel_world in Hi.
  destruct (_repetition_task d) as [t|]; [|eauto]. simpl in Hi.
  destruct (decide (i = t)) as [->|Hne].
  - rewrite list_lookup_alter_eq in Hi. destruct (tasks w !! t); [|discriminate].
    simpl in Hi. injection Hi as <-. apply cancel_coro_done.
  - rewrite list_lookup_alter_ne in Hi by auto. eauto.
Qed.

Lemma launch_world_sole_live e d cmd s w :
  idle w -> sole_live (length (tasks w)) (launch_world e d cmd s w).
Proof.
  intros Hidle i co Hi Hl. unfold launch_world, spawn_world, state_world in Hi. simpl in Hi.
  apply lookup_app_Some in Hi as [Hi|[Hge Hi]].
  - rewrite (cancel_world_idle d w Hidle i co Hi) in Hl. discriminate.
  - apply list_lookup_singleton_Some in Hi as [Hi _].
    rewrite cancel_world_tasks_length in *. lia.
Qed.

Lemma launch_world_transmissions e d cmd s w :
  transmissions (trace (launch_world e d cmd s w)) = transmissions (trace w).
Proof.
  rewrite launch_world_trace, !transmissions_app.
  destruct (_repetition_task d); simpl; rewrite !app_nil_r; reflexivity.
Qed.

(** C2. With a protocol bound and nothing else pending, one call of
    [_async_handle_command] on an entity with [_signal_repetitions = R],
    [R >= 1], transmits the payload once before it returns or suspends, and
    the loop left to run (no cancellation, every send acknowledged) comes to
    rest with exactly [R] transmissions of that payload made. *)
Theorem repetitions_transmit_R_times
    (config : Config) (w : World) (e : nat) (d : Entity)
    (command : string) (args : list Z) (cmd : string) (s : bool)
    (p : nat) (ack : bool) (R : Z) :
  entities w !! e = Some d ->
  _signal_repetitions d = R -> (1 <= R)%Z ->
  _protocol w = Some (Some p) -> _wait_ack w = Some ack ->
  idle w ->
  command_payload command args cmd s ->
  let w1 := snd (_async_handle_command e command args w) in
  transmissions (trace w1) = transmissions (trace w) ++ [(_device_id d, cmd)] /\
  forall fuel, 2 * Z.to_nat R <= fuel ->
    let w2 := run_until_idle config fuel w1 in
    idle w2 /\
    transmissions (trace w2) =
      transmissions (trace w) ++ replicate (Z.to_nat R) (_device_id d, cmd).
Proof.
  intros He HR HR1 Hp Ha Hidle Hpay. cbv zeta.
  rewrite (handle_command_run e d w command args cmd s He Hpay).
  fold (launch_world e d cmd s w).
  set (wl := launch_world e d cmd s w). set (n := length (tasks w)).
  assert (Hc : tasks wl !! n = Some (top_coro e cmd d)) by apply launch_world_lookup.
  assert (Hel : entities wl !! e = Some (with_state (PyBool s) d))
    by (apply launch_world_entity; exact He).
  assert (Hpl : _protocol wl = Some (Some p))
    by (unfold wl, launch_world; simpl; rewrite cancel_world_protocol; exact Hp).
  assert (Hal : _wait_ack wl = Some ack)
    by (unfold wl, launch_world; simpl; rewrite cancel_world_wait_ack; exact Ha).
  assert (Hsole : sole_live n wl) by (apply launch_world_sole_live; exact Hidle).
  assert (Htl : transmissions (trace wl) = transmissions (trace w))
    by apply launch_world_transmissions.
  split.
  - rewrite resume_cases, Hc.
    change (co_state (top_coro e cmd d)) with Scheduled. cbv iota.
    unfold send_outcome. change (co_self (top_coro e cmd d)) with e.
    rewrite Hel, Hal, Hpl.
    destruct ack; rewrite ?rest_world_transmissions; unfold transmit_world;
      cbn [trace with_trace with_tasks]; rewrite transmissions_app, Htl; reflexivity.
  - intros fuel Hfuel.
    assert (Hstep : run_until_idle config (S fuel) wl = run_until_idle config fuel (snd (resume n wl))).
    { simpl. rewrite (sole_live_next_ready n (top_coro e cmd d) wl Hc eq_refl Hsole). simpl.
      unfold run_task. rewrite Hc. reflexivity. }
    rewrite <- Hstep.
    destruct (chain config e (_device_id d) cmd p ack (2 * Z.to_nat R) wl n (top_coro e cmd d) (S fuel))
      as (Hi & Ht);
      [exact Hc | reflexivity | exact Hsole | reflexivity | reflexivity
      | simpl; lia | rewrite Hel; reflexivity | exact Hpl | exact Hal
      | unfold steps_left; simpl; rewrite HR; lia | lia | ].
    split; [exact Hi|]. rewrite Ht, Htl. unfold remaining. simpl. rewrite HR. reflexivity.
Qed.

(** * The dim level *)

(** [int(b / 17)] computed with the binary64 division of the standard
    library's [SpecFloat]. *)
Section DimLevel.
Local Open Scope Z_scope.

Lemma digits2_pos_bounds (m : positive) :
2 ^ (Zpos (digits2_pos m) - 1) <= Zpos m < 2 ^ Zpos (digits2_pos m).
Proof.
induction m as [m IH|m IH|]; simpl digits2_pos.
- rewrite Pos2Z.inj_succ. change (Zpos m~1) with (2 * Zpos m + 1).
  replace (Z.succ (Zpos (digits2_pos m)) - 1) with (Z.succ (Zpos (digits2_pos m) - 1)) by lia.
  rewrite !Z.pow_succ_r by lia.
  revert IH. generalize (2 ^ (Zpos (digits2_pos m) - 1)) (2 ^ Zpos (digits2_pos m)). lia.
- rewrite Pos2Z.inj_succ. change (Zpos m~0) with (2 * Zpos m).
  replace (Z.succ (Zpos (digits2_pos m)) - 1) with (Z.succ (Zpos (digits2_pos m) - 1)) by lia.
  rewrite !Z.pow_succ_r by lia.
  revert IH. generalize (2 ^ (Zpos (digits2_pos m) - 1)) (2 ^ Zpos (digits2_pos m)). lia.
- simpl. lia.
Qed.

Lemma digits2_pos_unique (m : positive) (n : Z) :
2 ^ (n - 1) <= Zpos m < 2 ^ n -> Zpos (digits2_pos m) = n.
Proof.
intros [Hlo Hhi]. pose proof (digits2_pos_bounds m) as [Hlo' Hhi'].
assert (Hn : 0 < n).
{ destruct (Z.lt_ge_cases 0 n) as [|Hle]; [assumption|].
  exfalso. destruct (Z.eq_dec n 0) as [->|Hne]; [simpl in Hhi; lia|].
  rewrite Z.pow_neg_r in Hhi by lia. lia. }
destruct (Z.lt_trichotomy (Zpos (digits2_pos m)) n) as [Hlt|[Heq|Hgt]]; [|assumption|].
- exfalso. assert (2 ^ Zpos (digits2_pos m) <= 2 ^ (n - 1)) by (apply Z.pow_le_mono_r; lia). lia.
- exfalso. assert (2 ^ n <= 2 ^ (Zpos (digits2_pos m) - 1)) by (apply Z.pow_le_mono_r; lia). lia.
Qed.

Lemma shr_1_pos (q : positive) (r s : bool) :
shr_1 {| shr_m := Zpos q; shr_r := r; shr_s := s |} =
{| shr_m := Zpos q / 2; shr_r := Z.odd (Zpos q); shr_s := r || s |}.
Proof.
destruct q as [q|q|]; simpl shr_1.
- f_equal. change (Zpos q~1) with (2 * Zpos q + 1). apply Z.div_unique with 1; lia.
- f_equal. change (Zpos q~0) with (2 * Zpos q). apply Z.div_unique with 0; lia.
- reflexivity.
Qed.

Lemma loc_of_shr_record_of_loc m l : loc_of_shr_record (shr_record_of_loc m l) = l.
Proof. destruct l as [|[| |]]; reflexivity. Qed.

Lemma shr_m_record_of_loc m l : shr_m (shr_record_of_loc m l) = m.
Proof. destruct l as [|[| |]]; reflexivity. Qed.

Lemma Zdigits2_unique (q n : Z) : 0 < q -> 2 ^ (n - 1) <= q < 2 ^ n -> Zdigits2 q = n.
Proof.
intros Hq H. destruct q as [|q|q]; try lia. simpl. apply digits2_pos_unique, H.
Qed.

(** Rounding a 53-bit mantissa that may have carried into the 54th bit. *)
Lemma shr_fexp_normal (q e : Z) :
2 ^ 52 <= q < 2 ^ 53 -> -1074 <= e ->
shr_fexp 53 1024 q e loc_Exact = ({| shr_m := q; shr_r := false; shr_s := false |}, e).
Proof.
intros Hq He. unfold shr_fexp.
rewrite (Zdigits2_unique q 53) by (simpl; lia).
unfold fexp, emin. replace (Z.max (53 + e - 53) (3 - 1024 - 53) - e) with 0 by lia.
reflexivity.
Qed.

Lemma shr_fexp_carry (e : Z) :
-1074 <= e ->
shr_fexp 53 1024 (2 ^ 53) e loc_Exact =
  ({| shr_m := 2 ^ 52; shr_r := false; shr_s := false |}, e + 1).
Proof.
intros He. unfold shr_fexp.
change (Zdigits2 (2 ^ 53)) with 54.
unfold fexp, emin. replace (Z.max (54 + e - 53) (3 - 1024 - 53) - e) with 1 by lia.
reflexivity.
Qed.

Lemma round_nearest_even_bounds m l : m <= round_nearest_even m l <= m + 1.
Proof. destruct l as [|[| |]]; simpl; try lia. destruct (Z.even m); lia. Qed.

Lemma shiftl_carry (e : Z) : e <= -1 -> Z.shiftl (2 ^ 52) (e + 1) = Z.shiftl (2 ^ 53) e.
Proof.
intros He. rewrite !Z.shiftl_div_pow2 by lia.
replace (- e) with (Z.succ (- (e + 1))) by lia.
rewrite Z.pow_succ_r by lia.
change (2 ^ 53) with (2 * 2 ^ 52).
rewrite Z.div_mul_cancel_l; [reflexivity | | lia].
apply Z.pow_nonzero; lia.
Qed.

(** Second half of [binary_round_aux]: a mantissa in [2^52, 2^53] is
  stored as it is, up to renormalisation. *)
Lemma round_stored (mr e : Z) :
2 ^ 52 <= mr <= 2 ^ 53 -> -1074 <= e <= -1 ->
int_of_float
  (let '(mrs'', e'') := shr_fexp 53 1024 mr e loc_Exact in
   match shr_m mrs'' with
   | Z0 => S754_zero false
   | Zpos m => if Z.leb e'' (1024 - 53) then S754_finite false m e'' else S754_infinity false
   | Zneg _ => S754_nan
   end) = Some (Z.shiftl mr e).
Proof.
intros Hm He.
destruct (Z.eq_dec mr (2 ^ 53)) as [->|Hne].
- rewrite shr_fexp_carry by lia. cbn [shr_m]. change (2 ^ 52) with (Zpos (2 ^ 52)%positive) at 1.
  cbv iota. replace (e + 1 <=? 1024 - 53) with true by (symmetry; apply Z.leb_le; lia).
  cbn [int_of_float cond_Zopp]. f_equal. apply shiftl_carry. lia.
- rewrite shr_fexp_normal by lia. cbn [shr_m].
  destruct mr as [|m|m]; try lia.
  replace (e <=? 1024 - 53) with true by (symmetry; apply Z.leb_le; lia).
  reflexivity.
Qed.

Lemma round_aux_normal (q e : Z) (l : location) :
2 ^ 52 <= q < 2 ^ 53 -> -1074 <= e <= -1 ->
int_of_float (binary_round_aux 53 1024 false q e l) =
Some (Z.shiftl (round_nearest_even q l) e).
Proof.
intros Hq He. unfold binary_round_aux.
assert (H1 : shr_fexp 53 1024 q e l = (shr_record_of_loc q l, e)).
{ unfold shr_fexp. rewrite (Zdigits2_unique q 53) by (simpl; lia).
  unfold fexp, emin. replace (Z.max (53 + e - 53) (3 - 1024 - 53) - e) with 0 by lia.
  reflexivity. }
rewrite H1, shr_m_record_of_loc, loc_of_shr_record_of_loc.
pose proof (round_nearest_even_bounds q l).
apply round_stored; lia.
Qed.

Lemma round_aux_shifted (q e : Z) (l : location) :
2 ^ 53 <= q < 2 ^ 54 -> -1074 <= e <= -2 ->
int_of_float (binary_round_aux 53 1024 false q e l) =
Some (Z.shiftl
        (round_nearest_even (q / 2)
           (loc_of_shr_record
              {| shr_m := q / 2; shr_r := Z.odd q;
                 shr_s := shr_r (shr_record_of_loc q l) || shr_s (shr_record_of_loc q l) |}))
        (e + 1)).
Proof.
intros Hq He. unfold binary_round_aux.
assert (H1 : shr_fexp 53 1024 q e l =
             ({| shr_m := q / 2; shr_r := Z.odd q;
                 shr_s := shr_r (shr_record_of_loc q l) || shr_s (shr_record_of_loc q l) |},
              e + 1)).
{ unfold shr_fexp. rewrite (Zdigits2_unique q 54) by (simpl; lia).
  unfold fexp, emin. replace (Z.max (54 + e - 53) (3 - 1024 - 53) - e) with 1 by lia.
  unfold shr. cbn [iter_pos]. destruct q as [|q|q]; try lia.
  destruct l as [|[| |]]; cbn [shr_record_of_loc]; rewrite shr_1_pos; reflexivity. }
rewrite H1. cbn [shr_m].
match goal with |- context [round_nearest_even ?m ?l'] =>
  pose proof (round_nearest_even_bounds m l') end.
assert (2 ^ 52 <= q / 2 < 2 ^ 53).
{ change (2 ^ 53) with (2 * 2 ^ 52) in Hq. change (2 ^ 54) with (2 * 2 ^ 53) in Hq.
  split; [apply Z.div_le_lower_bound | apply Z.div_lt_upper_bound]; lia. }
apply round_stored; lia.
Qed.

Lemma round_down_when_even (m m' : Z) (s : bool) :
round_nearest_even m (loc_of_shr_record {| shr_m := m'; shr_r := false; shr_s := s |}) = m.
Proof. destruct s; reflexivity. Qed.

Lemma SFdiv_core_17 (m : positive) :
Zpos (digits2_pos m) <= 53 ->
let s := 58 - Zpos (digits2_pos m) in
SFdiv_core_binary 53 1024 (Zpos m) 0 17 0 =
  ((Zpos m * 2 ^ s) / 17, - s, new_location 17 ((Zpos m * 2 ^ s) mod 17)).
Proof.
intros Hd s. unfold SFdiv_core_binary.
change (Zdigits2 (Zpos m)) with (Zpos (digits2_pos m)).
change (Zdigits2 17) with 5.
assert (He : Z.min (fexp 53 1024 (Zpos (digits2_pos m) + 0 - (5 + 0))) (0 - 0) = - s).
{ unfold fexp, emin, s. lia. }
rewrite He. replace (0 - 0 - - s) with s by lia.
assert (Hs : 0 < s) by (unfold s; lia).
assert (Hm' : match s with Zpos _ => Z.shiftl (Zpos m) s | Z0 => Zpos m | Zneg _ => 0 end
              = Zpos m * 2 ^ s).
{ destruct s; try lia. apply Z.shiftl_mul_pow2. lia. }
rewrite Hm'. unfold Z.div, Z.modulo.
destruct (Z.div_eucl (Zpos m * 2 ^ s) 17) as [q r]. reflexivity.
Qed.

Lemma int_truediv_17_pos (m : positive) :
Zpos m < 2 ^ 53 -> int_of_float (int_truediv (Zpos m) 17) = Some (Zpos m / 17).
Proof.
intros Hb.
pose proof (digits2_pos_bounds m) as [Hlo Hhi].
set (d := Zpos (digits2_pos m)) in *.
assert (Hd : 1 <= d <= 53).
{ split; [unfold d; lia|].
  destruct (Z.le_gt_cases d 53) as [|Hgt]; [assumption|]. exfalso.
  assert (2 ^ 53 <= 2 ^ (d - 1)) by (apply Z.pow_le_mono_r; lia). lia. }
unfold int_truediv, float_of_int, SFdiv.
rewrite (SFdiv_core_17 m) by (fold d; lia). fold d. cbn [xorb].
set (s := 58 - d). set (S := 2 ^ s). set (b := Zpos m) in *.
set (l := new_location 17 ((b * S) mod 17)). clearbody l.
(* the scale *)
assert (Hs : 5 <= s <= 57) by (unfold s; lia).
set (S1 := 2 ^ (s - 1)).
assert (HS : S = 2 * S1).
{ unfold S, S1. replace s with (Z.succ (s - 1)) at 1 by lia. apply Z.pow_succ_r. lia. }
assert (HS1 : 16 <= S1).
{ unfold S1. change 16 with (2 ^ 4). apply Z.pow_le_mono_r; lia. }
(* the scaled dividend lies in [2^57, 2^58) *)
assert (HX : 2 ^ 57 <= b * S < 2 ^ 58).
{ assert (E1 : 2 ^ 57 = 2 ^ (d - 1) * S).
  { unfold S. rewrite <- Z.pow_add_r by lia. f_equal. unfold s. lia. }
  assert (E2 : 2 ^ 58 = 2 ^ d * S).
  { unfold S. rewrite <- Z.pow_add_r by lia. f_equal. unfold s. lia. }
  rewrite E1, E2. split.
  - apply Z.mul_le_mono_nonneg_r; lia.
  - apply Z.mul_lt_mono_pos_r; lia. }
(* quotient and remainder of b by 17, and of the scaled dividend *)
set (k := b / 17).
assert (Hk : b = 17 * k + b mod 17 /\ 0 <= b mod 17 < 17).
{ split; [apply Z.div_mod; lia | apply Z.mod_pos_bound; lia]. }
set (t := b mod 17) in *. destruct Hk as [Hk Ht].
set (q := (b * S) / 17).
set (u := (t * S) / 17).
assert (Hu : 0 <= u <= S - 2).
{ assert (0 <= t * S) by (apply Z.mul_nonneg_nonneg; lia).
  assert (t * S <= 16 * S) by (apply Z.mul_le_mono_nonneg_r; lia).
  pose proof (Z.mul_div_le (t * S) 17 ltac:(lia)) as Hle. fold u in Hle.
  assert (0 <= u) by (apply Z.div_pos; lia). lia. }
assert (Hq : q = k * S + u).
{ unfold q, u. rewrite Hk.
  replace ((17 * k + t) * S) with (k * S * 17 + t * S) by ring.
  rewrite Z.div_add_l by lia. reflexivity. }
assert (Hqr : 2 ^ 52 <= q < 2 ^ 54).
{ unfold q. split.
  - apply Z.div_le_lower_bound; [lia|]. change (2 ^ 57) with (32 * 2 ^ 52) in HX. lia.
  - apply Z.div_lt_upper_bound; [lia|]. change (2 ^ 58) with (16 * 2 ^ 54) in HX. lia. }
assert (Hk0 : 0 <= k) by (apply Z.div_pos; lia).
destruct (Z.lt_ge_cases q (2 ^ 53)) as [Hsmall|Hbig].
- rewrite round_aux_normal by lia. f_equal.
  rewrite Z.shiftl_div_pow2 by lia. replace (- - s) with s by lia. fold S.
  pose proof (round_nearest_even_bounds q l) as Hr.
  set (r := round_nearest_even q l) in *.
  symmetry. apply Z.div_unique with (r - S * k); [|lia].
  left. rewrite Hq in Hr. replace (S * k) with (k * S) by ring. lia.
- rewrite round_aux_shifted by lia. f_equal.
  rewrite Z.shiftl_div_pow2 by lia. replace (- (- s + 1)) with (s - 1) by lia. fold S1.
  set (h := q / 2).
  assert (Hh : q = 2 * h + q mod 2 /\ 0 <= q mod 2 < 2).
  { split; [apply Z.div_mod; lia | apply Z.mod_pos_bound; lia]. }
  destruct Hh as [Hh Ho].
  set (P := k * S1).
  assert (HP : k * S = 2 * P) by (unfold P; rewrite HS; ring).
  destruct (Z.odd q) eqn:Hodd.
  + match goal with |- context [round_nearest_even h ?l'] =>
      pose proof (round_nearest_even_bounds h l') as Hr;
      set (r := round_nearest_even h l') in * end.
    assert (Ho1 : q mod 2 = 1).
    { rewrite Zmod_odd, Hodd. reflexivity. }
    symmetry. apply Z.div_unique with (r - S1 * k); [|lia].
    left. replace (S1 * k) with P by (unfold P; ring). lia.
  + rewrite round_down_when_even.
    assert (Ho0 : q mod 2 = 0).
    { rewrite Zmod_odd, Hodd. reflexivity. }
    symmetry. apply Z.div_unique with (h - S1 * k); [|lia].
    left. replace (S1 * k) with P by (unfold P; ring). lia.
Qed.

End DimLevel.


Lemma int_truediv_17 (b : Z) :
  (0 <= b < 2 ^ 53)%Z -> dim_level b = Some (b / 17)%Z.
Proof.
  intros [Hlo Hhi]. unfold dim_level. destruct b as [|m|m]; try lia.
  - reflexivity.
  - apply int_truediv_17_pos. exact Hhi.
Qed.

Lemma handle_command_first_transmission e d w command args cmd s p ack :
  entities w !! e = Some d ->
  _protocol w = Some (Some p) -> _wait_ack w = Some ack ->
  command_payload command args cmd s ->
  exists before after,
    trace (snd (_async_handle_command e command args w)) =
      trace w ++ before ++ Transmit e (length (tasks w)) p ack (_device_id d) cmd :: after /\
    transmissions before = [] /\ transmissions after = [].
Proof.
  intros He Hp Ha Hpay.
  rewrite (handle_command_run e d w command args cmd s He Hpay).
  fold (launch_world e d cmd s w).
  set (wl := launch_world e d cmd s w). set (n := length (tasks w)).
  assert (Hc : tasks wl !! n = Some (top_coro e cmd d)) by apply launch_world_lookup.
  assert (Hel : entities wl !! e = Some (with_state (PyBool s) d))
    by (apply launch_world_entity; exact He).
  assert (Hpl : _protocol wl = Some (Some p))
    by (unfold wl, launch_world; simpl; rewrite cancel_world_protocol; exact Hp).
  assert (Hal : _wait_ack wl = Some ack)
    by (unfold wl, launch_world; simpl; rewrite cancel_world_wait_ack; exact Ha).
  rewrite resume_cases, Hc.
  change (co_state (top_coro e cmd d)) with Scheduled. cbv iota.
  unfold send_outcome. change (co_self (top_coro e cmd d)) with e.
  rewrite Hel, Hal, Hpl.
  exists (match _repetition_task d with Some t => [TaskCancel t] | None => [] end
          ++ [SetState e (PyBool s)]).
  destruct ack.
  - exists []. unfold transmit_world. cbn [trace with_trace with_tasks].
    unfold wl. rewrite launch_world_trace, <- !app_assoc. split; [reflexivity|].
    split; [|reflexivity]. destruct (_repetition_task d); reflexivity.
  - exists [UpdateHaState e]. rewrite rest_world_trace. unfold transmit_world.
    cbn [trace with_trace co_top top_coro co_self].
    unfold wl. rewrite launch_world_trace, <- !app_assoc. split; [reflexivity|].
    split; [|reflexivity]. destruct (_repetition_task d); reflexivity.
Qed.

(** C7, as the code has it.  [args[0] / 17] is a float division, so the
    level is the quotient rounded to the nearest binary64 value and then
    truncated.  For a brightness below 2^53 (every brightness a light has)
    that is the truncated quotient [b / 17]: never the nearest integer, and
    the same payload for the same brightness. *)
Theorem dim_level_truncates
    (w : World) (e : nat) (d : Entity) (p : nat) (ack : bool) (b : Z) (rest : list Z) :
  (0 <= b < 2 ^ 53)%Z ->
  entities w !! e = Some d ->
  _protocol w = Some (Some p) -> _wait_ack w = Some ack ->
  dim_level b = Some (b / 17)%Z /\
  exists before after,
    trace (snd (_async_handle_command e "dim" (b :: rest) w)) =
      trace w ++ before ++
      Transmit e (length (tasks w)) p ack (_device_id d) (str (b / 17)) :: after /\
    transmissions before = [] /\ transmissions after = [].
Proof.
  intros Hb He Hp Ha. pose proof (int_truediv_17 b Hb) as Hl.
  split; [exact Hl|].
  apply (handle_command_first_transmission e d w "dim" (b :: rest) (str (b / 17)) true p ack);
    auto.
  constructor. exact Hl.
Qed.

(** Beyond 2^53 the float division rounds before [int] truncates: here the
    level is one more than the truncated quotient. *)
Lemma dim_level_rounds_large_brightness :
  dim_level (17 * 2 ^ 60 - 1) = Some (2 ^ 60)%Z /\
  ((17 * 2 ^ 60 - 1) / 17 = 2 ^ 60 - 1)%Z /\
  dim_level (17 * 2 ^ 60 - 1) <> Some ((17 * 2 ^ 60 - 1) / 17)%Z.
Proof. vm_compute. repeat split; discriminate. Qed.

(** * The statements at work *)

Lemma event_callback_routes_witness :
  fst (event_callback demo_on (demo_world true 1)) = Ok tt /\
  exists added,
    trace (snd (event_callback demo_on (demo_world true 1))) = trace (demo_world true 1) ++ added /\
    deliveries added = [0] /\ hook_calls added = [].
Proof.
  destruct (event_callback_routes (demo_world true 1) demo_on {[ Some "D1" := [0] ]} [0])
    as (Hr & added & Ht & Hne & _).
  - reflexivity.
  - reflexivity.
  - intros h [<-|[]]. eexists. split; [reflexivity|]. simpl. eexists. reflexivity.
  - split; [exact Hr|]. exists added. split; [exact Ht|]. apply Hne. discriminate.
Defined.

Lemma handler_failure_stops_dispatch_witness :
  is_raise (fst (event_callback demo_on demo_shared)) = true /\
  exists added,
    trace (snd (event_callback demo_on demo_shared)) = trace demo_shared ++ added /\
    deliveries added = [0] /\ hook_calls added = [].
Proof.
  apply (handler_failure_stops_dispatch demo_shared demo_on {[ Some "D1" := [0; 1] ]} [] 0 [1]
           (RflinkDevice_init RflinkDevice "sensor.d1" "D1" "" [] false 1)).
  - reflexivity.
  - reflexivity.
  - intros h' [].
  - reflexivity.
  - exact I.
Defined.

(** C1 does not hold of the code as it is worded: three handlers are
    registered under the event's id, the second one raises, and
    [handle_event] is never called on the third. *)
Lemma routing_stops_at_failing_handler :
  entity_lookup demo_aliases !! identify_event_type demo_on =
    Some {[ Some "D1" := [0; 1; 2] ]} /\
  fst (event_callback demo_on demo_aliases) = Raise NotImplementedError /\
  deliveries (trace (snd (event_callback demo_on demo_aliases))) = [0; 1] /\
  count_occ Nat.eq_dec (deliveries (trace (snd (event_callback demo_on demo_aliases)))) 2 = 0.
Proof. repeat split; reflexivity. Qed.

(** C5 does not hold of the code: the switch is registered under the
    event's id, and the event never reaches it. *)
Lemma handler_failure_loses_later_handlers :
  entity_lookup demo_shared !! identify_event_type demo_on = Some {[ Some "D1" := [0; 1] ]} /\
  fst (event_callback demo_on demo_shared) = Raise NotImplementedError /\
  deliveries (trace (snd (event_callback demo_on demo_shared))) = [0] /\
  ~ In 1 (deliveries (trace (snd (event_callback demo_on demo_shared)))).
Proof.
  split; [reflexivity|]. split; [reflexivity|]. split; [reflexivity|].
  intros [H|[]]. discriminate.
Qed.

Lemma repetitions_transmit_R_times_witness :
  transmissions (trace (snd (_async_handle_command 0 "turn_on" [] (demo_world true 3)))) =
    [("D1", "on")] /\
  idle (run_until_idle (demo_config true) 6
          (snd (_async_handle_command 0 "turn_on" [] (demo_world true 3)))) /\
  transmissions (trace (run_until_idle (demo_config true) 6
                          (snd (_async_handle_command 0 "turn_on" [] (demo_world true 3))))) =
    [("D1", "on"); ("D1", "on"); ("D1", "on")].
Proof.
  destruct (repetitions_transmit_R_times (demo_config true) (demo_world true 3) 0 (demo_switch 3)
              "turn_on" [] "on" true 0 true 3) as (H1 & H2).
  - reflexivity.
  - reflexivity.
  - lia.
  - reflexivity.
  - reflexivity.
  - intros i co Hi. destruct i; discriminate.
  - constructor.
  - split; [exact H1|]. apply (H2 6). simpl. lia.
Defined.

Lemma new_command_cancels_pending_repeats_witness :
  (exists rest,
     trace (snd (_async_handle_command 0 "turn_off" [] (demo_pending 3))) =
       trace (demo_pending 3) ++ TaskCancel 1 :: rest) /\
  co_state <$> tasks (snd (_async_handle_command 0 "turn_off" [] (demo_pending 3))) !! 1 =
    Some Cancelled /\
  forall ops, Forall is_loop_op ops ->
    exists added,
      trace (exec_ops (demo_config false) ops
               (snd (_async_handle_command 0 "turn_off" [] (demo_pending 3)))) =
        trace (demo_pending 3) ++ TaskCancel 1 :: added /\
      only_payload 0 "off" added.
Proof.
  destruct (new_command_cancels_pending_repeats (demo_config false) (demo_pending 3) 0
              (with_repetition_task (Some 1) (with_state (PyBool true) (demo_switch 3))) 1
              {| co_self := 0; co_cmd := "on"; co_repetitions := 2; co_top := false;
                 co_state := Scheduled |}
              "turn_off" [] "off" false) as (H1 & H2 & _ & H4).
  - reflexivity.
  - reflexivity.
  - reflexivity.
  - reflexivity.
  - constructor.
  - split; [exact H1|]. split; [exact H2|]. apply H4.
    intros i co Hi Hl _. destruct i as [|[|[|i]]]; simpl in Hi; try discriminate.
    + injection Hi as <-. discriminate.
    + reflexivity.
Defined.

Lemma sends_fail_until_reconnected_witness :
  is_raise (fst (_async_handle_command 0 "turn_on" []
                   (exec_ops (demo_config true) [OpEvent demo_off; OpConnect (Raise TimeoutError)]
                      (snd (reconnect (demo_world true 1)))))) = true /\
  is_raise (fst (_async_handle_command 0 "turn_on" []
                   (snd (connect (demo_config true) (Ok 5)
                           (exec_ops (demo_config true) [OpEvent demo_off; OpConnect (Raise TimeoutError)]
                              (snd (reconnect (demo_world true 1)))))))) = false.
Proof.
  destruct (sends_fail_until_reconnected (demo_config true) (demo_world true 1)
              [OpEvent demo_off; OpConnect (Raise TimeoutError)] 0 "turn_on" []) as ((H1 & _) & H2).
  - repeat constructor.
  - split; [exact H1|].
    destruct (H2 5 (with_state (PyBool false) (demo_switch 1)) "on" true) as (_ & _ & H3 & _).
    + reflexivity.
    + constructor.
    + exact H3.
Defined.

Lemma dim_level_truncates_witness :
  dim_level 255 = Some 15%Z /\ dim_level 16 = Some 0%Z /\
  exists before after,
    trace (snd (_async_handle_command 0 "dim" [16%Z] (demo_world true 1))) =
      trace (demo_world true 1) ++ before ++ Transmit 0 0 0 true "D1" "0" :: after /\
    transmissions before = [] /\ transmissions after = [].
Proof.
  split; [|split].
  - apply (dim_level_truncates (demo_world true 1) 0 (demo_switch 1) 0 true 255 []);
      [vm_compute; split; congruence | reflexivity | reflexivity | reflexivity].
  - apply (dim_level_truncates (demo_world true 1) 0 (demo_switch 1) 0 true 16 []);
      [vm_compute; split; congruence | reflexivity | reflexivity | reflexivity].
  - apply (dim_level_truncates (demo_world true 1) 0 (demo_switch 1) 0 true 16 []);
      [vm_compute; split; congruence | reflexivity | reflexivity | reflexivity].
Defined.

Lemma remote_event_cancels_pending_repeats_witness :
  fst (handle_event 0 demo_off (demo_pending 3)) = Ok tt /\
  (exists rest,
     trace (snd (handle_event 0 demo_off (demo_pending 3))) =
       trace (demo_pending 3) ++ HandleEvent 0 demo_off :: TaskCancel 1 :: rest) /\
  _state <$> entities (snd (handle_event 0 demo_off (demo_pending 3))) !! 0 =
    Some (PyBool false) /\
  transmissions (trace (run_until_idle (demo_config false) 6
                          (snd (handle_event 0 demo_off (demo_pending 3))))) = [("D1", "on")].
Proof.
  destruct (remote_event_cancels_pending_repeats (demo_config false) (demo_pending 3) 0
              (with_repetition_task (Some 1) (with_state (PyBool true) (demo_switch 3))) 1
              {| co_self := 0; co_cmd := "on"; co_repetitions := 2; co_top := false;
                 co_state := Scheduled |}
              demo_off "off") as (H1 & (rest & H2 & _) & _ & H4 & _).
  - reflexivity.
  - reflexivity.
  - reflexivity.
  - reflexivity.
  - reflexivity.
  - split; [exact H1|]. split; [exists rest; exact H2|]. split; [exact H4 | reflexivity].
Defined.

Lemma send_failure_keeps_optimistic_state_witness :
  fst (_async_handle_command 0 "turn_on" [] (snd (reconnect (demo_world true 1)))) =
    Raise AttributeError /\
  _state <$> entities
    (snd (_async_handle_command 0 "turn_on" [] (snd (reconnect (demo_world true 1))))) !! 0 =
    Some (PyBool true).
Proof.
  destruct (send_failure_keeps_optimistic_state (snd (reconnect (demo_world true 1))) 0
              (demo_switch 1) "turn_on" [] "on" true) as (H1 & H2 & _).
  - reflexivity.
  - constructor.
  - right. reflexivity.
  - split; [exact H1 | exact H2].
Defined.

Lemma unknown_command_raises_before_transmission_witness :
  fst (_async_handle_command 0 "toggle" [] (demo_pending 3)) = Raise UnboundLocalError /\
  transmissions (trace (snd (_async_handle_command 0 "toggle" [] (demo_pending 3)))) =
    transmissions (trace (demo_pending 3)).
Proof.
  destruct (unknown_command_raises_before_transmission (demo_pending 3) 0
              (with_repetition_task (Some 1) (with_state (PyBool true) (demo_switch 3)))
              "toggle" []) as (H1 & H2 & _).
  - reflexivity.
  - discriminate.
  - discriminate.
  - discriminate.
  - split; [exact H1 | exact H2].
Defined.

(** * More on routing *)

Lemma event_callback_unknown_type (w : World) (event : Event) :
  event !! EVENT_KEY_COMMAND = None ->
  event !! EVENT_KEY_SENSOR = None ->
  entity_lookup w !! "unknown" = None ->
  event_callback event w = (Ok tt, w).
Proof.
  intros Hc Hs Hu. unfold event_callback, identify_event_type. rewrite Hc, Hs, Hu. reflexivity.
Qed.

(** X2.  Looking up an id nobody registered in the [defaultdict] inserts
    it with an empty list.  The event reaches no entity; the platform's hook
    for the event type is run once, with the event, when one is installed,
    and nothing is run otherwise.  The empty list stays, so the same event
    arriving again does the same and changes nothing more. *)
Theorem unregistered_id_leaves_empty_list
    (w : World) (event : Event) (by_id : gmap (option string) (list nat)) :
  entity_lookup w !! identify_event_type event = Some by_id ->
  by_id !! (event !! EVENT_KEY_ID) = None ->
  let ty := identify_event_type event in
  let w1 := snd (event_callback event w) in
  let w2 := snd (event_callback event w1) in
  fst (event_callback event w) = Ok tt /\
  entity_lookup w1 = <[ty := <[event !! EVENT_KEY_ID := []]> by_id]> (entity_lookup w) /\
  entities w1 = entities w /\ tasks w1 = tasks w /\
  (let called := match device_register w !! ty with
                  | Some hook => [RunJob hook event]
                  | None => []
                  end in
   trace w1 = trace w ++ called /\ trace w2 = trace w1 ++ called) /\
  entity_lookup w2 = entity_lookup w1.
Proof.
  intros Hlk Hid. cbv zeta.
  assert (Hrun : event_callback event w =
            let w1 := with_entity_lookup
                        (<[identify_event_type event := <[event !! EVENT_KEY_ID := []]> by_id]>
                           (entity_lookup w)) w in
            match device_register w !! identify_event_type event with
            | Some hook => (Ok tt, with_trace (trace w ++ [RunJob hook event]) w1)
            | None => (Ok tt, w1)
            end).
  { unfold event_callback. rewrite Hlk. unfold bind, defaultdict_getitem. rewrite Hid. simpl.
    destruct (device_register w !! identify_event_type event); reflexivity. }
  assert (Hrun2 : forall w1,
            entity_lookup w1 = <[identify_event_type event := <[event !! EVENT_KEY_ID := []]> by_id]>
                                 (entity_lookup w) ->
            event_callback event w1 =
            match device_register w1 !! identify_event_type event with
            | Some hook => (Ok tt, with_trace (trace w1 ++ [RunJob hook event]) w1)
            | None => (Ok tt, w1)
            end).
  { intros w1 Hl. unfold event_callback. rewrite Hl, lookup_insert_eq.
    unfold bind, defaultdict_getitem. rewrite lookup_insert_eq. simpl.
    destruct (device_register w1 !! identify_event_type event); reflexivity. }
  rewrite Hrun. cbv zeta.
  destruct (device_register w !! identify_event_type event) as [hook|] eqn:Hk; simpl.
  - rewrite Hrun2 by reflexivity. simpl. rewrite Hk. simpl.
    repeat split; reflexivity.
  - rewrite Hrun2 by reflexivity. simpl. rewrite Hk. simpl.
    rewrite !app_nil_r. repeat split; reflexivity.
Qed.

Lemma unregistered_id_leaves_empty_list_witness :
  entity_lookup (snd (event_callback {[ "id" := "D2"; "command" := "on" ]} (demo_world true 1)))
    !! "command" = Some {[ Some "D1" := [0]; Some "D2" := [] ]} /\
  trace (snd (event_callback {[ "id" := "D2"; "command" := "on" ]} (demo_world true 1))) =
    [RunJob 0 {[ "id" := "D2"; "command" := "on" ]}].
Proof.
  destruct (unregistered_id_leaves_empty_list (demo_world true 1)
              {[ "id" := "D2"; "command" := "on" ]} {[ Some "D1" := [0] ]})
    as (_ & H2 & _).
  - reflexivity.
  - reflexivity.
  - split; [rewrite H2; reflexivity | reflexivity].
Defined.

Lemma routing_frame_refl w : routing_frame w w.
Proof. repeat split; auto. Qed.

Lemma cancel_coro_twice co : cancel_coro (cancel_coro co) = cancel_coro co.
Proof. unfold cancel_coro at 1. rewrite cancel_coro_done. reflexivity. Qed.

Lemma routing_frame_trans a b c : routing_frame a b -> routing_frame b c -> routing_frame a c.
Proof.
  intros (T1 & L1 & P1 & A1 & S1 & C1) (T2 & L2 & P2 & A2 & S2 & C2).
  repeat split; try congruence.
  intros i co Hi. destruct (C1 i co Hi) as [H|H]; destruct (C2 _ _ H) as [H'|H']; auto.
  rewrite cancel_coro_twice in H'. auto.
Qed.

Lemma routing_frame_emit eff :
  match eff with Transmit _ _ _ _ _ _ => False | _ => True end -> framed routing_frame (emit eff).
Proof.
  intros H w. repeat split; auto. simpl. apply transmissions_snoc_other, H.
Qed.

Lemma routing_frame_cancel t w :
  routing_frame w (with_tasks (alter cancel_coro t (tasks w)) w).
Proof.
  repeat split; auto; simpl; [apply length_alter|].
  intros c co Hc. destruct (decide (c = t)) as [->|Hne].
  - right. rewrite list_lookup_alter_eq, Hc. reflexivity.
  - left. rewrite list_lookup_alter_ne; auto.
Qed.

Lemma routing_frame_event_callback event : framed routing_frame (event_callback event).
Proof.
  apply framed_event_callback.
  - apply routing_frame_refl.
  - apply routing_frame_trans.
  - apply routing_frame_emit.
  - intros e s w. repeat split; auto.
  - apply routing_frame_cancel.
  - intros x w. repeat split; auto.
Qed.


(** * Set-up and connection management *)

Lemma async_setup_initial_state (config : Config) (connection : Res nat) (w : World) :
  let r := async_setup config connection w in
  entity_lookup (snd r) = {[ EVENT_KEY_COMMAND := ∅; EVENT_KEY_SENSOR := ∅ ]} /\
  device_register (snd r) = ∅ /\
  entities (snd r) = entities w /\ tasks (snd r) = tasks w /\
  match connection with
  | Ok p =>
      fst r = Ok true /\
      _protocol (snd r) = Some (Some p) /\
      _wait_ack (snd r) = Some (CONF_WAIT_FOR_ACK config) /\
      trace (snd r) = trace w ++ [ListenStop p]
  | Raise ex =>
      _protocol (snd r) = _protocol w /\ _wait_ack (snd r) = _wait_ack w /\
      if caught ex
      then fst r = Ok true /\
           trace (snd r) = trace w ++ [CallLaterReconnect (CONF_RECONNECT_INTERVAL config)]
      else fst r = Raise ex /\ trace (snd r) = trace w
  end.
Proof.
  destruct connection as [p|ex]; cbv zeta; [simpl; repeat split; reflexivity|].
  unfold async_setup, connect, bind. destruct (caught ex); simpl; repeat split; reflexivity.
Qed.

(** * What each operation may call *)

Section Effects.
Variable Q : Effect -> Prop.

Lemma effects_frame_refl w : effects_frame Q w w.
Proof. split; [reflexivity|]. exists []. rewrite app_nil_r. split; [reflexivity | constructor]. Qed.

Lemma effects_frame_trans a b c :
  effects_frame Q a b -> effects_frame Q b c -> effects_frame Q a c.
Proof.
  intros (S1 & x & Hx & Qx) (S2 & y & Hy & Qy). split; [congruence|].
  exists (x ++ y). rewrite Hy, Hx, app_assoc. split; [reflexivity | apply Forall_app; auto].
Qed.

Lemma effects_frame_emit eff : Q eff -> framed (effects_frame Q) (emit eff).
Proof. intros H w. split; [reflexivity|]. exists [eff]. split; [reflexivity | repeat constructor; exact H]. Qed.

Lemma effects_frame_quiet w w' :
  stopping w' = stopping w -> trace w' = trace w -> effects_frame Q w w'.
Proof.
  intros Hs Ht. split; [exact Hs|]. exists []. rewrite app_nil_r. split; [exact Ht | constructor].
Qed.

Local Abbreviation fbind := (framed_bind (effects_frame Q) effects_frame_trans).
Local Abbreviation fret := (framed_ret (effects_frame Q) effects_frame_refl).
Local Abbreviation fraise := (framed_raise (effects_frame Q) effects_frame_refl).
Local Abbreviation fget := (framed_self_get (effects_frame Q) effects_frame_refl).

Lemma effects_set_state e s : Q (SetState e s) -> framed (effects_frame Q) (set_state e s).
Proof.
  intros H. apply fbind; [|intros; apply effects_frame_emit, H].
  intros w. apply effects_frame_quiet; reflexivity.
Qed.

Lemma effects_cancel_queued e :
  (forall t, Q (TaskCancel t)) -> framed (effects_frame Q) (cancel_queued_send_commands e).
Proof.
  intros H. apply fbind; [apply fget|]. intros d.
  destruct (_repetition_task d) as [t|]; [|apply fret].
  apply fbind; [apply effects_frame_emit, H|]. intros _ w.
  apply effects_frame_quiet; reflexivity.
Qed.

Lemma effects_rest c co w :
  Q (UpdateHaState (co_self co)) -> effects_frame Q w (rest_world c co w).
Proof.
  intros H. split.
  - unfold rest_world. destruct (1 <? co_repetitions co)%Z, (co_top co); reflexivity.
  - rewrite rest_world_trace. eexists. split; [reflexivity|].
    destruct (co_top co); repeat constructor. exact H.
Qed.

Lemma effects_resume c :
  (forall eff, is_command_effect eff -> Q eff) -> framed (effects_frame Q) (resume c).
Proof.
  intros H w. rewrite resume_cases.
  assert (Hfail : forall ex, effects_frame Q w (fail_world c ex w))
    by (intros; apply effects_frame_quiet; reflexivity).
  destruct (tasks w !! c) as [co|]; [|apply Hfail].
  destruct (co_state co); try apply effects_frame_refl.
  - unfold send_outcome.
    destruct (entities w !! co_self co) as [d|]; [|apply Hfail].
    destruct (_wait_ack w) as [[|]|]; destruct (_protocol w) as [[p|]|]; try apply Hfail.
    + split; [reflexivity|]. eexists. split; [reflexivity|]. repeat constructor. apply H. exact I.
    + eapply effects_frame_trans; [|apply effects_rest, H; exact I].
      split; [reflexivity|]. eexists. split; [reflexivity|]. repeat constructor. apply H. exact I.
  - apply effects_rest, H. exact I.
Qed.

Lemma effects_handle_command e command args :
  (forall eff, is_command_effect eff -> Q eff) ->
  framed (effects_frame Q) (_async_handle_command e command args).
Proof.
  intros H. unfold _async_handle_command.
  apply fbind; [apply effects_cancel_queued; intros; apply H; exact I|]. intros _.
  apply fbind.
  - repeat case_match; try apply fret; try apply fraise;
      (apply fbind; [apply effects_set_state, H; exact I | intros; apply fret]).
  - intros [cmd|]; [|apply fraise].
    apply fbind; [apply fget|]. intros d.
    apply fbind; [|intros c; apply effects_resume, H].
    intros w. apply effects_frame_quiet; reflexivity.
Qed.

Lemma effects__handle_event e event :
  (forall eff, is_routing_effect eff -> Q eff) ->
  framed (effects_frame Q) (_handle_event e event).
Proof.
  intros H. unfold _handle_event. apply fbind; [apply fget|]. intros d.
  destruct (cls d); try apply fraise.
  - apply fbind; [apply effects_cancel_queued; intros; apply H; exact I|]. intros _.
    repeat case_match; try apply fret; try apply fraise; apply effects_set_state, H; exact I.
  - case_match; [apply effects_set_state, H; exact I | apply fraise].
Qed.

Lemma effects_handle_event e event :
  (forall eff, is_routing_effect eff -> Q eff) ->
  framed (effects_frame Q) (handle_event e event).
Proof.
  intros H. unfold handle_event.
  apply fbind; [apply effects_frame_emit, H; exact I|]. intros _.
  apply fbind; [apply effects__handle_event, H|]. intros _.
  apply fbind; [apply effects_frame_emit, H; exact I|]. intros _.
  apply fbind; [apply fget|]. intros d.
  repeat case_match; try apply fret; try apply fraise; apply effects_frame_emit, H; exact I.
Qed.

Lemma effects_event_callback event :
  (forall eff, is_routing_effect eff -> Q eff) ->
  framed (effects_frame Q) (event_callback event).
Proof.
  intros H w. unfold event_callback.
  destruct (entity_lookup w !! identify_event_type event); [|apply effects_frame_refl].
  revert w. apply fbind.
  - unfold defaultdict_getitem. case_match; [apply fret|].
    intros w. apply effects_frame_quiet; reflexivity.
  - intros [|h hs].
    + intros w. case_match; [apply effects_frame_emit, H; exact I | apply effects_frame_refl].
    + apply (framed_for_each (effects_frame Q) effects_frame_refl effects_frame_trans).
      intros; apply effects_handle_event, H.
Qed.
End Effects.

(** X5.  Whatever its arguments and however it ends,
    [_async_handle_command] only cancels tasks, assigns [_state], hands
    commands to the protocol and schedules the state update: it fires no bus
    event, calls no platform hook and starts no connection. *)
Theorem command_effects (w : World) (e : nat) (command : string) (args : list Z) :
  exists added,
    trace (snd (_async_handle_command e command args w)) = trace w ++ added /\
    Forall is_command_effect added.
Proof.
  destruct (effects_handle_command is_command_effect e command args (fun _ H => H) w) as (_ & H).
  exact H.
Qed.

Lemma routing_effects (w : World) (event : Event) :
  exists added,
    trace (snd (event_callback event w)) = trace w ++ added /\
    Forall is_routing_effect added.
Proof.
  destruct (effects_event_callback is_routing_effect event (fun _ H => H) w) as (_ & H).
  exact H.
Qed.




(** * Edge cases of sending *)


Lemma no_pending_carries e w : no_pending e w <-> carries e "0" w /\ carries e "1" w.
Proof.
  split.
  - intros H. split; intros i co Hi Hl He; destruct (H i co Hi Hl He).
  - intros [H0 H1] i co Hi Hl He.
    pose proof (H0 i co Hi Hl He) as E0. pose proof (H1 i co Hi Hl He) as E1.
    rewrite E0 in E1. discriminate.
Qed.

Lemma resume_no_pending e c w :
  no_pending e w ->
  no_pending e (snd (resume c w)) /\
  exists added, trace (snd (resume c w)) = trace w ++ added /\ no_transmission_of e added.
Proof.
  intros H. apply no_pending_carries in H as [H0 H1].
  destruct (resume_carries e "0" c w H0) as (C0 & a0 & T0 & P0).
  destruct (resume_carries e "1" c w H1) as (C1 & a1 & T1 & P1).
  split; [apply no_pending_carries; auto|].
  exists a0. split; [exact T0|].
  assert (a0 = a1) by (rewrite T0 in T1; apply app_inv_head in T1; exact T1). subst a1.
  intros c' p a dev x Hin.
  pose proof (P0 _ _ _ _ _ Hin) as E0. pose proof (P1 _ _ _ _ _ Hin) as E1.
  rewrite E0 in E1. discriminate.
Qed.

Lemma no_transmission_of_routing e added :
  Forall is_routing_effect added -> no_transmission_of e added.
Proof.
  intros H c p a dev x Hin. rewrite Forall_forall in H.
  apply (H (Transmit e c p a dev x)). apply list_elem_of_In. exact Hin.
Qed.

Lemma background_op_no_pending config e op w :
  is_background_op op -> no_pending e w ->
  no_pending e (exec_op config op w) /\
  exists added, trace (exec_op config op w) = trace w ++ added /\ no_transmission_of e added.
Proof.
  intros Hop H.
  assert (Hsame : forall w' added,
            tasks w' = tasks w -> trace w' = trace w ++ added ->
            (forall eff, In eff added ->
               match eff with Transmit _ _ _ _ _ _ => False | _ => True end) ->
            no_pending e w' /\
            exists added, trace w' = trace w ++ added /\ no_transmission_of e added).
  { intros w' added Ht Htr Hq. split.
    - intros i co Hi. rewrite Ht in Hi. eauto.
    - exists added. split; [exact Htr|]. intros c p a dev x Hin. apply (Hq _ Hin). }
  destruct op as [e' command args|t|c|event| |[p|ex]|]; simpl in Hop; try contradiction;
    unfold exec_op.
  - unfold run_task. repeat case_match;
      try (apply (Hsame w []); [reflexivity | rewrite app_nil_r; reflexivity | intros ? []]).
    apply resume_no_pending, H.
  - unfold deliver_ack. repeat case_match;
      try (apply (Hsame w []); [reflexivity | rewrite app_nil_r; reflexivity | intros ? []]).
    apply resume_no_pending, H.
  - destruct (routing_frame_event_callback event w) as (_ & _ & _ & _ & _ & Hc).
    destruct (routing_effects w event) as (added & Ht & Hq).
    split.
    + intros i co Hi Hl He.
      assert (Hlt : i < length (tasks w)).
      { destruct (routing_frame_event_callback event w) as (_ & Hlen & _).
        rewrite <- Hlen. eapply lookup_lt_Some, Hi. }
      destruct (lookup_lt_is_Some_2 _ _ Hlt) as [co0 Hi0].
      destruct (Hc i co0 Hi0) as [Hi'|Hi']; rewrite Hi in Hi'; injection Hi' as ->.
      * exact (H i co0 Hi0 Hl He).
      * rewrite cancel_coro_done in Hl. discriminate.
    + exists added. split; [exact Ht | apply no_transmission_of_routing, Hq].
  - unfold reconnect, bind, set_rflink_protocol. simpl. destruct (stopping w).
    + apply (Hsame _ []); [reflexivity | simpl; rewrite app_nil_r; reflexivity | intros ? []].
    + apply (Hsame _ [AddJobConnect]); [reflexivity | reflexivity|].
      intros eff [<-|[]]. exact I.
  - apply (Hsame _ [ListenStop p]); [reflexivity | reflexivity|]. intros eff [<-|[]]. exact I.
  - rewrite connect_raise_run. destruct (caught ex).
    + apply (Hsame _ [CallLaterReconnect (CONF_RECONNECT_INTERVAL config)]);
        [reflexivity | reflexivity|]. intros eff [<-|[]]. exact I.
    + apply (Hsame _ []); [reflexivity | simpl; rewrite app_nil_r; reflexivity | intros ? []].
  - apply (Hsame _ []); [reflexivity | simpl; rewrite app_nil_r; reflexivity | intros ? []].
Qed.

Lemma background_ops_no_pending
    (config : Config) (e : nat) (ops : list Op) (w : World) :
  no_pending e w -> Forall is_background_op ops ->
  no_pending e (exec_ops config ops w) /\
  exists added,
    trace (exec_ops config ops w) = trace w ++ added /\ no_transmission_of e added.
Proof.
  intros H Hops. revert w H. induction Hops as [|op ops Hop _ IH]; intros w H; simpl.
  - split; [exact H|]. exists []. rewrite app_nil_r. split; [reflexivity | intros ? ? ? ? ? []].
  - destruct (background_op_no_pending config e op w Hop H) as (H1 & a1 & T1 & N1).
    destruct (IH _ H1) as (H2 & a2 & T2 & N2).
    split; [exact H2|]. exists (a1 ++ a2). rewrite T2, T1, app_assoc. split; [reflexivity|].
    intros c p a dev x Hin. apply in_app_or in Hin as [Hin|Hin]; [eapply N1 | eapply N2]; eauto.
Qed.



(** X13.  A queued repetition that runs while no protocol is bound fails
    with [AttributeError] inside its task: nothing is transmitted, no further
    repetition is queued, and no reconnect brings the repetitions back. *)
Theorem repetition_lost_when_disconnected
    (config : Config) (w : World) (t : nat) (co : Coro) (d : Entity) :
  tasks w !! t = Some co -> co_state co = Scheduled ->
  entities w !! co_self co = Some d ->
  unbound w ->
  let w1 := run_task t w in
  trace w1 = trace w /\ length (tasks w1) = length (tasks w) /\
  tasks w1 !! t = Some (with_co_state (Failed AttributeError) co) /\
  (forall ops,
     exists added, trace (exec_ops config ops w1) = trace w ++ added /\
       forall e p a dev x, ~ In (Transmit e t p a dev x) added) /\
  ((forall i co', tasks w !! i = Some co' -> is_live co' = true ->
      co_self co' = co_self co -> i = t) ->
   forall ops, Forall is_background_op ops ->
     exists added, trace (exec_ops config ops w1) = trace w ++ added /\
       no_transmission_of (co_self co) added).
Proof.
  intros Ht Hs He Hu. cbv zeta.
  assert (Hrun : run_task t w = fail_world t AttributeError w).
  { unfold run_task. rewrite Ht, Hs.
    rewrite (resume_scheduled_unbound t co d w Ht Hs He Hu). reflexivity. }
  rewrite Hrun.
  assert (Ht1 : tasks (fail_world t AttributeError w) !! t
                = Some (with_co_state (Failed AttributeError) co)).
  { unfold fail_world. simpl. rewrite list_lookup_alter_eq, Ht. reflexivity. }
  split; [reflexivity|]. split; [apply length_alter|]. split; [exact Ht1|]. split.
  - intros ops.
    destruct (silent_exec_ops t (with_co_state (Failed AttributeError) co) eq_refl config ops
                (fail_world t AttributeError w) Ht1) as (_ & added & Ha & Hn).
    exists added. split; [exact Ha | exact Hn].
  - intros Hsole ops Hops.
    assert (Hnp : no_pending (co_self co) (fail_world t AttributeError w)).
    { intros i co' Hi Hl Hself. unfold fail_world in Hi. simpl in Hi.
      destruct (decide (i = t)) as [->|Hne].
      - rewrite list_lookup_alter_eq, Ht in Hi. simpl in Hi. injection Hi as <-. discriminate.
      - rewrite list_lookup_alter_ne in Hi by auto. apply Hne. eauto. }
    destruct (background_ops_no_pending config (co_self co) ops _ Hnp Hops)
      as (_ & added & Ha & Hn).
    exists added. split; [exact Ha | exact Hn].
Qed.

Lemma repetition_lost_when_disconnected_witness :
  trace (run_task 1 (snd (reconnect (demo_pending 3)))) = trace (snd (reconnect (demo_pending 3))) /\
  tasks (run_task 1 (snd (reconnect (demo_pending 3)))) !! 1 =
    Some {| co_self := 0; co_cmd := "on"; co_repetitions := 2; co_top := false;
            co_state := Failed AttributeError |} /\
  transmissions
    (trace (run_until_idle (demo_config false) 6
              (snd (connect (demo_config false) (Ok 4)
                      (run_task 1 (snd (reconnect (demo_pending 3)))))))) = [("D1", "on")].
Proof.
  destruct (repetition_lost_when_disconnected (demo_config false) (snd (reconnect (demo_pending 3))) 1
              {| co_self := 0; co_cmd := "on"; co_repetitions := 2; co_top := false;
                 co_state := Scheduled |}
              (with_repetition_task (Some 1) (with_state (PyBool true) (demo_switch 3))))
    as (H1 & _ & H3 & _).
  - reflexivity.
  - reflexivity.
  - reflexivity.
  - right. reflexivity.
  - split; [exact H1|]. split; [exact H3 | reflexivity].
Defined.


(** * Entities keep their configuration *)

Lemma configuration_frame_refl w : configuration_frame w w.
Proof. intros h. reflexivity. Qed.

Lemma configuration_frame_trans a b c :
  configuration_frame a b -> configuration_frame b c -> configuration_frame a c.
Proof. intros H1 H2 h. rewrite H2. apply H1. Qed.

Lemma configuration_frame_same w w' : entities w' = entities w -> configuration_frame w w'.
Proof. intros H h. rewrite H. reflexivity. Qed.

Lemma configuration_frame_alter f e w :
  (forall d, configuration (f d) = configuration d) ->
  configuration_frame w (with_entities (alter f e (entities w)) w).
Proof.
  intros Hf h. simpl. destruct (decide (h = e)) as [->|Hne].
  - rewrite list_lookup_alter_eq. destruct (entities w !! e); simpl; [rewrite Hf|]; reflexivity.
  - rewrite list_lookup_alter_ne; auto.
Qed.

Lemma configuration_frame_rest c co w : configuration_frame w (rest_world c co w).
Proof.
  intros h. rewrite rest_world_entities. destruct (1 <? co_repetitions co)%Z; [|reflexivity].
  apply (configuration_frame_alter _ (co_self co) w). reflexivity.
Qed.

Lemma configuration_frame_resume c : framed configuration_frame (resume c).
Proof.
  intros w. rewrite resume_cases.
  destruct (tasks w !! c) as [co|]; [|apply configuration_frame_same; reflexivity].
  destruct (co_state co); try apply configuration_frame_refl.
  - unfold send_outcome.
    destruct (entities w !! co_self co) as [d|]; [|apply configuration_frame_same; reflexivity].
    destruct (_wait_ack w) as [[|]|]; destruct (_protocol w) as [[p|]|];
      try (apply configuration_frame_same; reflexivity).
    apply (configuration_frame_rest c co (transmit_world c co p false (_device_id d) w)).
  - apply configuration_frame_rest.
Qed.

(** X15.  Whatever happens, an entity keeps its class, entity id, device
    id, name, aliases, [fire_event] flag and number of repetitions: only
    [_state] and [_repetition_task] are ever assigned. *)
Theorem entity_configuration_is_immutable
    (config : Config) (ops : list Op) (w : World) (h : nat) (d d' : Entity) :
  entities w !! h = Some d ->
  entities (exec_ops config ops w) !! h = Some d' ->
  cls d' = cls d /\ entity_id d' = entity_id d /\ _device_id d' = _device_id d /\
  _name d' = _name d /\ _aliasses d' = _aliasses d /\
  _should_fire_event d' = _should_fire_event d /\
  _signal_repetitions d' = _signal_repetitions d.
Proof.
  intros Hd Hd'.
  assert (H : configuration_frame w (exec_ops config ops w)).
  { apply framed_exec_ops.
    - apply configuration_frame_refl.
    - apply configuration_frame_trans.
    - intros eff _ w'. apply configuration_frame_same. reflexivity.
    - intros e s w'. apply (configuration_frame_alter _ e w'). reflexivity.
    - intros t w'. apply configuration_frame_same. reflexivity.
    - intros co w'. apply configuration_frame_same. reflexivity.
    - apply configuration_frame_resume.
    - intros x w'. apply configuration_frame_same. reflexivity.
    - intros p a w'. apply configuration_frame_same. destruct a; reflexivity.
    - intros b w'. apply configuration_frame_same. reflexivity. }
  specialize (H h). rewrite Hd, Hd' in H. simpl in H. unfold configuration in H.
  injection H as -> -> -> -> -> -> ->. repeat split; reflexivity.
Qed.

Lemma entity_configuration_is_immutable_witness :
  exists d',
    entities (exec_ops (demo_config true)
                [OpCommand 0 "turn_on" []; OpAck 0; OpEvent demo_off; OpDisconnect]
                (demo_world true 3)) !! 0 = Some d' /\
    _state d' = PyBool false /\
    _device_id d' = "D1" /\ _should_fire_event d' = false /\ _signal_repetitions d' = 3%Z.
Proof.
  eexists. split; [reflexivity|]. split; [reflexivity|].
  destruct (entity_configuration_is_immutable (demo_config true)
              [OpCommand 0 "turn_on" []; OpAck 0; OpEvent demo_off; OpDisconnect]
              (demo_world true 3) 0 (demo_switch 3) _ eq_refl eq_refl)
    as (_ & _ & H3 & _ & _ & H6 & H7).
  split; [exact H3|]. split; [exact H6 | exact H7].
Defined.

(** * What a delivered event makes an entity do *)

Lemma configuration_frame__handle_event e event :
  framed configuration_frame (_handle_event e event).
Proof.
  apply framed__handle_event.
  - apply configuration_frame_refl.
  - apply configuration_frame_trans.
  - intros eff _ w. apply configuration_frame_same. reflexivity.
  - intros h s w. apply (configuration_frame_alter _ h w). reflexivity.
  - intros t w. apply configuration_frame_same. reflexivity.
Qed.

Lemma state_effects__handle_event e event :
  framed (effects_frame is_state_effect) (_handle_event e event).
Proof.
  pose proof (effects_frame_trans is_state_effect) as Htrans.
  pose proof (effects_frame_refl is_state_effect) as Hrefl.
  unfold _handle_event. apply framed_bind; [exact Htrans | apply framed_self_get, Hrefl|].
  intros d. destruct (cls d); try (apply framed_raise, Hrefl).
  - apply framed_bind; [exact Htrans | apply effects_cancel_queued; intros; exact I|]. intros _.
    repeat case_match; try (apply framed_ret, Hrefl); try (apply framed_raise, Hrefl);
      apply effects_set_state; exact I.
  - case_match; [apply effects_set_state; exact I | apply framed_raise, Hrefl].
Qed.

Lemma identify_event_type_command event :
  String.eqb (identify_event_type event) EVENT_KEY_COMMAND =
  match event !! EVENT_KEY_COMMAND with Some _ => true | None => false end.
Proof.
  unfold identify_event_type. destruct (event !! EVENT_KEY_COMMAND); [reflexivity|].
  destruct (event !! EVENT_KEY_SENSOR); reflexivity.
Qed.

Lemma handle_event_body_after e event w0 w1 d1 :
  _handle_event e event w0 = (Ok tt, w1) -> entities w1 !! e = Some d1 ->
  handle_event_body e event w0 =
  (Ok tt,
   with_trace (trace w1 ++ UpdateHaState e ::
                 match event !! EVENT_KEY_COMMAND with
                 | Some command =>
                     if _should_fire_event d1 then [BusFire (entity_id d1) command] else []
                 | None => []
                 end) w1).
Proof.
  intros Hrun He1. unfold handle_event_body, bind. rewrite Hrun.
  unfold emit, self_get. cbn [entities with_trace]. rewrite He1, identify_event_type_command.
  destruct (event !! EVENT_KEY_COMMAND) as [command|].
  - destruct (_should_fire_event d1); cbn; [rewrite <- app_assoc|]; reflexivity.
  - rewrite andb_false_r. reflexivity.
Qed.

(** X4.  When the class's handler accepts the event, [handle_event]
    returns; after the handler's cancellations and state assignments it
    schedules the state update, and it fires "button_pressed" with the
    entity id and the command exactly when [fire_event] was configured and
    the event is a command.  A sensor reading never fires. *)
Theorem handled_event_fires_iff_configured (e : nat) (d : Entity) (event : Event) (w : World) :
  entities w !! e = Some d -> accepts (cls d) event ->
  fst (handle_event e event w) = Ok tt /\
  exists mid,
    trace (snd (handle_event e event w)) =
      trace w ++ HandleEvent e event :: mid ++ UpdateHaState e ::
        match event !! EVENT_KEY_COMMAND with
        | Some command => if _should_fire_event d then [BusFire (entity_id d) command] else []
        | None => []
        end /\
    Forall is_state_effect mid.
Proof.
  intros He Hacc. rewrite handle_event_unfold.
  set (w0 := with_trace (trace w ++ [HandleEvent e event]) w).
  assert (He0 : entities w0 !! e = Some d) by exact He.
  pose proof (_handle_event_accepts e d event w0 He0 Hacc) as Hok.
  pose proof (state_effects__handle_event e event w0) as (_ & mid & Hmid & Hq).
  pose proof (configuration_frame__handle_event e event w0 e) as Hc.
  destruct (_handle_event e event w0) as [r w1] eqn:Hrun. simpl in Hok, Hmid. subst r.
  cbn [snd] in Hc. rewrite He0 in Hc.
  destruct (entities w1 !! e) as [d1|] eqn:He1; [|discriminate].
  simpl in Hc. unfold configuration in Hc.
  injection Hc as _ Hid _ _ _ Hfire _.
  rewrite (handle_event_body_after e event w0 w1 d1 Hrun He1), Hfire, Hid.
  split; [reflexivity|]. exists mid. split; [|exact Hq].
  cbn [snd trace with_trace]. rewrite Hmid. unfold w0. cbn [trace with_trace].
  rewrite <- !app_assoc. reflexivity.
Qed.

Lemma handled_event_fires_iff_configured_witness :
  exists mid,
    trace (snd (handle_event 0 {[ "id" := "newkaku_0" ; "command" := "on" ]}
                  (demo_world true 1))) =
      HandleEvent 0 {[ "id" := "newkaku_0" ; "command" := "on" ]} :: mid ++
      [UpdateHaState 0] /\ Forall is_state_effect mid.
Proof.
  destruct (handled_event_fires_iff_configured 0 (demo_switch 1)
              {[ "id" := "newkaku_0" ; "command" := "on" ]} (demo_world true 1)
              eq_refl ltac:(eexists; reflexivity)) as (_ & mid & H1 & H2).
  exists mid. split; [exact H1 | exact H2].
Defined.

(** * A command issued while repetitions are pending *)

Lemma cancel_world_sole_idle d t w :
  _repetition_task d = Some t -> sole_live t w -> idle (cancel_world d w).
Proof.
  intros Hrep Hsole i co Hi. unfold cancel_world in Hi. rewrite Hrep in Hi. simpl in Hi.
  destruct (decide (i = t)) as [->|Hne].
  - rewrite list_lookup_alter_eq in Hi. destruct (tasks w !! t); [|discriminate].
    simpl in Hi. injection Hi as <-. apply cancel_coro_done.
  - rewrite list_lookup_alter_ne in Hi by auto.
    destruct (is_live co) eqn:Hl; [|reflexivity]. exfalso. apply Hne. eauto.
Qed.

Lemma launch_world_sole_live_after_cancel e d cmd s w :
  idle (cancel_world d w) -> sole_live (length (tasks w)) (launch_world e d cmd s w).
Proof.
  intros Hidle i co Hi Hl. unfold launch_world, spawn_world, state_world in Hi. simpl in Hi.
  apply lookup_app_Some in Hi as [Hi|[Hge Hi]].
  - rewrite (Hidle i co Hi) in Hl. discriminate.
  - apply list_lookup_singleton_Some in Hi as [Hi _].
    rewrite cancel_world_tasks_length in *. lia.
Qed.

Lemma launched_command_runs config e d w command args cmd s p ack R :
  entities w !! e = Some d ->
  _signal_repetitions d = R -> (1 <= R)%Z ->
  _protocol w = Some (Some p) -> _wait_ack w = Some ack ->
  idle (cancel_world d w) ->
  command_payload command args cmd s ->
  forall fuel, 2 * Z.to_nat R <= fuel ->
    idle (run_until_idle config fuel (snd (_async_handle_command e command args w))) /\
    transmissions (trace (run_until_idle config fuel
                            (snd (_async_handle_command e command args w)))) =
      transmissions (trace w) ++ replicate (Z.to_nat R) (_device_id d, cmd).
Proof.
  intros He HR HR1 Hp Ha Hidle Hpay fuel Hfuel.
  rewrite (handle_command_run e d w command args cmd s He Hpay).
  fold (launch_world e d cmd s w).
  set (wl := launch_world e d cmd s w). set (n := length (tasks w)).
  assert (Hc : tasks wl !! n = Some (top_coro e cmd d)) by apply launch_world_lookup.
  assert (Hel : entities wl !! e = Some (with_state (PyBool s) d))
    by (apply launch_world_entity; exact He).
  assert (Hpl : _protocol wl = Some (Some p))
    by (unfold wl, launch_world; simpl; rewrite cancel_world_protocol; exact Hp).
  assert (Hal : _wait_ack wl = Some ack)
    by (unfold wl, launch_world; simpl; rewrite cancel_world_wait_ack; exact Ha).
  assert (Hsole : sole_live n wl) by (apply launch_world_sole_live_after_cancel; exact Hidle).
  assert (Htl : transmissions (trace wl) = transmissions (trace w))
    by apply launch_world_transmissions.
  assert (Hstep : run_until_idle config (S fuel) wl =
                  run_until_idle config fuel (snd (resume n wl))).
  { simpl. rewrite (sole_live_next_ready n (top_coro e cmd d) wl Hc eq_refl Hsole). simpl.
    unfold run_task. rewrite Hc. reflexivity. }
  rewrite <- Hstep.
  destruct (chain config e (_device_id d) cmd p ack (2 * Z.to_nat R) wl n (top_coro e cmd d)
              (S fuel)) as (Hi & Ht);
    [exact Hc | reflexivity | exact Hsole | reflexivity | reflexivity
    | simpl; lia | rewrite Hel; reflexivity | exact Hpl | exact Hal
    | unfold steps_left; simpl; rewrite HR; lia | lia | ].
  split; [exact Hi|]. rewrite Ht, Htl. unfold remaining. simpl. rewrite HR. reflexivity.
Qed.

(** X8.  A command issued while the repetition task of the previous one
    is pending and on record replaces it: once the loop has come to rest the
    new payload has been transmitted [R] times and the old one not once
    more. *)
Theorem superseding_command_transmits_alone
    (config : Config) (w : World) (e : nat) (d : Entity) (t : nat) (coA : Coro)
    (command : string) (args : list Z) (cmdB : string) (s : bool)
    (p : nat) (ack : bool) (R : Z) :
  entities w !! e = Some d ->
  _repetition_task d = Some t ->
  tasks w !! t = Some coA -> is_live coA = true -> sole_live t w ->
  _signal_repetitions d = R -> (1 <= R)%Z ->
  _protocol w = Some (Some p) -> _wait_ack w = Some ack ->
  command_payload command args cmdB s ->
  forall fuel, 2 * Z.to_nat R <= fuel ->
    let w2 := run_until_idle config fuel (snd (_async_handle_command e command args w)) in
    idle w2 /\
    transmissions (trace w2) =
      transmissions (trace w) ++ replicate (Z.to_nat R) (_device_id d, cmdB).
Proof.
  intros He Hrep _ _ Hsole HR HR1 Hp Ha Hpay fuel Hfuel. cbv zeta.
  apply (launched_command_runs config e d w command args cmdB s p ack R); auto.
  apply (cancel_world_sole_idle d t w Hrep Hsole).
Qed.

(** * Commands that fail before they are sent *)

Lemma handle_command_dim_no_argument e d w :
  entities w !! e = Some d ->
  _async_handle_command e "dim" [] w = (Raise IndexError, cancel_world d w).
Proof.
  intros He. unfold _async_handle_command. unfold bind at 1.
  rewrite (cancel_queued_send_commands_run e d w He). reflexivity.
Qed.

(** X10.  "dim" without a brightness raises [IndexError] on [args[0]].
    Nothing is transmitted and [_state] keeps its value, but the
    cancellation has already happened: the pending repetitions of the
    previous command are lost. *)
Theorem dim_without_argument_drops_pending_repeats
    (config : Config) (w : World) (e : nat) (d : Entity) (t : nat) (coA : Coro) :
  entities w !! e = Some d ->
  _repetition_task d = Some t ->
  tasks w !! t = Some coA -> is_live coA = true -> sole_live t w ->
  let r := _async_handle_command e "dim" [] w in
  fst r = Raise IndexError /\
  entities (snd r) = entities w /\
  length (tasks (snd r)) = length (tasks w) /\
  co_state <$> tasks (snd r) !! t = Some Cancelled /\
  forall fuel,
    transmissions (trace (run_until_idle config fuel (snd r))) = transmissions (trace w).
Proof.
  intros He Hrep Ht Hl Hsole. cbv zeta. rewrite (handle_command_dim_no_argument e d w He).
  cbn [fst snd]. split; [reflexivity|].
  split; [apply cancel_world_entities|].
  split; [apply cancel_world_tasks_length|].
  split.
  - rewrite (cancel_world_task d w t coA Hrep Ht). simpl. unfold cancel_coro. rewrite Hl.
    reflexivity.
  - intros fuel. rewrite idle_run_until_idle by (apply (cancel_world_sole_idle d t w Hrep Hsole)).
    apply cancel_world_transmissions.
Qed.

Lemma demo_pending_sole_live : sole_live 1 (demo_pending 3).
Proof.
  intros i co Hi Hl. destruct i as [|[|[|i]]]; simpl in Hi; try discriminate.
  - injection Hi as <-. discriminate.
  - reflexivity.
Qed.

Lemma superseding_command_transmits_alone_witness :
  transmissions
    (trace (run_until_idle (demo_config false) 6
              (snd (_async_handle_command 0 "turn_off" [] (demo_pending 3))))) =
  transmissions (trace (demo_pending 3)) ++ replicate 3 ("D1", "off").
Proof.
  apply (superseding_command_transmits_alone (demo_config false) (demo_pending 3) 0
           (with_repetition_task (Some 1) (with_state (PyBool true) (demo_switch 3))) 1
           {| co_self := 0; co_cmd := "on"; co_repetitions := 2; co_top := false;
              co_state := Scheduled |}
           "turn_off" [] "off" false 0 false 3
           eq_refl eq_refl eq_refl eq_refl demo_pending_sole_live eq_refl
           ltac:(lia) eq_refl eq_refl ltac:(constructor) 6 ltac:(simpl; lia)).
Defined.

Lemma dim_without_argument_drops_pending_repeats_witness :
  fst (_async_handle_command 0 "dim" [] (demo_pending 3)) = Raise IndexError /\
  forall fuel,
    transmissions
      (trace (run_until_idle (demo_config false) fuel
                (snd (_async_handle_command 0 "dim" [] (demo_pending 3))))) =
    transmissions (trace (demo_pending 3)).
Proof.
  destruct (dim_without_argument_drops_pending_repeats (demo_config false) (demo_pending 3) 0
              (with_repetition_task (Some 1) (with_state (PyBool true) (demo_switch 3))) 1
              {| co_self := 0; co_cmd := "on"; co_repetitions := 2; co_top := false;
                 co_state := Scheduled |}
              eq_refl eq_refl eq_refl eq_refl demo_pending_sole_live) as (H1 & _ & _ & _ & H5).
  split; [exact H1 | exact H5].
Defined.

(** * Commands that overlap on the acknowledgment *)

Lemma command_suspends e d w command args cmd s p :
  entities w !! e = Some d ->
  _protocol w = Some (Some p) -> _wait_ack w = Some true ->
  command_payload command args cmd s ->
  let w1 := snd (_async_handle_command e command args w) in
  tasks w1 = tasks (cancel_world d w) ++ [with_co_state AwaitingAck (top_coro e cmd d)] /\
  entities w1 = alter (with_state (PyBool s)) e (entities w) /\
  transmissions (trace w1) = transmissions (trace w) ++ [(_device_id d, cmd)] /\
  _protocol w1 = _protocol w /\ _wait_ack w1 = _wait_ack w.
Proof.
  intros He Hp Ha Hpay. cbv zeta.
  rewrite (handle_command_run e d w command args cmd s He Hpay).
  fold (launch_world e d cmd s w).
  rewrite (resume_scheduled_ack _ (top_coro e cmd d) (with_state (PyBool s) d) p).
  - cbn [snd]. unfold transmit_world, launch_world, spawn_world, state_world.
    cbn [tasks entities trace _protocol _wait_ack with_tasks with_trace with_entities co_self
         top_coro co_cmd _device_id with_state].
    repeat split.
    + rewrite <- (cancel_world_tasks_length d w), <- (Nat.add_0_r (length _)).
      rewrite alter_app_r. reflexivity.
    + rewrite cancel_world_entities. reflexivity.
    + rewrite !transmissions_app, cancel_world_transmissions. simpl. rewrite app_nil_r.
      reflexivity.
    + apply cancel_world_protocol.
    + apply cancel_world_wait_ack.
  - apply launch_world_lookup.
  - reflexivity.
  - apply launch_world_entity. exact He.
  - unfold launch_world. simpl. rewrite cancel_world_wait_ack. exact Ha.
  - unfold launch_world. simpl. rewrite cancel_world_protocol. exact Hp.
Qed.

Lemma ack_spawns c co w :
  tasks w !! c = Some co -> co_state co = AwaitingAck -> (1 < co_repetitions co)%Z ->
  let w1 := deliver_ack c w in
  tasks w1 = alter (with_co_state Finished) c (tasks w ++ [child_of co]) /\
  entities w1 =
    alter (with_repetition_task (Some (length (tasks w)))) (co_self co) (entities w) /\
  transmissions (trace w1) = transmissions (trace w) /\
  _protocol w1 = _protocol w /\ _wait_ack w1 = _wait_ack w.
Proof.
  intros Hc Hs Hr. cbv zeta. unfold deliver_ack. rewrite Hc, Hs, resume_cases, Hc, Hs.
  apply Z.ltb_lt in Hr.
  rewrite rest_world_tasks, rest_world_entities, rest_world_transmissions, Hr.
  repeat split; apply rest_world_binding.
Qed.

Lemma run_transmits c co d p w :
  tasks w !! c = Some co -> co_state co = Scheduled ->
  entities w !! co_self co = Some d ->
  _protocol w = Some (Some p) -> _wait_ack w = Some true ->
  transmissions (trace (run_task c w)) = transmissions (trace w) ++ [(_device_id d, co_cmd co)].
Proof.
  intros Hc Hs Hd Hp Ha. unfold run_task. rewrite Hc, Hs.
  rewrite (resume_scheduled_ack c co d p w Hc Hs Hd Ha Hp). cbn [snd].
  unfold transmit_world. cbn [trace with_tasks with_trace].
  rewrite transmissions_app. reflexivity.
Qed.

(** X9.  Two commands to one entity that both wait for their
    acknowledgment each queue a repetition, and only the later one is on
    record in [_repetition_task].  The repetition of the first command is
    out of reach of [cancel_queued_send_commands]: a third command cancels
    the recorded task only, and the first payload is transmitted again
    after it. *)
Theorem overlapping_commands_leave_unrecorded_repeat
    (config : Config) (w : World) (e : nat) (d : Entity) (p : nat) (R : Z)
    (commandA : string) (argsA : list Z) (A : string) (sA : bool)
    (commandB : string) (argsB : list Z) (B : string) (sB : bool) :
  entities w !! e = Some d ->
  _repetition_task d = None ->
  _signal_repetitions d = R -> (2 <= R)%Z ->
  _protocol w = Some (Some p) -> _wait_ack w = Some true ->
  command_payload commandA argsA A sA ->
  command_payload commandB argsB B sB ->
  let n := length (tasks w) in
  let w4 := exec_ops config [OpCommand e commandA argsA; OpCommand e commandB argsB;
                             OpAck n; OpAck (S n)] w in
  transmissions (trace w4) =
    transmissions (trace w) ++ [(_device_id d, A); (_device_id d, B)] /\
  tasks w4 !! (n + 2) =
    Some {| co_self := e; co_cmd := A; co_repetitions := R - 1;
            co_top := false; co_state := Scheduled |} /\
  _repetition_task <$> entities w4 !! e = Some (Some (n + 3)) /\
  forall commandC argsC C sC,
    command_payload commandC argsC C sC ->
    transmissions
      (trace (exec_ops config [OpCommand e commandC argsC; OpRunTask (n + 2)] w4)) =
    transmissions (trace w) ++
      [(_device_id d, A); (_device_id d, B); (_device_id d, C); (_device_id d, A)].
Proof.
  intros He Hrep HR HR2 Hp Ha HpA HpB. cbv zeta.
  set (n := length (tasks w)).
  unfold exec_ops. cbn [foldl]. unfold exec_op.
  (* command A suspends on its acknowledgment *)
  destruct (command_suspends e d w commandA argsA A sA p He Hp Ha HpA)
    as (T1 & E1 & M1 & P1 & A1).
  set (w1 := snd (_async_handle_command e commandA argsA w)) in *.
  assert (C1 : cancel_world d w = w) by (unfold cancel_world; rewrite Hrep; reflexivity).
  rewrite C1 in T1. rewrite Hp in P1. rewrite Ha in A1.
  set (d1 := with_state (PyBool sA) d).
  assert (He1 : entities w1 !! e = Some d1)
    by (rewrite E1, list_lookup_alter_eq, He; reflexivity).
  (* command B is issued meanwhile and suspends as well *)
  destruct (command_suspends e d1 w1 commandB argsB B sB p He1 P1 A1 HpB)
    as (T2 & E2 & M2 & P2 & A2).
  set (w2 := snd (_async_handle_command e commandB argsB w1)) in *.
  assert (C2 : cancel_world d1 w1 = w1) by (unfold cancel_world; simpl; rewrite Hrep; reflexivity).
  rewrite C2 in T2. rewrite P1 in P2. rewrite A1 in A2.
  set (a := with_co_state AwaitingAck (top_coro e A d)) in *.
  set (b := with_co_state AwaitingAck (top_coro e B d1)) in *.
  set (d2 := with_state (PyBool sB) d1).
  assert (He2 : entities w2 !! e = Some d2)
    by (rewrite E2, list_lookup_alter_eq, He1; reflexivity).
  assert (L1 : length (tasks w1) = S n) by (rewrite T1, length_app; simpl; lia).
  assert (L2 : length (tasks w2) = S (S n)) by (rewrite T2, length_app; simpl; lia).
  (* A's acknowledgment arrives: its repetition goes on record *)
  assert (Hn2 : tasks w2 !! n = Some a).
  { rewrite T2, lookup_app_l by lia. rewrite T1. apply list_lookup_middle. reflexivity. }
  destruct (ack_spawns n a w2 Hn2 eq_refl) as (T3 & E3 & M3 & P3 & A3);
    [simpl; lia|].
  set (w3 := deliver_ack n w2) in *.
  rewrite L2 in E3. rewrite P2 in P3. rewrite A2 in A3.
  assert (L3 : length (tasks w3) = S (S (S n)))
    by (rewrite T3, length_alter, length_app, L2; simpl; lia).
  assert (Hb3 : tasks w3 !! S n = Some b).
  { rewrite T3, list_lookup_alter_ne by lia. rewrite lookup_app_l by lia.
    rewrite T2. apply list_lookup_middle. exact (eq_sym L1). }
  (* B's acknowledgment arrives: its repetition replaces A's on record *)
  destruct (ack_spawns (S n) b w3 Hb3 eq_refl) as (T4 & E4 & M4 & P4 & A4);
    [simpl; lia|].
  set (w4 := deliver_ack (S n) w3) in *.
  rewrite L3 in E4. rewrite P3 in P4. rewrite A3 in A4.
  change (co_self a) with e in E3. change (co_self b) with e in E4.
  set (d4 := with_repetition_task (Some (S (S (S n))))
               (with_repetition_task (Some (S (S n))) d2)).
  assert (He4 : entities w4 !! e = Some d4).
  { rewrite E4, list_lookup_alter_eq, E3, list_lookup_alter_eq, He2. reflexivity. }
  assert (Ha4 : tasks w4 !! (n + 2) = Some (child_of a)).
  { rewrite T4, list_lookup_alter_ne by lia. rewrite lookup_app_l by lia.
    rewrite T3, list_lookup_alter_ne by lia. apply list_lookup_middle. lia. }
  assert (M : transmissions (trace w4) =
              transmissions (trace w) ++ [(_device_id d, A); (_device_id d, B)]).
  { rewrite M4, M3, M2, M1, <- app_assoc. reflexivity. }
  split; [exact M|]. split; [rewrite Ha4; unfold child_of; simpl; rewrite HR; reflexivity|].
  split; [rewrite He4; simpl; do 3 f_equal; lia|].
  (* a third command cancels the task on record, not A's repetition *)
  intros commandC argsC C sC HpC.
  destruct (command_suspends e d4 w4 commandC argsC C sC p He4 P4 A4 HpC)
    as (T5 & E5 & M5 & P5 & A5).
  set (w5 := snd (_async_handle_command e commandC argsC w4)) in *.
  rewrite P4 in P5. rewrite A4 in A5.
  assert (Ha5 : tasks w5 !! (n + 2) = Some (child_of a)).
  { rewrite T5. unfold cancel_world. change (_repetition_task d4) with (Some (S (S (S n)))).
    cbn [tasks with_tasks with_trace].
    rewrite lookup_app_l by (rewrite length_alter, T4, length_alter, length_app, L3; simpl; lia).
    rewrite list_lookup_alter_ne by lia. exact Ha4. }
  rewrite (run_transmits (n + 2) (child_of a) (with_state (PyBool sC) d4) p w5 Ha5 eq_refl);
    [| change (co_self (child_of a)) with e; rewrite E5, list_lookup_alter_eq, He4; reflexivity
     | exact P5 | exact A5].
  rewrite M5, M, <- !app_assoc. reflexivity.
Qed.

Lemma overlapping_commands_leave_unrecorded_repeat_witness :
  transmissions
    (trace (exec_ops (demo_config true)
              [OpCommand 0 "turn_on" []; OpCommand 0 "turn_off" []; OpAck 0; OpAck 1]
              (demo_world true 3))) = [("D1", "on"); ("D1", "off")] /\
  forall commandC argsC C sC,
    command_payload commandC argsC C sC ->
    transmissions
      (trace (exec_ops (demo_config true) [OpCommand 0 commandC argsC; OpRunTask 2]
                (exec_ops (demo_config true)
                   [OpCommand 0 "turn_on" []; OpCommand 0 "turn_off" []; OpAck 0; OpAck 1]
                   (demo_world true 3)))) =
    [("D1", "on"); ("D1", "off"); ("D1", C); ("D1", "on")].
Proof.
  destruct (overlapping_commands_leave_unrecorded_repeat (demo_config true) (demo_world true 3)
              0 (demo_switch 3) 0 3 "turn_on" [] "on" true "turn_off" [] "off" false
              eq_refl eq_refl eq_refl ltac:(lia) eq_refl eq_refl
              ltac:(constructor) ltac:(constructor)) as (H1 & _ & _ & H4).
  split; [exact H1 | exact H4].
Defined.

(** * The reported state *)

Lemma state_frame_refl w : state_frame w w.
Proof. intros h. reflexivity. Qed.

Lemma state_frame_trans a b c : state_frame a b -> state_frame b c -> state_frame a c.
Proof. intros H1 H2 h. rewrite H2. apply H1. Qed.

Lemma state_frame_same w w' : entities w' = entities w -> state_frame w w'.
Proof. intros H h. rewrite H. reflexivity. Qed.

Lemma state_frame_rest c co w : state_frame w (rest_world c co w).
Proof.
  intros h. rewrite rest_world_entities. destruct (1 <? co_repetitions co)%Z; [|reflexivity].
  destruct (decide (h = co_self co)) as [->|Hne].
  - rewrite list_lookup_alter_eq. destruct (entities w !! co_self co); reflexivity.
  - rewrite list_lookup_alter_ne; auto.
Qed.

Lemma state_frame_resume c : framed state_frame (resume c).
Proof.
  intros w. rewrite resume_cases.
  destruct (tasks w !! c) as [co|]; [|apply state_frame_same; reflexivity].
  destruct (co_state co); try apply state_frame_refl.
  - unfold send_outcome.
    destruct (entities w !! co_self co) as [d|]; [|apply state_frame_same; reflexivity].
    destruct (_wait_ack w) as [[|]|]; destruct (_protocol w) as [[p|]|];
      try (apply state_frame_same; reflexivity).
    apply (state_frame_rest c co (transmit_world c co p false (_device_id d) w)).
  - apply state_frame_rest.
Qed.

Lemma state_frame_exec_op config op w :
  is_system_op op -> state_frame w (exec_op config op w).
Proof.
  destruct op as [e command args|t|c|event| |[p|ex]|]; simpl; try contradiction; intros _.
  - unfold run_task. destruct (tasks w !! t) as [co|]; [|apply state_frame_refl].
    destruct (co_state co); try apply state_frame_refl. apply state_frame_resume.
  - unfold deliver_ack. destruct (tasks w !! c) as [co|]; [|apply state_frame_refl].
    destruct (co_state co); try apply state_frame_refl. apply state_frame_resume.
  - apply state_frame_same. unfold reconnect, bind, set_rflink_protocol. simpl.
    destruct (stopping w); reflexivity.
  - apply state_frame_same. reflexivity.
  - apply state_frame_same. destruct (caught ex); reflexivity.
  - apply state_frame_same. reflexivity.
Qed.

(** X14.  [is_on] and [assumed_state] of every entity change only when
    a command is given or an event is routed: repetitions, acknowledgments,
    disconnects, reconnects and the shutdown leave them as they are. *)
Theorem state_changes_only_on_command_or_event
    (config : Config) (ops : list Op) (w : World) :
  Forall is_system_op ops ->
  forall h, is_on <$> entities (exec_ops config ops w) !! h = is_on <$> entities w !! h /\
            assumed_state <$> entities (exec_ops config ops w) !! h =
              assumed_state <$> entities w !! h.
Proof.
  intros Hops.
  assert (H : state_frame w (exec_ops config ops w)).
  { revert w. induction Hops as [|op ops Hop _ IH]; intros w; simpl.
    - apply state_frame_refl.
    - eapply state_frame_trans; [apply state_frame_exec_op, Hop | apply IH]. }
  intros h. specialize (H h).
  destruct (entities (exec_ops config ops w) !! h) as [d'|], (entities w !! h) as [d|];
    simpl in *; try discriminate; [|split; reflexivity].
  injection H as H. unfold is_on, assumed_state. rewrite H. split; reflexivity.
Qed.

Lemma state_changes_only_on_command_or_event_witness :
  is_on <$> entities (exec_ops (demo_config false)
                        [OpRunTask 1; OpDisconnect; OpRunTask 2; OpConnect (Raise TimeoutError); OpStop]
                        (demo_pending 3)) !! 0 = Some true.
Proof.
  destruct (state_changes_only_on_command_or_event (demo_config false)
              [OpRunTask 1; OpDisconnect; OpRunTask 2; OpConnect (Raise TimeoutError); OpStop]
              (demo_pending 3) ltac:(repeat constructor) 0) as [H _].
  rewrite H. reflexivity.
Defined.

(** * Brightness *)

Lemma handle_command_state e d w command args cmd s :
  entities w !! e = Some d ->
  command_payload command args cmd s ->
  _state <$> entities (snd (_async_handle_command e command args w)) !! e = Some (PyBool s).
Proof.
  intros He Hpay. rewrite (handle_command_run e d w command args cmd s He Hpay).
  rewrite (state_frame_resume _ _ e). fold (launch_world e d cmd s w).
  rewrite (launch_world_entity e d cmd s w He). reflexivity.
Qed.

(** X11.  A brightness between 0 and 255 is sent as one of the sixteen
    levels 0 to 15; the level is 0 exactly below 17, and the entity reports
    on afterwards even then. *)
Theorem brightness_maps_to_sixteen_levels
    (w : World) (e : nat) (d : Entity) (p : nat) (ack : bool) (b : Z) (rest : list Z) :
  (0 <= b <= 255)%Z ->
  entities w !! e = Some d ->
  _protocol w = Some (Some p) -> _wait_ack w = Some ack ->
  exists level,
    dim_level b = Some level /\ (0 <= level <= 15)%Z /\
    (level = 0 <-> b < 17)%Z /\
    let w1 := snd (_async_handle_command e "dim" (b :: rest) w) in
    transmissions (trace w1) = transmissions (trace w) ++ [(_device_id d, str level)] /\
    is_on <$> entities w1 !! e = Some true.
Proof.
  intros Hb He Hp Ha. exists (b / 17)%Z.
  assert (Hl : dim_level b = Some (b / 17)%Z) by (apply int_truediv_17; lia).
  assert (Hpay : command_payload "dim" (b :: rest) (str (b / 17)) true)
    by (constructor; exact Hl).
  split; [exact Hl|]. split.
  { split; [apply Z.div_pos; lia|]. apply Z.lt_succ_r, Z.div_lt_upper_bound; lia. }
  split.
  { split; intros H.
    - destruct (Z_lt_ge_dec b 17) as [|Hge]; [assumption|]. exfalso.
      assert (1 <= b / 17)%Z by (apply Z.div_le_lower_bound; lia). lia.
    - apply Z.div_small. lia. }
  cbv zeta. split.
  - destruct (handle_command_first_transmission e d w "dim" (b :: rest) (str (b / 17)) true p ack
                He Hp Ha Hpay) as (before & after & Ht & Hb1 & Hb2).
    rewrite Ht, !transmissions_app, Hb1. simpl. rewrite Hb2. reflexivity.
  - pose proof (handle_command_state e d w "dim" (b :: rest) (str (b / 17)) true He Hpay) as Hs.
    destruct (entities (snd (_async_handle_command e "dim" (b :: rest) w)) !! e) as [d1|];
      [|discriminate].
    simpl in Hs. injection Hs as Hs. simpl. unfold is_on. rewrite Hs. reflexivity.
Qed.

Lemma brightness_maps_to_sixteen_levels_witness :
  exists level,
    dim_level 255 = Some level /\ (0 <= level <= 15)%Z /\
    transmissions (trace (snd (_async_handle_command 0 "dim" [255%Z] (demo_world true 1)))) =
      [("D1", str level)].
Proof.
  destruct (brightness_maps_to_sixteen_levels (demo_world true 1) 0 (demo_switch 1) 0 true 255 []
              ltac:(lia) eq_refl eq_refl eq_refl) as (level & H1 & H2 & _ & H3 & _).
  exists level. split; [exact H1|]. split; [exact H2 | exact H3].
Defined.

(** * The state update and the acknowledgment *)

(** X6.  With [wait_for_ack] the command suspends right after the
    transmission: the state update and the queueing of the repetition wait
    for the acknowledgment.  Without it the command returns at once, the
    state update scheduled and the repetition queued. *)
Theorem ha_state_update_waits_for_acknowledgment
    (w : World) (e : nat) (d : Entity) (p : nat) (ack : bool)
    (command : string) (args : list Z) (cmd : string) (s : bool) :
  entities w !! e = Some d ->
  _protocol w = Some (Some p) -> _wait_ack w = Some ack ->
  command_payload command args cmd s ->
  let n := length (tasks w) in
  let r := _async_handle_command e command args w in
  let cancelled := match _repetition_task d with Some t => [TaskCancel t] | None => [] end in
  let sent := cancelled ++ [SetState e (PyBool s); Transmit e n p ack (_device_id d) cmd] in
  if ack then
    fst r = Ok (Suspended n) /\
    trace (snd r) = trace w ++ sent /\
    length (tasks (snd r)) = S n /\
    _repetition_task <$> entities (snd r) !! e = Some (_repetition_task d) /\
    trace (deliver_ack n (snd r)) = trace w ++ sent ++ [UpdateHaState e] /\
    length (tasks (deliver_ack n (snd r))) =
      (if (1 <? _signal_repetitions d)%Z then S (S n) else S n)
  else
    fst r = Ok Returned /\
    trace (snd r) = trace w ++ sent ++ [UpdateHaState e] /\
    length (tasks (snd r)) = (if (1 <? _signal_repetitions d)%Z then S (S n) else S n).
Proof.
  intros He Hp Ha Hpay. cbv zeta.
  rewrite (handle_command_run e d w command args cmd s He Hpay).
  fold (launch_world e d cmd s w).
  set (wl := launch_world e d cmd s w). set (n := length (tasks w)).
  assert (Hc : tasks wl !! n = Some (top_coro e cmd d)) by apply launch_world_lookup.
  assert (Hel : entities wl !! e = Some (with_state (PyBool s) d))
    by (apply launch_world_entity; exact He).
  assert (Hpl : _protocol wl = Some (Some p))
    by (unfold wl, launch_world; simpl; rewrite cancel_world_protocol; exact Hp).
  assert (Hal : _wait_ack wl = Some ack)
    by (unfold wl, launch_world; simpl; rewrite cancel_world_wait_ack; exact Ha).
  assert (Hlen : length (tasks wl) = S n).
  { unfold wl, launch_world, spawn_world, state_world. simpl.
    rewrite length_app, cancel_world_tasks_length. simpl. unfold n. lia. }
  assert (Htr : trace wl = trace w ++
            match _repetition_task d with Some t => [TaskCancel t] | None => [] end ++
            [SetState e (PyBool s)]) by apply launch_world_trace.
  destruct ack.
  - rewrite (resume_scheduled_ack n (top_coro e cmd d) (with_state (PyBool s) d) p wl
               Hc eq_refl Hel Hal Hpl).
    cbn [fst snd]. set (w1 := with_tasks _ _).
    assert (Ht1 : trace w1 = trace w ++
              match _repetition_task d with Some t => [TaskCancel t] | None => [] end ++
              [SetState e (PyBool s); Transmit e n p true (_device_id d) cmd]).
    { unfold w1, transmit_world. cbn [trace with_tasks with_trace co_self co_cmd top_coro
                                      _device_id with_state].
      rewrite Htr, <- !app_assoc. reflexivity. }
    assert (Hc1 : tasks w1 !! n = Some (with_co_state AwaitingAck (top_coro e cmd d))).
    { unfold w1. cbn [tasks with_tasks]. rewrite list_lookup_alter_eq.
      unfold transmit_world. cbn [tasks with_trace]. rewrite Hc. reflexivity. }
    assert (Hl1 : length (tasks w1) = S n).
    { unfold w1. cbn [tasks with_tasks]. rewrite length_alter. exact Hlen. }
    split; [reflexivity|]. split; [exact Ht1|]. split; [exact Hl1|].
    split; [unfold w1, transmit_world; cbn [entities with_tasks with_trace]; rewrite Hel;
            reflexivity|].
    unfold deliver_ack. rewrite Hc1. cbn [co_state with_co_state].
    rewrite resume_cases, Hc1. cbn [co_state with_co_state].
    rewrite rest_world_trace, rest_world_tasks, length_alter.
    cbn [co_top co_self with_co_state top_coro co_repetitions].
    split; [rewrite Ht1, <- !app_assoc; reflexivity|].
    destruct (1 <? _signal_repetitions d)%Z; [rewrite length_app, Hl1; simpl; lia | exact Hl1].
  - rewrite (resume_scheduled_noack n (top_coro e cmd d) (with_state (PyBool s) d) p wl
               Hc eq_refl Hel Hal Hpl).
    cbn [fst snd]. split; [reflexivity|].
    rewrite rest_world_trace, rest_world_tasks, length_alter.
    cbn [co_top co_self top_coro co_repetitions co_cmd].
    unfold transmit_world. cbn [trace tasks with_trace co_self co_cmd top_coro _device_id
                                with_state].
    split; [rewrite Htr, <- !app_assoc; reflexivity|].
    destruct (1 <? _signal_repetitions d)%Z; [rewrite length_app, Hlen; simpl; lia | exact Hlen].
Qed.

Lemma ha_state_update_waits_for_acknowledgment_witness :
  fst (_async_handle_command 0 "turn_on" [] (demo_world true 2)) = Ok (Suspended 0) /\
  trace (snd (_async_handle_command 0 "turn_on" [] (demo_world true 2))) =
    [SetState 0 (PyBool true); Transmit 0 0 0 true "D1" "on"] /\
  trace (deliver_ack 0 (snd (_async_handle_command 0 "turn_on" [] (demo_world true 2)))) =
    [SetState 0 (PyBool true); Transmit 0 0 0 true "D1" "on"; UpdateHaState 0].
Proof.
  destruct (ha_state_update_waits_for_acknowledgment (demo_world true 2) 0 (demo_switch 2) 0 true
              "turn_on" [] "on" true eq_refl eq_refl eq_refl ltac:(constructor))
    as (H1 & H2 & _ & _ & H5 & _).
  split; [exact H1|]. split; [exact H2 | exact H5].
Defined.

(** * Set-up without a gateway *)

Lemma exec_op_unbound config op w :
  not_connected op -> unbound w ->
  unbound (exec_op config op w) /\
  transmissions (trace (exec_op config op w)) = transmissions (trace w).
Proof.
  intros Hop Hu.
  assert (Hf : forall w', binding_frame w w' ->
     unbound w' /\ transmissions (trace w') = transmissions (trace w)).
  { intros w' (H1 & _ & H3). split; [unfold unbound; rewrite H1; exact Hu | auto]. }
  destruct op as [e command args|t|c|event| |[p|ex]|]; simpl in *; try contradiction.
  - apply Hf, frames_handle_command.
  - unfold run_task. repeat case_match; auto; apply Hf, frames_resume.
  - unfold deliver_ack. repeat case_match; auto; apply Hf, frames_resume.
  - apply Hf, frames_event_callback.
  - split; [right; apply reconnect_unbinds|].
    unfold reconnect, bind, set_rflink_protocol, emit. simpl.
    destruct (stopping w); simpl; [reflexivity|]. apply transmissions_snoc_other. exact I.
  - destruct (caught ex); simpl; [|auto].
    split; [exact Hu|]. apply transmissions_snoc_other. exact I.
  - auto.
Qed.

Lemma exec_ops_unbound config ops w :
  Forall not_connected ops -> unbound w ->
  unbound (exec_ops config ops w) /\
  transmissions (trace (exec_ops config ops w)) = transmissions (trace w).
Proof.
  intros Hops. revert w. induction Hops as [|op ops Hop _ IH]; intros w Hu; simpl; [auto|].
  destruct (exec_op_unbound config op w Hop Hu) as [Hu1 Ht1].
  destruct (IH _ Hu1) as [Hu2 Ht2]. split; [exact Hu2 | congruence].
Qed.

(** X16.  When the first connection attempt fails with one of the errors
    [connect] catches, [async_setup] still returns [True] and only
    schedules a reconnect; when it fails with any other exception,
    [async_setup] raises it and schedules nothing.  Either way, until a
    connection succeeds nothing is transmitted and every command raises. *)
Theorem setup_when_gateway_unreachable
    (config : Config) (w : World) (ex : exn) (ops : list Op) :
  unbound w ->
  Forall not_connected ops ->
  let r := async_setup config (Raise ex) w in
  let w1 := exec_ops config ops (snd r) in
  (if caught ex
   then fst r = Ok true /\
        trace (snd r) = trace w ++ [CallLaterReconnect (CONF_RECONNECT_INTERVAL config)]
   else fst r = Raise ex /\ trace (snd r) = trace w) /\
  transmissions (trace w1) = transmissions (trace w) /\
  forall e command args,
    is_raise (fst (_async_handle_command e command args w1)) = true /\
    transmissions (trace (snd (_async_handle_command e command args w1))) =
      transmissions (trace w).
Proof.
  intros Hu Hops. cbv zeta.
  destruct (async_setup_initial_state config (Raise ex) w) as (_ & _ & _ & _ & Hp & _ & Hr).
  set (w0 := snd (async_setup config (Raise ex) w)) in *.
  assert (Hu0 : unbound w0) by (unfold unbound; rewrite Hp; exact Hu).
  assert (Ht0 : transmissions (trace w0) = transmissions (trace w)).
  { destruct (caught ex); destruct Hr as [_ Hr]; rewrite Hr; [|reflexivity].
    apply transmissions_snoc_other. exact I. }
  destruct (exec_ops_unbound config ops w0 Hops Hu0) as [Hu1 Ht1].
  split; [exact Hr|]. split; [congruence|].
  intros e command args. split; [apply handle_command_unbound_raises, Hu1|].
  destruct (frames_handle_command e command args (exec_ops config ops w0)) as (_ & _ & H).
  rewrite (H Hu1). congruence.
Qed.

Lemma setup_when_gateway_unreachable_witness :
  fst (async_setup (demo_config true) (Raise ConnectionRefusedError) hass_start) = Ok true /\
  is_raise (fst (_async_handle_command 0 "turn_on" []
                   (exec_ops (demo_config true)
                      [OpDisconnect; OpConnect (Raise OSError); OpEvent demo_on]
                      (snd (async_setup (demo_config true) (Raise ConnectionRefusedError)
                              hass_start))))) = true.
Proof.
  destruct (setup_when_gateway_unreachable (demo_config true) hass_start ConnectionRefusedError
              [OpDisconnect; OpConnect (Raise OSError); OpEvent demo_on]
              ltac:(left; reflexivity) ltac:(repeat constructor)) as ((H1 & _) & _ & H4).
  split; [exact H1 | apply H4].
Defined.

(** * Events that are neither commands nor sensor readings *)

Lemma lookup_keys_frame_refl w : lookup_keys_frame w w.
Proof. intros k H. exact H. Qed.

Lemma lookup_keys_frame_trans a b c :
  lookup_keys_frame a b -> lookup_keys_frame b c -> lookup_keys_frame a c.
Proof. intros H1 H2 k H. apply H2, H1, H. Qed.

Lemma lookup_keys_frame_same w w' :
  entity_lookup w' = entity_lookup w -> lookup_keys_frame w w'.
Proof. intros H k Hk. rewrite H. exact Hk. Qed.

Lemma lookup_keys_frame_resume c : framed lookup_keys_frame (resume c).
Proof.
  intros w. apply lookup_keys_frame_same. rewrite resume_cases.
  destruct (tasks w !! c) as [co|]; [|reflexivity].
  assert (Hrest : forall w', entity_lookup (rest_world c co w') = entity_lookup w').
  { intros w'. unfold rest_world. destruct (1 <? co_repetitions co)%Z, (co_top co); reflexivity. }
  destruct (co_state co); try reflexivity.
  - unfold send_outcome. destruct (entities w !! co_self co) as [d|]; [|reflexivity].
    destruct (_wait_ack w) as [[|]|]; destruct (_protocol w) as [[p|]|]; try reflexivity.
    rewrite Hrest. reflexivity.
  - apply Hrest.
Qed.

Lemma lookup_keys_frame_handle_event e event : framed lookup_keys_frame (handle_event e event).
Proof.
  apply framed_handle_event.
  - apply lookup_keys_frame_refl.
  - apply lookup_keys_frame_trans.
  - intros eff _ w. apply lookup_keys_frame_same. reflexivity.
  - intros h s w. apply lookup_keys_frame_same. reflexivity.
  - intros t w. apply lookup_keys_frame_same. reflexivity.
Qed.

Lemma lookup_keys_frame_event_callback event : framed lookup_keys_frame (event_callback event).
Proof.
  intros w. unfold event_callback.
  destruct (entity_lookup w !! identify_event_type event) as [by_id|] eqn:Hty;
    [|apply lookup_keys_frame_refl].
  unfold bind, defaultdict_getitem.
  destruct (by_id !! (event !! EVENT_KEY_ID)) as [[|h hs]|] eqn:Hid.
  - cbn [ret fst snd]. case_match; apply lookup_keys_frame_same; reflexivity.
  - cbn [ret fst snd].
    apply (framed_for_each lookup_keys_frame lookup_keys_frame_refl lookup_keys_frame_trans).
    intros x. apply lookup_keys_frame_handle_event.
  - cbn [fst snd].
    assert (Hins : lookup_keys_frame w
              (with_entity_lookup
                 (<[identify_event_type event := <[event !! EVENT_KEY_ID := []]> by_id]>
                    (entity_lookup w)) w)).
    { intros k Hk. cbn [entity_lookup with_entity_lookup].
      rewrite lookup_insert_ne; [exact Hk|]. intros Heq. rewrite <- Heq, Hty in Hk.
      discriminate. }
    case_match; exact Hins.
Qed.

Lemma lookup_keys_frame_exec_op config op w : lookup_keys_frame w (exec_op config op w).
Proof.
  destruct op as [e command args|t|c|event| |[p|ex]|]; unfold exec_op.
  - apply framed_handle_command.
    + apply lookup_keys_frame_refl.
    + apply lookup_keys_frame_trans.
    + intros eff _ w'. apply lookup_keys_frame_same. reflexivity.
    + intros h s w'. apply lookup_keys_frame_same. reflexivity.
    + intros t w'. apply lookup_keys_frame_same. reflexivity.
    + intros co w'. apply lookup_keys_frame_same. reflexivity.
    + apply lookup_keys_frame_resume.
  - unfold run_task. repeat case_match; try apply lookup_keys_frame_refl;
      apply lookup_keys_frame_resume.
  - unfold deliver_ack. repeat case_match; try apply lookup_keys_frame_refl;
      apply lookup_keys_frame_resume.
  - apply lookup_keys_frame_event_callback.
  - apply lookup_keys_frame_same. unfold reconnect, bind, set_rflink_protocol. simpl.
    destruct (stopping w); reflexivity.
  - apply lookup_keys_frame_same. reflexivity.
  - apply lookup_keys_frame_same. rewrite connect_raise_run. destruct (caught ex); reflexivity.
  - apply lookup_keys_frame_same. reflexivity.
Qed.

Lemma lookup_keys_frame_exec_ops config ops w : lookup_keys_frame w (exec_ops config ops w).
Proof.
  revert w. induction ops as [|op ops IH]; intros w; simpl.
  - apply lookup_keys_frame_refl.
  - eapply lookup_keys_frame_trans; [apply lookup_keys_frame_exec_op | apply IH].
Qed.

(** X1.  An event that carries neither a "command" nor a "sensor" key (a version
    string, an acknowledgment) is of type "unknown".  The lookup table set
    up by [async_setup] has no such key and no later step adds one, so
    [event_callback] returns at once and leaves everything as it was. *)
Theorem unclassified_events_are_dropped
    (config : Config) (connection : Res nat) (ops : list Op) (w : World) (event : Event) :
  event !! EVENT_KEY_COMMAND = None ->
  event !! EVENT_KEY_SENSOR = None ->
  let w1 := exec_ops config ops (snd (async_setup config connection w)) in
  event_callback event w1 = (Ok tt, w1).
Proof.
  intros Hc Hs. cbv zeta. apply event_callback_unknown_type; [exact Hc | exact Hs|].
  apply lookup_keys_frame_exec_ops.
  destruct (async_setup_initial_state config connection w) as (Hl & _). rewrite Hl. reflexivity.
Qed.

Lemma unclassified_events_are_dropped_witness :
  event_callback {[ "version" := "1.1"; "revision" := "45" ]}
    (exec_ops (demo_config true) [OpEvent demo_on; OpDisconnect]
       (snd (async_setup (demo_config true) (Ok 0) hass_start))) =
  (Ok tt, exec_ops (demo_config true) [OpEvent demo_on; OpDisconnect]
            (snd (async_setup (demo_config true) (Ok 0) hass_start))).
Proof.
  apply (unclassified_events_are_dropped (demo_config true) (Ok 0)
           [OpEvent demo_on; OpDisconnect] hass_start); reflexivity.
Defined.

(** * Repetitions the cancellation does not reach *)

(** C3.  [cancel_queued_send_commands] cancels the task in
    [_repetition_task], and that attribute is assigned only after the send
    has been acknowledged.  A switch with two repetitions is turned on and,
    before the gateway has acknowledged, turned off: the second command
    finds nothing on record, and once both sends are acknowledged the
    repetition of "on" is transmitted after "off" has been sent.  Both
    repetitions are queued then, only the later one on record: a third
    command cancels that one alone and "on" is transmitted after it too. *)
Theorem command_before_acknowledgment_leaves_repeats :
  let config := demo_config true in
  let w2 := exec_ops config [OpCommand 0 "turn_on" []; OpCommand 0 "turn_off" []]
              (demo_world true 2) in
  let w4 := exec_ops config [OpAck 0; OpAck 1] w2 in
  let w5 := exec_op config (OpCommand 0 "dim" [255%Z]) w4 in
  trace w2 = [SetState 0 (PyBool true); Transmit 0 0 0 true "D1" "on";
              SetState 0 (PyBool false); Transmit 0 1 0 true "D1" "off"] /\
  transmissions (trace (run_until_idle config 8 w2)) =
    [("D1", "on"); ("D1", "off"); ("D1", "on"); ("D1", "off")] /\
  is_on <$> entities (run_until_idle config 8 w2) !! 0 = Some false /\
  map co_state (tasks w4) = [Finished; Finished; Scheduled; Scheduled] /\
  _repetition_task <$> entities w4 !! 0 = Some (Some 3) /\
  map co_state (tasks w5) = [Finished; Finished; Scheduled; Cancelled; AwaitingAck] /\
  transmissions (trace (run_until_idle config 8 w5)) =
    [("D1", "on"); ("D1", "off"); ("D1", "15"); ("D1", "on"); ("D1", "15")].
Proof. cbv zeta. repeat split; reflexivity. Qed.

(** C8.  [SwitchableRflinkDevice._handle_event] cancels the task in
    [_repetition_task], which is assigned only after a send has been
    acknowledged.  A switch with three repetitions is turned on, and the
    remote's "off" arrives before the gateway has acknowledged the first
    send: the handler finds no task on record, sets the state to off, and
    the two repetitions of "on" are transmitted afterwards.  After two
    overlapping commands the remote's "off" cancels the task on record and
    the other repetition is still transmitted, with the state off. *)
Theorem event_before_acknowledgment_leaves_repeats :
  let config := demo_config true in
  let w2 := exec_ops config [OpCommand 0 "turn_on" []; OpEvent demo_off] (demo_world true 3) in
  let w5 := exec_ops config [OpCommand 0 "turn_on" []; OpCommand 0 "turn_off" [];
                             OpAck 0; OpAck 1; OpEvent demo_off] (demo_world true 2) in
  trace w2 = [SetState 0 (PyBool true); Transmit 0 0 0 true "D1" "on";
              HandleEvent 0 demo_off; SetState 0 (PyBool false); UpdateHaState 0] /\
  transmissions (trace (run_until_idle config 8 w2)) =
    [("D1", "on"); ("D1", "on"); ("D1", "on")] /\
  is_on <$> entities (run_until_idle config 8 w2) !! 0 = Some false /\
  idle (run_until_idle config 8 w2) /\
  map co_state (tasks w5) = [Finished; Finished; Scheduled; Cancelled] /\
  transmissions (trace (run_until_idle config 8 w5)) =
    [("D1", "on"); ("D1", "off"); ("D1", "on")] /\
  is_on <$> entities (run_until_idle config 8 w5) !! 0 = Some false.
Proof.
  cbv zeta. repeat split; try reflexivity.
  intros i co Hi. destruct i as [|[|[|i]]]; simpl in Hi; try discriminate;
    injection Hi as <-; reflexivity.
Qed.
